(** * Attendance backend: authorization scopes, punch state machine, reports

    A shallow embedding of the attendance service's core functions and the
    properties its specification states about them.

    Conventions of the embedding.
    - Text is a [string] of code units; requests and report cells are taken
      to be ASCII text.  The case maps act on the ASCII letters and leave
      every other code unit alone, and [trim] strips the ASCII white space
      (tab, line feed, vertical tab, form feed, carriage return, space).
    - Database ids, day numbers and timestamps are integers ([Z]); a
      nullable column is an [option].
    - A query is the list comprehension it denotes over the tables, and a
      function that writes to the database passes the database along. *)

From Stdlib Require Import ZArith QArith Qround Lia List Ascii String.
From stdpp Require Import base option list gmap sets strings pretty.

Local Open Scope string_scope.
Local Open Scope Z_scope.

(* ===================================================================== *)
(** ** JavaScript string helpers *)
(* ===================================================================== *)

Definition is_space (c : ascii) : bool :=
  let n := nat_of_ascii c in
  ((9 <=? n)%nat && (n <=? 13)%nat) || (n =? 32)%nat.

Definition upper_char (c : ascii) : ascii :=
  let n := nat_of_ascii c in
  if ((97 <=? n)%nat && (n <=? 122)%nat)%bool then ascii_of_nat (n - 32) else c.

Definition lower_char (c : ascii) : ascii :=
  let n := nat_of_ascii c in
  if ((65 <=? n)%nat && (n <=? 90)%nat)%bool then ascii_of_nat (n + 32) else c.

Fixpoint string_map (f : ascii -> ascii) (s : string) : string :=
  match s with
  | EmptyString => EmptyString
  | String c r => String (f c) (string_map f r)
  end.

(** [s.toUpperCase()] and [s.toLowerCase()]. *)
Definition toUpperCase (s : string) : string := string_map upper_char s.
Definition toLowerCase (s : string) : string := string_map lower_char s.

Fixpoint trimStart (s : string) : string :=
  match s with
  | EmptyString => EmptyString
  | String c r => if is_space c then trimStart r else s
  end.

(** Drops the trailing white space: a white-space character is kept only
    when something that is kept follows it. *)
Fixpoint trimEnd (s : string) : string :=
  match s with
  | EmptyString => EmptyString
  | String c r =>
      match trimEnd r with
      | EmptyString => if is_space c then EmptyString else String c EmptyString
      | r' => String c r'
      end
  end.

(** [s.trim()] on a byte string, with the white space of ASCII.
    [String.prototype.trim] also strips the white space beyond ASCII (the
    no-break space and the byte-order mark among it); [JsString.trim]
    below does, on code units. *)
Definition trim (s : string) : string := trimEnd (trimStart s).

(** An optional string, or the empty string when it is [undefined] or
    [null]: what [v || ...] and [v ?? ...] with the empty string give. *)
Definition or_empty (v : option string) : string :=
  match v with
  | Some s => s
  | None => ""
  end.

(* ===================================================================== *)
(** ** Punch types and validation of a punch attempt *)
(* ===================================================================== *)

(** [PUNCH_TYPES]. *)
Inductive PunchType := IN | OUT.

Definition PunchType_name (p : PunchType) : string :=
  match p with IN => "IN" | OUT => "OUT" end.

Definition PunchType_eqb (p q : PunchType) : bool :=
  match p, q with
  | IN, IN | OUT, OUT => true
  | _, _ => false
  end.

(** The attendance object the handlers pass around: the columns that decide
    control flow.  [punch_in_time] and [punch_out_time] are truthy exactly
    when the column is not null (the query renders them with TO_CHAR, which
    keeps null). *)
Record Attendance := mkAttendance {
  attendance_id : Z;
  att_date : option Z;
  punch_in_time : option Z;
  punch_out_time : option Z;
  emp_id : Z;
  ward_id : option Z
}.

Record PunchError := mkPunchError {
  status : Z;
  error : string
}.

Definition validatePunchAttempt (attendance : option Attendance)
    (punchType : PunchType) : option PunchError :=
  match attendance with
  | None =>
      Some {| status := if PunchType_eqb punchType OUT then 400 else 404;
              error := if PunchType_eqb punchType OUT
                       then "Must punch in first"
                       else "Attendance record not found" |}
  | Some attendance =>
      if PunchType_eqb punchType IN && bool_decide (is_Some (punch_in_time attendance))
      then Some {| status := 400; error := "Already punched in today" |}
      else if PunchType_eqb punchType OUT && bool_decide (is_Some (punch_out_time attendance))
      then Some {| status := 400; error := "Already punched out today" |}
      else if PunchType_eqb punchType OUT && negb (bool_decide (is_Some (punch_in_time attendance)))
      then Some {| status := 400; error := "Must punch in first" |}
      else None
  end.

(** Invariant 2 of the data model: a punch-out implies a punch-in. *)
Definition punch_order_ok (a : Attendance) : Prop :=
  is_Some (punch_out_time a) -> is_Some (punch_in_time a).

(** The ineligible transitions, as the transition table lists them, each
    with the message it is rejected with. *)
Definition ineligible (attendance : option Attendance) (p : PunchType)
    (msg : string) : Prop :=
  (p = IN /\ msg = "Already punched in today" /\
   exists a, attendance = Some a /\ is_Some (punch_in_time a))
  \/ (p = OUT /\ msg = "Already punched out today" /\
      exists a, attendance = Some a /\
                is_Some (punch_in_time a) /\ is_Some (punch_out_time a))
  \/ (p = OUT /\ msg = "Must punch in first" /\
      (attendance = None \/
       exists a, attendance = Some a /\ punch_in_time a = None)).

(* ===================================================================== *)
(** ** Face attendance: normalisation of the requested punch type *)
(* ===================================================================== *)

(** Strings as JavaScript has them: sequences of UTF-16 code units.  The
    functions above work on byte strings and strip the ASCII white space;
    they serve where the text is compared with ASCII words.  The functions
    of this module follow [String.prototype.trim] on code units, with the
    white space and the line terminators of ECMAScript. *)
Module JsString.

(** WhiteSpace and LineTerminator: U+0009 to U+000D, U+0020, U+00A0,
    U+1680, U+2000 to U+200A, U+2028, U+2029, U+202F, U+205F, U+3000 and
    U+FEFF. *)
Definition WhiteSpace : list Z :=
  [9; 10; 11; 12; 13; 32; 160; 5760;
   8192; 8193; 8194; 8195; 8196; 8197; 8198; 8199; 8200; 8201; 8202;
   8232; 8233; 8239; 8287; 12288; 65279].

Definition is_white_space (unit : Z) : bool :=
  bool_decide (unit ∈ WhiteSpace).

Fixpoint trimStart (s : list Z) : list Z :=
  match s with
  | [] => []
  | unit :: rest => if is_white_space unit then trimStart rest else s
  end.

Definition trimEnd (s : list Z) : list Z :=
  reverse (trimStart (reverse s)).

(** [s.trim()]. *)
Definition trim (s : list Z) : list Z := trimEnd (trimStart s).

(** [core] is [text] without the white space at its two ends. *)
Definition trimmed (text core : list Z) : Prop :=
  exists before after,
    text = (before ++ core ++ after)%list
    /\ Forall (fun unit => unit ∈ WhiteSpace) before
    /\ Forall (fun unit => unit ∈ WhiteSpace) after
    /\ (forall unit, head core = Some unit -> unit ∉ WhiteSpace)
    /\ (forall unit, last core = Some unit -> unit ∉ WhiteSpace).

(** The code units of "OUT", and the eight ways to spell it in the two
    cases. *)
Definition OUT_text : list Z := [79; 85; 84].

Definition spells_out (s : list Z) : Prop :=
  exists o u t, s = [o; u; t]
    /\ (o = 111 \/ o = 79) /\ (u = 117 \/ u = 85) /\ (t = 116 \/ t = 84).

(** Upper-casing of the letters a to z alone: what [toUpperCase] does to
    a text of ASCII letters. *)
Definition ascii_upper (s : list Z) : list Z :=
  map (fun unit => if (97 <=? unit) && (unit <=? 122) then unit - 32 else unit) s.

End JsString.

(** [(rawPunchType || "").toString().trim().toUpperCase()], then the
    comparison with [PUNCH_TYPES.OUT].  [rawPunchType] is [None] for a
    falsy value and otherwise the text that [toString()] gives of it.
    [toUpperCase] is the upper-casing of the engine, with the case
    mappings of Unicode. *)
Definition normalizedPunchType (toUpperCase : list Z -> list Z)
    (rawPunchType : option (list Z)) : list Z :=
  toUpperCase (JsString.trim (default [] rawPunchType)).

Definition resolvePunchType (toUpperCase : list Z -> list Z)
    (rawPunchType : option (list Z)) : PunchType :=
  if bool_decide (normalizedPunchType toUpperCase rawPunchType
                  = JsString.OUT_text)
  then OUT else IN.

(* ===================================================================== *)
(** ** Group mode: the padded crop box of a detected face *)
(* ===================================================================== *)

(** The face service reports a bounding box as ratios of the image size.
    They are finite numbers here, rationals; the image size is in pixels. *)
Record BoundingBox := mkBoundingBox {
  Width : Q;
  Height : Q;
  Left : Q;
  Top : Q
}.

(** [Math.round] on exact numbers: the nearest integer, halves rounded
    up. *)
Definition Math_round (x : Q) : Z := Qfloor (x + (1 # 2))%Q.

Module Crop.
Record Region := mkRegion {
  left : Z;
  top : Z;
  width : Z;
  height : Z
}.
End Crop.

(** [computeCropRegion], with the rounding of a product to an integer as a
    parameter: the engine multiplies in floating point before it rounds, so
    [round] stands for any way a finite product ends up as an integer. *)
Definition computeCropRegionWith (round : Q -> Z)
    (boundingBox : option BoundingBox)
    (imageWidth imageHeight : Z) (paddingRatio : Q) : option Crop.Region :=
  match boundingBox with
  | None => None
  | Some boundingBox =>
      if (imageWidth <=? 0) || (imageHeight <=? 0) then None
      else
        let baseWidth :=
          Z.max (round (Width boundingBox * inject_Z imageWidth)%Q) 1 in
        let baseHeight :=
          Z.max (round (Height boundingBox * inject_Z imageHeight)%Q) 1 in
        let padX := round (inject_Z baseWidth * paddingRatio)%Q in
        let padY := round (inject_Z baseHeight * paddingRatio)%Q in
        let left :=
          Z.max (round (Left boundingBox * inject_Z imageWidth)%Q - padX) 0 in
        let top :=
          Z.max (round (Top boundingBox * inject_Z imageHeight)%Q - padY) 0 in
        let width := Z.min (imageWidth - left) (baseWidth + padX * 2) in
        let height := Z.min (imageHeight - top) (baseHeight + padY * 2) in
        if (width <=? 0) || (height <=? 0) then None
        else Some (Crop.mkRegion left top width height)
  end.

(** [computeCropRegion] with exact products. *)
Definition computeCropRegion : option BoundingBox -> Z -> Z -> Q -> option Crop.Region :=
  computeCropRegionWith Math_round.

(** The default [paddingRatio = 0.25]. *)
Definition defaultPaddingRatio : Q := (1 # 4)%Q.

(** A crop region lies inside an image of the given size. *)
Definition region_inside (r : Crop.Region) (imageWidth imageHeight : Z) : Prop :=
  0 <= Crop.left r /\ 0 <= Crop.top r /\
  1 <= Crop.width r /\ 1 <= Crop.height r /\
  Crop.left r + Crop.width r <= imageWidth /\
  Crop.top r + Crop.height r <= imageHeight.

(* ===================================================================== *)
(** ** The logical date of an instant *)
(* ===================================================================== *)

(** An instant is a [Date]'s time value: milliseconds since the epoch. *)
Definition msPerDay : Z := 86400000.
Definition msPerHour : Z := 3600000.

(** The engine's calendar, the proleptic Gregorian one: the civil date
    [(year, month, day)] of a day number counted from 1970-01-01, and the
    day number of a civil date.  The second is linear in the day of the
    month, as [Date.UTC] and [setUTCDate] are: day 0 of a month is the last
    day of the month before. *)
Definition civil_from_days (days : Z) : Z * Z * Z :=
  let z := days + 719468 in
  let era := z / 146097 in
  let doe := z mod 146097 in
  let yoe := (doe - doe / 1460 + doe / 36524 - doe / 146096) / 365 in
  let doy := doe - (365 * yoe + yoe / 4 - yoe / 100) in
  let mp := (5 * doy + 2) / 153 in
  let d := doy - (153 * mp + 2) / 5 + 1 in
  let m := if mp <? 10 then mp + 3 else mp - 9 in
  let y := yoe + era * 400 in
  (if m <=? 2 then y + 1 else y, m, d).

Definition days_from_civil (year month day : Z) : Z :=
  let y := if month <=? 2 then year - 1 else year in
  let era := y / 400 in
  let yoe := y mod 400 in
  let mp := if 2 <? month then month - 3 else month + 9 in
  let doy := (153 * mp + 2) / 5 + day - 1 in
  let doe := yoe * 365 + yoe / 4 - yoe / 100 + doy in
  era * 146097 + doe - 719468.

(** [Date.UTC(year, monthIndex, day)]: a year from 0 to 99 stands for
    1900 + year. *)
Definition Date_UTC (year monthIndex day : Z) : Z :=
  let year := if (0 <=? year) && (year <=? 99) then 1900 + year else year in
  days_from_civil year (monthIndex + 1) day * msPerDay.

Definition getUTCFullYear (t : Z) : Z := fst (fst (civil_from_days (t / msPerDay))).
Definition getUTCMonth (t : Z) : Z := snd (fst (civil_from_days (t / msPerDay))) - 1.
Definition getUTCDate (t : Z) : Z := snd (civil_from_days (t / msPerDay)).

(** [d.setUTCDate(day)]: the same month and time of day, another day. *)
Definition setUTCDate (t day : Z) : Z :=
  days_from_civil (getUTCFullYear t) (getUTCMonth t + 1) day * msPerDay
  + t mod msPerDay.

(** A number as the engine has it, for the configuration values. *)
Inductive JsNumber := NaN | Infinite | Finite (q : Q).

(** [x || 4] on a number: zero and NaN are falsy. *)
Definition or_four (n : JsNumber) : JsNumber :=
  match n with
  | NaN => Finite 4
  | Infinite => Infinite
  | Finite q => if Qeq_bool q 0 then Finite 4 else Finite q
  end.

(** [parsedRolloverHour], from [env], the value of
    [Number(process.env.NIGHT_SHIFT_ROLLOVER_HOUR ??
     process.env.ATTENDANCE_ROLLOVER_HOUR ?? 4)]; it is [Finite 4] when
     neither variable is set. *)
Definition parsedRolloverHour (env : JsNumber) : JsNumber := or_four env.

Definition NIGHT_SHIFT_ROLLOVER_HOUR (env : JsNumber) : Q :=
  match parsedRolloverHour env with
  | Finite q => if Qle_bool 0 q && Qle_bool q 23 then q else 4%Q
  | _ => 4%Q
  end.

(** The parts [attendanceDateFormatter.formatToParts] yields for an instant:
    the civil date and the hour (0 to 23) of the local time, which is the
    instant shifted by the time zone's offset at that instant
    ([tzOffset], in milliseconds; 19800000 for Asia/Kolkata). *)
Record DateParts := mkDateParts {
  year : Z;
  month : Z;
  day : Z;
  hour : Z
}.

Definition local_day (tzOffset : Z -> Z) (t : Z) : Z := (t + tzOffset t) / msPerDay.
Definition local_hour (tzOffset : Z -> Z) (t : Z) : Z :=
  ((t + tzOffset t) mod msPerDay) / msPerHour.

(** An invalid or absent date ([None]) is replaced by the clock. *)
Definition getAttendanceDateParts (tzOffset : Z -> Z) (clock : Z)
    (date : option Z) : DateParts :=
  let t := match date with Some t => t | None => clock end in
  let '(y, m, d) := civil_from_days (local_day tzOffset t) in
  mkDateParts y m d (local_hour tzOffset t).

(** [String(value).padStart(2, "0")]. *)
Definition pad2 (value : Z) : string :=
  let s := pretty value in
  if (String.length s <? 2)%nat then "0" +:+ s else s.

Definition render_date (ymd : Z * Z * Z) : string :=
  let '(y, m, d) := ymd in
  pretty y +:+ "-" +:+ pad2 m +:+ "-" +:+ pad2 d.

(** [hour < rolloverHour] and the range test, on a number. *)
Definition rollover_applies (rolloverHour : JsNumber) (hour : Z) : bool :=
  match rolloverHour with
  | Finite r =>
      Qle_bool 0 r && Qle_bool r 23 && negb (Qle_bool r (inject_Z hour))
  | _ => false
  end.

(** [formatDate(date, options)]; [rolloverHour] is [options.rolloverHour],
    [None] when the caller leaves it out, as every caller does. *)
Definition formatDate (tzOffset : Z -> Z) (env : JsNumber) (clock : Z)
    (date : option Z) (rolloverHour : option JsNumber) : string :=
  let rolloverHour :=
    match rolloverHour with
    | Some r => r
    | None => Finite (NIGHT_SHIFT_ROLLOVER_HOUR env)
    end in
  let validDate := match date with Some t => t | None => clock end in
  let parts := getAttendanceDateParts tzOffset clock (Some validDate) in
  if rollover_applies rolloverHour (hour parts) then
    let utcDate := Date_UTC (year parts) (month parts - 1) (day parts) in
    let utcDate := setUTCDate utcDate (getUTCDate utcDate - 1) in
    render_date (getUTCFullYear utcDate, getUTCMonth utcDate + 1, getUTCDate utcDate)
  else
    render_date (year parts, month parts, day parts).

(** Asia/Kolkata: five and a half hours ahead of UTC, all year. *)
Definition tz_Asia_Kolkata (t : Z) : Z := 19800000.

(** One 400-year cycle of the calendar has 146097 days.  [cycle_ok] checks,
    for one day of the cycle that starts on 0000-03-01, that the date's
    March-based year is within the cycle and that the date leads back to the
    day; [cycle_ok_from] checks a run of days. *)
Definition cycle_ok (doe : Z) : bool :=
  let '(y, m, d) := civil_from_days (doe - 719468) in
  let y0 := if m <=? 2 then y - 1 else y in
  (0 <=? y0) && (y0 <? 400) && (1 <=? m) && (m <=? 12)
  && (days_from_civil y m d =? doe - 719468).

Fixpoint cycle_ok_from (n : nat) (doe : Z) : bool :=
  match n with
  | O => true
  | S n' => cycle_ok doe && cycle_ok_from n' (doe + 1)
  end.

(* ===================================================================== *)
(** ** The attendance tables and the attendance resolver *)
(* ===================================================================== *)

(** The columns of [attendance], [employee], [designation] and [wards] the
    resolver reads or writes.  [attendance_seq] is the serial that numbers
    new attendance rows. *)
Record AttendanceRow := mkAttendanceRow {
  a_attendance_id : Z;
  a_emp_id : Z;
  a_date : Z;
  a_ward_id : option Z;
  a_punch_in_time : option Z;
  a_punch_out_time : option Z
}.

Record EmployeeRow := mkEmployeeRow {
  e_emp_id : Z;
  e_designation_id : option Z;
  e_ward_id : option Z
}.

Record Db := mkDb {
  tbl_attendance : list AttendanceRow;
  tbl_employee : list EmployeeRow;
  tbl_designation : list Z;
  tbl_wards : list Z;
  attendance_seq : Z
}.

Definition option_Z_eqb (x : option Z) (y : Z) : bool :=
  match x with
  | Some v => v =? y
  | None => false
  end.

(** [ATTENDANCE_SELECT_JOINS]: an attendance row with its employee, the
    employee's designation and the employee's ward; a row whose employee
    lacks one of them is not in the join. *)
Definition joined (db : Db) : list (AttendanceRow * EmployeeRow * Z) :=
  flat_map (fun a =>
    flat_map (fun e =>
      flat_map (fun d =>
        map (fun w => (a, e, w))
            (List.filter (fun w => option_Z_eqb (e_ward_id e) w) (tbl_wards db)))
        (List.filter (fun d => option_Z_eqb (e_designation_id e) d)
                     (tbl_designation db)))
      (List.filter (fun e => a_emp_id a =? e_emp_id e) (tbl_employee db)))
    (tbl_attendance db).

(** [ATTENDANCE_SELECT_FIELDS], the columns kept here. *)
Definition selected (j : AttendanceRow * EmployeeRow * Z) : Attendance :=
  let '(a, e, w) := j in
  {| attendance_id := a_attendance_id a;
     att_date := Some (a_date a);
     punch_in_time := a_punch_in_time a;
     punch_out_time := a_punch_out_time a;
     emp_id := e_emp_id e;
     ward_id := Some w |}.

(** [ORDER BY a.date DESC, a.attendance_id DESC]: [a] comes strictly
    before [b]. *)
Definition ordered_before (a b : AttendanceRow) : bool :=
  (a_date b <? a_date a)
  || ((a_date a =? a_date b) && (a_attendance_id b <? a_attendance_id a)).

(** [LIMIT 1] of the ordered rows. *)
Fixpoint first_in_order (rows : list (AttendanceRow * EmployeeRow * Z))
    : option (AttendanceRow * EmployeeRow * Z) :=
  match rows with
  | [] => None
  | r :: rest =>
      match first_in_order rest with
      | None => Some r
      | Some best =>
          if ordered_before (fst (fst best)) (fst (fst r)) then Some best
          else Some r
      end
  end.

(** [fetchAttendanceRecord(whereClause, params)]; the WHERE clause is a
    condition on the attendance row. *)
Definition fetchAttendanceRecord (db : Db) (whereClause : AttendanceRow -> bool)
    : option Attendance :=
  selected <$>
    first_in_order (List.filter (fun j => whereClause (fst (fst j))) (joined db)).

(** The WHERE clause of [fetchRecentOpenAttendance]. *)
Definition open_in_window (empId date : Z) (a : AttendanceRow) : bool :=
  (a_emp_id a =? empId)
  && (date - 1 <=? a_date a) && (a_date a <=? date)
  && bool_decide (is_Some (a_punch_in_time a))
  && negb (bool_decide (is_Some (a_punch_out_time a))).

(** An employee id of 0 and a missing date are falsy. *)
Definition fetchRecentOpenAttendance (db : Db) (empId : Z) (date : option Z)
    : option Attendance :=
  match date with
  | None => None
  | Some date =>
      if empId =? 0 then None
      else fetchAttendanceRecord db (open_in_window empId date)
  end.

(** [INSERT INTO attendance (emp_id, date, ward_id) ... ON CONFLICT
    (emp_id, date) DO NOTHING RETURNING ...]: the new row, when there was
    no row for the employee and date. *)
Definition insert_attendance (db : Db) (emp_id date : Z) (ward_id : option Z)
    : Db * option AttendanceRow :=
  let id := attendance_seq db + 1 in
  if existsb (fun a => (a_emp_id a =? emp_id) && (a_date a =? date))
             (tbl_attendance db)
  then ({| tbl_attendance := tbl_attendance db;
           tbl_employee := tbl_employee db;
           tbl_designation := tbl_designation db;
           tbl_wards := tbl_wards db;
           attendance_seq := id |}, None)
  else
    let row := mkAttendanceRow id emp_id date ward_id None None in
    ({| tbl_attendance := tbl_attendance db ++ [row];
        tbl_employee := tbl_employee db;
        tbl_designation := tbl_designation db;
        tbl_wards := tbl_wards db;
        attendance_seq := id |}, Some row).

(** What a call yields: a thrown error or the returned value. *)
Inductive Outcome (A : Type) :=
| Threw (message : string)
| Returned (value : A).
Arguments Threw {A} message.
Arguments Returned {A} value.

Definition is_OUT (punchType : option PunchType) : bool :=
  match punchType with
  | Some OUT => true
  | _ => false
  end.

(** [getOrCreateAttendanceRecord(emp_id, date, { punchType,
    createIfMissing })].  [today] is what [formatDate()] gives at the call
    and stands in for a missing date. *)
Definition getOrCreateAttendanceRecord (db : Db) (today : Z) (emp_id : Z)
    (date : option Z) (punchType : option PunchType) (createIfMissing : bool)
    : Db * Outcome (option Attendance) :=
  let targetDate := match date with Some d => d | None => today end in
  let attendance :=
    fetchAttendanceRecord db
      (fun a => (a_emp_id a =? emp_id) && (a_date a =? targetDate)) in
  let needsOpenCarryForward :=
    is_OUT punchType &&
    match attendance with
    | None => true
    | Some attendance => negb (bool_decide (is_Some (punch_in_time attendance)))
    end in
  let carriedRecord :=
    if needsOpenCarryForward
    then fetchRecentOpenAttendance db emp_id (Some targetDate)
    else None in
  match carriedRecord, attendance with
  | Some carriedRecord, _ => (db, Returned (Some carriedRecord))
  | None, Some attendance => (db, Returned (Some attendance))
  | None, None =>
      if negb createIfMissing && is_OUT punchType then (db, Returned None)
      else if emp_id =? 0 then (db, Threw "Employee ID is required")
      else
        let ward_id :=
          match List.filter (fun e => e_emp_id e =? emp_id) (tbl_employee db) with
          | e :: _ => e_ward_id e
          | [] => None
          end in
        let '(db', inserted) := insert_attendance db emp_id targetDate ward_id in
        let baseAttendance :=
          match inserted with
          | Some row => Some row
          | None =>
              head (List.filter
                      (fun a => (a_emp_id a =? emp_id) && (a_date a =? targetDate))
                      (tbl_attendance db'))
          end in
        match baseAttendance with
        | None => (db', Returned None)
        | Some baseAttendance =>
            (db', Returned (Some
              {| attendance_id := a_attendance_id baseAttendance;
                 att_date := date;
                 punch_in_time := None;
                 punch_out_time := None;
                 emp_id := emp_id;
                 ward_id := a_ward_id baseAttendance |}))
        end
  end.

(** An open record of the employee in the window of a target date, as the
    query of [fetchRecentOpenAttendance] sees it: a row of the inner join
    [ATTENDANCE_SELECT_JOINS], so the attendance row of an employee
    without designation or ward is none. *)
Definition open_record (db : Db) (empId date : Z)
    (j : AttendanceRow * EmployeeRow * Z) : Prop :=
  In j (joined db) /\
  a_emp_id (fst (fst j)) = empId /\
  date - 1 <= a_date (fst (fst j)) <= date /\
  is_Some (a_punch_in_time (fst (fst j))) /\
  a_punch_out_time (fst (fst j)) = None.

(** No row comes before [j] in the order of the query. *)
Definition most_recent_among (P : AttendanceRow * EmployeeRow * Z -> Prop)
    (j : AttendanceRow * EmployeeRow * Z) : Prop :=
  P j /\ forall j', P j' -> ordered_before (fst (fst j')) (fst (fst j)) = false.

(** Invariant 2 of the data model on the table. *)
Definition rows_punch_order_ok (db : Db) : Prop :=
  forall a, In a (tbl_attendance db) ->
    is_Some (a_punch_out_time a) -> is_Some (a_punch_in_time a).

(** An employee with one open record, of day 19522 (2023-06-14). *)
Definition carry_forward_db : Db :=
  {| tbl_attendance := [mkAttendanceRow 11 3 19522 (Some 1) (Some 1000) None];
     tbl_employee := [mkEmployeeRow 3 (Some 1) (Some 1)];
     tbl_designation := [1];
     tbl_wards := [1];
     attendance_seq := 11 |}.

(* ===================================================================== *)
(** ** Face attendance in group mode *)
(* ===================================================================== *)

(** [processPunch], as the database sees it.  The upload of the image and
    the face comparison are outside; [failure] is the message of the error
    they throw, if they do.  Then the UPDATE stamps the punch time on the
    rows with the attendance id and returns the first; no row is an
    error. *)
Definition stamp (punchType : PunchType) (now : Z) (a : AttendanceRow)
    : AttendanceRow :=
  match punchType with
  | IN => mkAttendanceRow (a_attendance_id a) (a_emp_id a) (a_date a)
            (a_ward_id a) (Some now) (a_punch_out_time a)
  | OUT => mkAttendanceRow (a_attendance_id a) (a_emp_id a) (a_date a)
             (a_ward_id a) (a_punch_in_time a) (Some now)
  end.

Definition update_attendance (db : Db) (attendanceId : Z)
    (punchType : PunchType) (now : Z) : Db * list AttendanceRow :=
  ({| tbl_attendance :=
        map (fun a => if a_attendance_id a =? attendanceId
                      then stamp punchType now a else a)
            (tbl_attendance db);
      tbl_employee := tbl_employee db;
      tbl_designation := tbl_designation db;
      tbl_wards := tbl_wards db;
      attendance_seq := attendance_seq db |},
   map (stamp punchType now)
       (List.filter (fun a => a_attendance_id a =? attendanceId)
                    (tbl_attendance db))).

Definition processPunch (db : Db) (now : Z) (attendanceId : Z)
    (punchType : PunchType) (failure : option string)
    : Db * Outcome AttendanceRow :=
  match failure with
  | Some message => (db, Threw message)
  | None =>
      let '(db', rows) := update_attendance db attendanceId punchType now in
      match rows with
      | [] => (db', Threw "Attendance update failed")
      | record :: _ => (db', Returned record)
      end
  end.

(** What the face service and the employee lookup answer for one crop:
    an error, no match, or a match with the employee it resolves to. *)
Inductive SearchOutcome :=
| SearchThrew (message : string)
| NoMatch
| Matched (employeeRecord : option Z).

(** One detected face: its bounding box, whether the crop could be cut and
    resized, the answer of the search, the failure of the punch's outside
    steps if any, and the time of the punch.

    [searched] is the answer of the face service followed by
    [resolveEmployeeFromFaceIdentifiers]; that function may also write the
    column [employee.face_id] (see [link_face] below).  [Db] holds the
    attendance rows and the join keys of the other tables, not [face_id]:
    what is proved of the loop over [Db] speaks of the attendance table and
    says nothing of the [face_id] column. *)
Record FaceDetail := mkFaceDetail {
  BoundingBox_of : option BoundingBox;
  extracted : bool;
  searched : SearchOutcome;
  punch_failure : option string;
  punch_clock : Z
}.

Inductive FaceStatus := Punched | Unmatched | Duplicate | Skipped | Errored.

Definition FaceStatus_name (s : FaceStatus) : string :=
  match s with
  | Punched => "punched"
  | Unmatched => "unmatched"
  | Duplicate => "duplicate"
  | Skipped => "skipped"
  | Errored => "error"
  end.

Definition FaceStatus_eqb (s t : FaceStatus) : bool :=
  String.eqb (FaceStatus_name s) (FaceStatus_name t).

Record FaceResult := mkFaceResult {
  faceIndex : Z;
  face_status : FaceStatus;
  employeeId : option Z;
  attendanceId : option Z;
  punchedAt : option Z;
  message : option string
}.

(** [payload.details || payload.error || "Face recognition failed"] of
    [mapRekognitionError]: the message of the error, or the default. *)
Definition error_details (message : string) : string :=
  if String.eqb message "" then "Face recognition failed" else message.

Record LoopState := mkLoopState {
  loop_db : Db;
  processedEmployees : gset Z;
  results : list FaceResult
}.

Definition push (st : LoopState) (db : Db) (processed : gset Z)
    (r : FaceResult) : LoopState :=
  mkLoopState db processed (results st ++ [r]).

(** The body of the loop over [faceDetails], for the face at [index].  The
    search and [resolveEmployeeFromFaceIdentifiers] have run when the body
    reads [searched]; the UPDATE of [employee.face_id] that the latter may
    make is not part of [Db]. *)
Definition processFace (imageWidth imageHeight : Z) (attendanceDate : Z)
    (punchType : PunchType) (st : LoopState) (index : Z)
    (faceDetail : FaceDetail) : LoopState :=
  let db := loop_db st in
  let processed := processedEmployees st in
  let faceIndex := index + 1 in
  match computeCropRegion (BoundingBox_of faceDetail) imageWidth imageHeight
          defaultPaddingRatio with
  | None =>
      push st db processed
        (mkFaceResult faceIndex Skipped None None None
           (Some "Unable to crop the detected face region."))
  | Some cropRegion =>
      if negb (extracted faceDetail) then
        push st db processed
          (mkFaceResult faceIndex Errored None None None
             (Some "Unable to process the detected face region."))
      else
        match searched faceDetail with
        | SearchThrew message =>
            push st db processed
              (mkFaceResult faceIndex Errored None None None
                 (Some (error_details message)))
        | NoMatch =>
            push st db processed
              (mkFaceResult faceIndex Unmatched None None None
                 (Some "No matching employee found."))
        | Matched None =>
            push st db processed
              (mkFaceResult faceIndex Unmatched None None None
                 (Some "Matched face is not linked to any employee record."))
        | Matched (Some emp) =>
            if bool_decide (emp ∈ processed) then
              push st db processed
                (mkFaceResult faceIndex Duplicate (Some emp) None None
                   (Some "Employee already processed in this capture."))
            else
              match getOrCreateAttendanceRecord db attendanceDate emp
                      (Some attendanceDate) (Some punchType)
                      (negb (PunchType_eqb punchType OUT)) with
              | (db1, Threw message) =>
                  push st db1 processed
                    (mkFaceResult faceIndex Errored None None None
                       (Some (error_details message)))
              | (db1, Returned attendance) =>
                  match validatePunchAttempt attendance punchType, attendance with
                  | Some validation, _ =>
                      push st db1 ({[emp]} ∪ processed)
                        (mkFaceResult faceIndex Skipped (Some emp) None None
                           (Some (error validation)))
                  | None, None =>
                      (* not reached: validation rejects a missing record;
                         reading [attendance.attendance_id] would throw *)
                      push st db1 processed
                        (mkFaceResult faceIndex Errored None None None
                           (Some "Cannot read properties of null"))
                  | None, Some attendance =>
                      match processPunch db1 (punch_clock faceDetail)
                              (attendance_id attendance) punchType
                              (punch_failure faceDetail) with
                      | (db2, Threw message) =>
                          push st db2 processed
                            (mkFaceResult faceIndex Errored None None None
                               (Some (error_details message)))
                      | (db2, Returned updated) =>
                          push st db2 ({[emp]} ∪ processed)
                            (mkFaceResult faceIndex Punched (Some emp)
                               (Some (attendance_id attendance))
                               (match punchType with
                                | IN => a_punch_in_time updated
                                | OUT => a_punch_out_time updated
                                end) None)
                      end
                  end
              end
        end
  end.

(** [for (let index = 0; index < faceDetails.length; index += 1)]. *)
Fixpoint faceLoop (imageWidth imageHeight : Z) (attendanceDate : Z)
    (punchType : PunchType) (faceDetails : list FaceDetail) (index : Z)
    (st : LoopState) : LoopState :=
  match faceDetails with
  | [] => st
  | faceDetail :: rest =>
      faceLoop imageWidth imageHeight attendanceDate punchType rest (index + 1)
        (processFace imageWidth imageHeight attendanceDate punchType st index
           faceDetail)
  end.

Record GroupResponse := mkGroupResponse {
  success : bool;
  mode : string;
  punch_type : PunchType;
  total_faces : Z;
  punched_count : Z;
  group_results : list FaceResult
}.

(** The group branch of the handler, for a frame with at least one face and
    readable dimensions, from the loop to the response. *)
Definition groupAttendance (db : Db) (imageWidth imageHeight : Z)
    (attendanceDate : Z) (punchType : PunchType)
    (faceDetails : list FaceDetail) : Db * GroupResponse :=
  let st :=
    faceLoop imageWidth imageHeight attendanceDate punchType faceDetails 0
      (mkLoopState db ∅ []) in
  let punchedCount :=
    Z.of_nat (length (List.filter
                        (fun entry => FaceStatus_eqb (face_status entry) Punched)
                        (results st))) in
  (loop_db st,
   {| success := 0 <? punchedCount;
      mode := "group";
      punch_type := punchType;
      total_faces := Z.of_nat (length faceDetails);
      punched_count := punchedCount;
      group_results := results st |}).

(** A face reaches the duplicate check with employee [emp]: its crop is
    cut, and the search matches a face that resolves to [emp]. *)
Definition resolves_to (imageWidth imageHeight : Z) (faceDetail : FaceDetail)
    (emp : Z) : Prop :=
  computeCropRegion (BoundingBox_of faceDetail) imageWidth imageHeight
    defaultPaddingRatio <> None /\
  extracted faceDetail = true /\
  searched faceDetail = Matched (Some emp).

(** A result that put its employee in [processedEmployees]. *)
Definition marks_processed (r : FaceResult) (emp : Z) : Prop :=
  employeeId r = Some emp /\
  (face_status r = Punched \/ face_status r = Skipped).

(** A frame with two faces that both match employee 100, who has no
    attendance row yet. *)
Definition group_db : Db :=
  {| tbl_attendance := [];
     tbl_employee := [mkEmployeeRow 100 (Some 1) (Some 1)];
     tbl_designation := [1];
     tbl_wards := [1];
     attendance_seq := 0 |}.

Definition two_faces_one_employee : list FaceDetail :=
  [ mkFaceDetail (Some (mkBoundingBox (1 # 5) (3 # 10) (1 # 10) (1 # 10)))
      true (Matched (Some 100)) None 5000;
    mkFaceDetail (Some (mkBoundingBox (1 # 5) (3 # 10) (3 # 5) (1 # 10)))
      true (Matched (Some 100)) None 5001 ].

(* ===================================================================== *)
(** ** Permissions and the city scope of a user *)
(* ===================================================================== *)

(** The RBAC tables, by their columns. *)
Record Permission := mkPermission {
  perm_id : Z;
  perm_module : string;
  perm_action : string
}.

Record RolePermission := mkRolePermission {
  rp_role_id : Z;
  rp_permission_id : Z
}.

Record UserRole := mkUserRole {
  ur_user_id : Z;
  ur_role_id : Z
}.

Record UserPermission := mkUserPermission {
  up_user_id : Z;
  up_permission_id : Z;
  up_city_id : option Z
}.

Record UserCityAccess := mkUserCityAccess {
  uca_user_id : Z;
  uca_city_id : Z
}.

Record RbacDb := mkRbacDb {
  permissions : list Permission;
  role_permissions : list RolePermission;
  user_roles : list UserRole;
  user_permissions : list UserPermission;
  user_city_access : list UserCityAccess
}.

(** A row of the query of [fetchUserPermissions]. *)
Record PermissionRow := mkPermissionRow {
  module : string;
  action : string;
  city_id : option Z
}.

(** The first SELECT: the permissions of the user's roles, with a null
    city. *)
Definition role_permission_rows (db : RbacDb) (userId : Z) : list PermissionRow :=
  flat_map (fun p =>
    flat_map (fun rp =>
      map (fun ur => mkPermissionRow (perm_module p) (perm_action p) None)
          (List.filter (fun ur => (ur_role_id ur =? rp_role_id rp)
                                  && (ur_user_id ur =? userId))
                       (user_roles db)))
      (List.filter (fun rp => rp_permission_id rp =? perm_id p)
                   (role_permissions db)))
    (permissions db).

(** The second SELECT: the user's own grants, each with its city. *)
Definition user_permission_rows (db : RbacDb) (userId : Z) : list PermissionRow :=
  flat_map (fun p =>
    map (fun up => mkPermissionRow (perm_module p) (perm_action p) (up_city_id up))
        (List.filter (fun up => (up_permission_id up =? perm_id p)
                                && (up_user_id up =? userId))
                     (user_permissions db)))
    (permissions db).

(** [UNION ALL] of the two. *)
Definition permission_rows (db : RbacDb) (userId : Z) : list PermissionRow :=
  (role_permission_rows db userId ++ user_permission_rows db userId)%list.

(** A city scope: [all], or the ids of a [Set], kept in insertion order. *)
Record Scope := mkScope {
  all : bool;
  ids : list Z
}.

(** [set.add(x)]. *)
Definition Set_add (x : Z) (s : list Z) : list Z :=
  if bool_decide (x ∈ s) then s else (s ++ [x])%list.

Record PermissionPayload := mkPermissionPayload {
  permissionSet : gset string;
  cityMap : gmap string Scope
}.

(** [`${row.module}:${row.action}`.toLowerCase()]. *)
Definition permission_key (module action : string) : string :=
  toLowerCase (module +:+ ":" +:+ action).

Definition row_key (row : PermissionRow) : string :=
  permission_key (module row) (action row).

(** The body of [rows.forEach]: the scope of the key is created on first
    sight, then a null city sets [all] and clears the ids, and a city is
    added unless [all] is set. *)
Definition add_permission_row (payload : PermissionPayload)
    (row : PermissionRow) : PermissionPayload :=
  let key := row_key row in
  let permissionSet := {[key]} ∪ permissionSet payload in
  let scope :=
    match cityMap payload !! key with
    | Some scope => scope
    | None => mkScope false []
    end in
  let scope :=
    match city_id row with
    | None => mkScope true []
    | Some city =>
        if all scope then scope else mkScope false (Set_add city (ids scope))
    end in
  mkPermissionPayload permissionSet (<[key := scope]> (cityMap payload)).

Definition build_permission_payload (rows : list PermissionRow)
    : PermissionPayload :=
  fold_left add_permission_row rows (mkPermissionPayload ∅ ∅).

(** The module state: the database, the cache keyed by user id and cache
    version, and the version. *)
Record RbacState := mkRbacState {
  rbac_db : RbacDb;
  permissionCache : gmap (Z * Z) PermissionPayload;
  cacheVersion : Z
}.

(** [fetchUserPermissions(userId)]; a user id of 0 is falsy. *)
Definition fetchUserPermissions (st : RbacState) (userId : Z)
    : RbacState * PermissionPayload :=
  if userId =? 0 then (st, mkPermissionPayload ∅ ∅)
  else
    let cacheKey := (userId, cacheVersion st) in
    match permissionCache st !! cacheKey with
    | Some payload => (st, payload)
    | None =>
        let payload :=
          build_permission_payload (permission_rows (rbac_db st) userId) in
        (mkRbacState (rbac_db st)
           (<[cacheKey := payload]> (permissionCache st)) (cacheVersion st),
         payload)
    end.

Definition invalidatePermissionCache (st : RbacState) : RbacState :=
  mkRbacState (rbac_db st) ∅ (cacheVersion st + 1).

Definition CITY_PERMISSION_KEY : string := "city:view".

(** [normalizeScope]; the ids are numbers already. *)
Definition normalizeScope (scope : option Scope) : Scope :=
  match scope with
  | None => mkScope true []
  | Some scope =>
      if all scope then mkScope true [] else mkScope false (ids scope)
  end.

(** [req.user]: the id and the role of the token. *)
Record User := mkUser {
  user_id : Z;
  role : option string
}.

Definition is_admin (user : User) : bool :=
  match role user with
  | Some role => negb (String.eqb role "") && String.eqb (toLowerCase role) "admin"
  | None => false
  end.

Definition buildCityScopeForUser (st : RbacState) (user : option User)
    : RbacState * Scope :=
  match user with
  | None => (st, mkScope false [])
  | Some user =>
      if user_id user =? 0 then (st, mkScope false [])
      else if is_admin user then (st, mkScope true [])
      else
        let '(st', permissionPayload) := fetchUserPermissions st (user_id user) in
        (st', normalizeScope (cityMap permissionPayload !! CITY_PERMISSION_KEY))
  end.

(** Every entry of the cache under the current version is what the query
    gives now: writes to the RBAC tables invalidate the cache. *)
Definition cache_coherent (st : RbacState) : Prop :=
  forall userId payload,
    permissionCache st !! (userId, cacheVersion st) = Some payload ->
    payload = build_permission_payload (permission_rows (rbac_db st) userId).

(** The cities of the user's explicit [UserCityAccess] grants. *)
Definition city_access_grants (db : RbacDb) (userId : Z) : gset Z :=
  list_to_set (map uca_city_id
                 (List.filter (fun g => uca_user_id g =? userId)
                              (user_city_access db))).

(** The cities of the user's [UserPermission] rows for a permission key. *)
Definition permission_cities (db : RbacDb) (userId : Z) (key : string) : gset Z :=
  list_to_set
    (omap city_id
       (List.filter (fun row => String.eqb (row_key row) key)
                    (user_permission_rows db userId))).

(** The user holds a grant of the key with a null city. *)
Definition holds_for_all_cities (db : RbacDb) (userId : Z) (key : string) : Prop :=
  exists row, In row (permission_rows db userId) /\
              row_key row = key /\ city_id row = None.

(** The user holds some grant of the key. *)
Definition holds_permission (db : RbacDb) (userId : Z) (key : string) : Prop :=
  exists row, In row (permission_rows db userId) /\ row_key row = key.


(** What the rows say about the scope of a key: no scope without a row of
    the key; otherwise [all] exactly when a row of the key has a null city,
    then with no ids, and else the cities of the rows of the key. *)
Definition scope_describes (rows : list PermissionRow) (key : string)
    (scope : option Scope) : Prop :=
  match scope with
  | None => forall row, In row rows -> row_key row <> key
  | Some scope =>
      (exists row, In row rows /\ row_key row = key) /\
      (all scope = true <->
       exists row, In row rows /\ row_key row = key /\ city_id row = None) /\
      (all scope = true -> ids scope = []) /\
      (all scope = false ->
       forall city, city ∈ ids scope <->
         exists row, In row rows /\ row_key row = key /\ city_id row = Some city)
  end.


(** A user with the user id 5, not an admin, with explicit city grants for
    the cities 2 and 5 and the permission city:view for the city 7. *)
Definition scoped_user : User := mkUser 5 (Some "supervisor").

Definition scoped_user_state : RbacState :=
  mkRbacState
    {| permissions := [mkPermission 1 "city" "view"];
       role_permissions := [];
       user_roles := [];
       user_permissions := [mkUserPermission 5 1 (Some 7)];
       user_city_access := [mkUserCityAccess 5 2; mkUserCityAccess 5 5] |}
    ∅ 0.

(** The city scope as the specification words it: [all] exactly when the
    user holds city:view with a null city, and otherwise the union of the
    explicit city grants and the cities of the city:view rows. *)
Definition city_scope_as_specified (st : RbacState) (user : User) : Prop :=
  let scope := snd (buildCityScopeForUser st (Some user)) in
  let db := rbac_db st in
  (all scope = true <->
   holds_for_all_cities db (user_id user) CITY_PERMISSION_KEY)
  /\ (all scope = false ->
      list_to_set (ids scope) =@{gset Z}
      city_access_grants db (user_id user)
      ∪ permission_cities db (user_id user) CITY_PERMISSION_KEY).

(* ===================================================================== *)
(** ** Report filters *)
(* ===================================================================== *)

(** [req.query] is a map from the names of the query string to their
    values. *)

(** [a || b] on optional strings. *)
Definition or_else (a b : option string) : option string :=
  match a with
  | Some s => if String.eqb s "" then b else a
  | None => b
  end.

(** [parseBooleanFlag]. *)
Definition parseBooleanFlag (value : option string) : option bool :=
  match value with
  | None => None
  | Some value =>
      let normalized := toLowerCase (trim value) in
      if String.eqb normalized "" then None
      else if existsb (String.eqb normalized) ["true"; "1"; "yes"; "y"] then Some true
      else if existsb (String.eqb normalized) ["false"; "0"; "no"; "n"] then Some false
      else None
  end.

(** [getLocationExpression]. *)
Definition getLocationExpression (locationType : string) : string :=
  if String.eqb locationType "in"
  then "COALESCE(NULLIF(TRIM(a.in_address), ''), 'Unknown Location')"
  else if String.eqb locationType "out"
  then "COALESCE(NULLIF(TRIM(a.out_address), ''), 'Unknown Location')"
  else "COALESCE(NULLIF(TRIM(a.in_address), ''), NULLIF(TRIM(a.out_address), ''), 'Unknown Location')".

(** [filters.join(" AND ")] under [WHERE], or the empty clause. *)
Definition where_clause (filters : list string) : string :=
  match filters with
  | [] => ""
  | _ => "WHERE " +:+ String.concat " AND " filters
  end.

(** [`$${params.length}`]. *)
Definition placeholder_for {A : Type} (params : list A) : string :=
  "$" +:+ pretty (length params).

Section Filters.

(** Numbers of the engine, and [Number(value)] on a string when the result
    is finite. *)
Context {Num : Type} (parseFinite : string -> option Num).

(** A bound parameter of the query. *)
Inductive Param :=
| PText (value : string)
| PNumber (value : Num)
| PIds (ids : list Z).

(** A value of the [metadata] object. *)
Inductive MetaValue :=
| MText (value : string)
| MNumber (value : Num)
| MBool (value : bool)
| MIds (ids : list Z).

(** [filters], [params] and [metadata] while a builder runs; [metadata]
    lists the properties in the order they are set. *)
Record FilterState := mkFilterState {
  filters : list string;
  params : list Param;
  metadata : list (string * MetaValue)
}.

(** What a builder returns. *)
Record FilterResult := mkFilterResult {
  whereClause : string;
  result_params : list Param;
  result_metadata : list (string * MetaValue)
}.

Definition finish (st : FilterState) : FilterResult :=
  mkFilterResult (where_clause (filters st)) (params st) (metadata st).

(** [parseIntegerParam]. *)
Definition parseIntegerParam (value : option string) : option Num :=
  match value with
  | None => None
  | Some value =>
      if String.eqb value "" then None
      else if String.eqb (toLowerCase (trim value)) "all" then None
      else parseFinite value
  end.

Definition set_meta (metaKey : option string) (value : MetaValue)
    (metadata : list (string * MetaValue)) : list (string * MetaValue) :=
  match metaKey with
  | Some key => (metadata ++ [(key, value)])%list
  | None => metadata
  end.

(** [addTextFilter] of [buildAttendanceFilters]. *)
Definition addTextFilter (st : FilterState) (rawValue : option string)
    (builder : string -> string) (metaKey : option string) (wildcard : bool)
    : FilterState :=
  let value := trim (or_empty rawValue) in
  if String.eqb value "" then st
  else
    let finalValue := if wildcard then "%" +:+ value +:+ "%" else value in
    let params := (params st ++ [PText finalValue])%list in
    let placeholder := placeholder_for params in
    mkFilterState (filters st ++ [builder placeholder])%list params
      (set_meta metaKey (MText value) (metadata st)).

Definition addNumericFilter (st : FilterState) (rawValue : option string)
    (builder : string -> string) (metaKey : option string) : FilterState :=
  match parseIntegerParam rawValue with
  | None => st
  | Some value =>
      let params := (params st ++ [PNumber value])%list in
      let placeholder := placeholder_for params in
      mkFilterState (filters st ++ [builder placeholder])%list params
        (set_meta metaKey (MNumber value) (metadata st))
  end.

(** A pattern pushed without a helper: the search and location terms. *)
Definition addPatternFilter (st : FilterState) (rawValue : option string)
    (builder : string -> string) (metaKey : string) : FilterState :=
  let term := trim (or_empty rawValue) in
  if String.eqb term "" then st
  else
    let params := (params st ++ [PText ("%" +:+ term +:+ "%")])%list in
    let placeholder := placeholder_for params in
    mkFilterState (filters st ++ [builder placeholder])%list params
      (metadata st ++ [(metaKey, MText term)])%list.

Definition addFlagFilter (st : FilterState) (rawValue : option string)
    (whenTrue whenFalse : string) (metaKey : string) : FilterState :=
  match parseBooleanFlag rawValue with
  | None => st
  | Some flag =>
      mkFilterState (filters st ++ [if flag then whenTrue else whenFalse])%list
        (params st) (metadata st ++ [(metaKey, MBool flag)])%list
  end.

(** The last step of both builders: the city scope of the caller.  A
    missing scope and the scope [all] add nothing. *)
Definition addCityScope (st : FilterState) (cityScope : option Scope)
    : FilterState :=
  match cityScope with
  | None => st
  | Some cityScope =>
      if all cityScope then st
      else
        match ids cityScope with
        | [] => mkFilterState (filters st ++ ["1 = 0"])%list (params st) (metadata st)
        | _ =>
            let params := (params st ++ [PIds (ids cityScope)])%list in
            let placeholder := placeholder_for params in
            mkFilterState
              (filters st ++ ["c.city_id = ANY(" +:+ placeholder +:+ ")"])%list
              params
              (metadata st ++ [("city_scope", MIds (ids cityScope))])%list
        end
  end.

(** The filters of [buildAttendanceFilters] that come from the query. *)
Definition attendanceQueryFilters (query : gmap string string)
    (locationExpression : string) : FilterState :=
  let st := mkFilterState [] [] [] in
  let date := trim (or_empty (or_else (query !! "date") (Some ""))) in
  let startDate :=
    trim (or_empty (or_else (query !! "start_date")
                     (or_else (query !! "date_from")
                        (or_else (query !! "from_date")
                           (or_else (query !! "from") (Some "")))))) in
  let endDate :=
    trim (or_empty (or_else (query !! "end_date")
                     (or_else (query !! "date_to")
                        (or_else (query !! "to_date")
                           (or_else (query !! "to") (Some "")))))) in
  let st :=
    if negb (String.eqb date "") then
      addTextFilter st (Some date) (fun ph => "a.date = " +:+ ph) (Some "date") false
    else
      let st :=
        if negb (String.eqb startDate "") then
          addTextFilter st (Some startDate) (fun ph => "a.date >= " +:+ ph)
            (Some "start_date") false
        else st in
      if negb (String.eqb endDate "") then
        addTextFilter st (Some endDate) (fun ph => "a.date <= " +:+ ph)
          (Some "end_date") false
      else st in
  let st := addNumericFilter st (query !! "zone_id")
              (fun ph => "z.zone_id = " +:+ ph) (Some "zone_id") in
  let st := addNumericFilter st (query !! "ward_id")
              (fun ph => "w.ward_id = " +:+ ph) (Some "ward_id") in
  let st := addNumericFilter st (query !! "city_id")
              (fun ph => "c.city_id = " +:+ ph) (Some "city_id") in
  let st := addNumericFilter st (query !! "supervisor_id")
              (fun ph => "supervisor.user_id = " +:+ ph) (Some "supervisor_id") in
  let st := addNumericFilter st (query !! "employee_id")
              (fun ph => "a.emp_id = " +:+ ph) (Some "employee_id") in
  let st := addTextFilter st (query !! "emp_code")
              (fun ph => "e.emp_code = " +:+ ph) (Some "emp_code") false in
  let st := addTextFilter st (query !! "zone_name")
              (fun ph => "z.zone_name ILIKE " +:+ ph) (Some "zone_name") true in
  let st := addTextFilter st (query !! "ward_name")
              (fun ph => "w.ward_name ILIKE " +:+ ph) (Some "ward_name") true in
  let st := addTextFilter st (query !! "city_name")
              (fun ph => "c.city_name ILIKE " +:+ ph) (Some "city_name") true in
  let st := addTextFilter st (query !! "supervisor_name")
              (fun ph => "COALESCE(supervisor.name, '') ILIKE " +:+ ph)
              (Some "supervisor_name") true in
  let st := addPatternFilter st (or_else (query !! "search") (Some ""))
              (fun ph => "(e.name ILIKE " +:+ ph +:+ " OR e.emp_code ILIKE "
                         +:+ ph +:+ ")") "search" in
  let st := addPatternFilter st (or_else (query !! "location") (Some ""))
              (fun ph => "(" +:+ locationExpression +:+ " ILIKE " +:+ ph +:+ ")")
              "location" in
  let st := addFlagFilter st (query !! "has_punch_in")
              "a.punch_in_time IS NOT NULL" "a.punch_in_time IS NULL"
              "has_punch_in" in
  addFlagFilter st (query !! "has_punch_out")
    "a.punch_out_time IS NOT NULL" "a.punch_out_time IS NULL" "has_punch_out".

Definition buildAttendanceFilters (query : gmap string string)
    (locationExpression : string) (cityScope : option Scope) : FilterResult :=
  finish (addCityScope (attendanceQueryFilters query locationExpression) cityScope).

(** The filters of [buildSupervisorSummaryFilters] that come from the
    query; its text filter has no wildcard. *)
Definition supervisorSummaryQueryFilters (query : gmap string string)
    : FilterState :=
  let st := mkFilterState [] [] [] in
  let st := addNumericFilter st (query !! "city_id")
              (fun ph => "c.city_id = " +:+ ph) (Some "city_id") in
  let st := addNumericFilter st (query !! "zone_id")
              (fun ph => "z.zone_id = " +:+ ph) (Some "zone_id") in
  let st := addNumericFilter st (query !! "ward_id")
              (fun ph => "w.ward_id = " +:+ ph) (Some "ward_id") in
  let st := addNumericFilter st (query !! "supervisor_id")
              (fun ph => "supervisor.user_id = " +:+ ph) (Some "supervisor_id") in
  addTextFilter st (query !! "supervisor_name")
    (fun ph => "COALESCE(supervisor.name, '') ILIKE " +:+ ph)
    (Some "supervisor_name") false.

Definition buildSupervisorSummaryFilters (query : gmap string string)
    (cityScope : option Scope) : FilterResult :=
  finish (addCityScope (supervisorSummaryQueryFilters query) cityScope).

(** The clause a result has beyond the result for the same query without a
    scope: the WHERE clause goes on with [clause], after [AND] if there was
    a filter already. *)
Definition extends_where (unscoped scoped : FilterResult) (clause : string)
    : Prop :=
  whereClause scoped
  = (if String.eqb (whereClause unscoped) "" then "WHERE "
     else whereClause unscoped +:+ " AND ") +:+ clause.

(** A scope that is not [all] narrows a result: with ids, one more bound
    parameter, the ids, and the condition on it; without ids, no parameter
    and the contradiction. *)
Definition narrowed_by_scope (unscoped scoped : FilterResult) (scope : Scope)
    : Prop :=
  (ids scope <> [] ->
     result_params scoped = (result_params unscoped ++ [PIds (ids scope)])%list /\
     extends_where unscoped scoped
       ("c.city_id = ANY($" +:+ pretty (length (result_params scoped)) +:+ ")"))
  /\ (ids scope = [] ->
      result_params scoped = result_params unscoped /\
      extends_where unscoped scoped "1 = 0").

End Filters.

(** A request for city 7 with a punch-in, a caller scoped to the cities 2
    and 5, and a reading of numbers that knows the text of 7. *)
Definition example_parseFinite (value : string) : option Z :=
  if String.eqb value "7" then Some 7 else None.

Definition example_query : gmap string string :=
  <["city_id" := "7"]> (<["has_punch_in" := "true"]> ∅).

Definition example_scope : Scope := mkScope false [2; 5].

(* ===================================================================== *)
(** ** CSV rendering, and reading CSV back *)
(* ===================================================================== *)

Definition dquote : ascii := ascii_of_nat 34.
Definition comma : ascii := ascii_of_nat 44.
Definition LF : ascii := ascii_of_nat 10.
Definition CR : ascii := ascii_of_nat 13.

(** The global replacement in [csvEscapeValue]: every double quote is
    written twice. *)
Fixpoint double_quotes (s : string) : string :=
  match s with
  | EmptyString => EmptyString
  | String c r =>
      if Ascii.eqb c dquote then String dquote (String dquote (double_quotes r))
      else String c (double_quotes r)
  end.

(** A cell of a report row: null or undefined ([None]), or text. *)
Definition Cell := option string.

(** [csvEscapeValue]. *)
Definition csvEscapeValue (value : Cell) : string :=
  match value with
  | None => String dquote (String dquote EmptyString)
  | Some stringValue =>
      String dquote (double_quotes stringValue +:+ String dquote EmptyString)
  end.

(** A row of a report: the properties the object holds itself, by name.  A
    property may hold null ([Some None]); the text of a property is what
    [String(value)] gives. *)
Definition Row := gmap string Cell.

(** A column descriptor: the key, the label if it has one, and the
    formatter if it has one. *)
Record Header := mkHeader {
  key : string;
  label : option string;
  formatter : option (Cell -> Row -> Cell)
}.

(** [header.label || header.key]. *)
Definition header_text (header : Header) : string :=
  match label header with
  | Some l => if String.eqb l "" then key header else l
  | None => key header
  end.

(** [row[name]]: the property the row holds under the name, and where it
    holds none, the property it inherits.  [inherited] gives the text of
    the properties of the prototype of the rows ([toString], [constructor]
    and the like for a plain object), and [None] for every other name. *)
Definition property (inherited : string -> Cell) (row : Row) (name : string)
    : Cell :=
  match row !! name with
  | Some value => value
  | None => inherited name
  end.

(** The value of a row under a header, [rawValue ?? ""]. *)
Definition cell_text (inherited : string -> Cell) (row : Row)
    (header : Header) : string :=
  let rawValue :=
    match formatter header with
    | Some format => format (property inherited row (key header)) row
    | None => property inherited row (key header)
    end in
  or_empty rawValue.

(** The cells of a line are joined by commas, the lines by line feeds. *)
Definition join_cells (cells : list string) : string :=
  String.concat (String comma EmptyString) cells.

Definition join_lines (lines : list string) : string :=
  String.concat (String LF EmptyString) lines.

(** [buildCsvDocument(rows, headers)]. *)
Definition buildCsvDocument (inherited : string -> Cell) (rows : list Row)
    (headers : list Header) : Outcome string :=
  match headers with
  | [] => Threw "CSV headers are required"
  | _ =>
      let headerLine :=
        join_cells (map (fun header => csvEscapeValue (Some (header_text header)))
                        headers) in
      match rows with
      | [] => Returned (headerLine +:+ String LF EmptyString)
      | _ =>
          let dataLines :=
            map (fun row =>
                   join_cells
                     (map (fun header =>
                             csvEscapeValue
                               (Some (cell_text inherited row header)))
                          headers))
                rows in
          Returned (join_lines (headerLine :: dataLines))
      end
  end.

(** Reading a CSV document as RFC 4180 defines it: records end with a line
    break (CR LF, or LF alone), the last one may do without; fields are
    separated by commas; a field in double quotes may hold commas, line
    breaks and doubled double quotes, each pair standing for one. *)
Inductive CsvMode :=
| RecordStart   (* before the first field of a record *)
| FieldStart    (* after a comma *)
| Unquoted      (* in a field without quotes *)
| InQuoted      (* in a quoted field *)
| QuoteSeen     (* after a double quote in a quoted field *)
| AfterCR       (* after the CR that ends a record *)
| Malformed.

Record CsvReader := mkCsvReader {
  csv_mode : CsvMode;
  csv_field : string;
  csv_record : list string;
  csv_records : list (list string)
}.

Definition csv_put (rd : CsvReader) (c : ascii) (mode : CsvMode) : CsvReader :=
  mkCsvReader mode (csv_field rd +:+ String c EmptyString)
    (csv_record rd) (csv_records rd).

Definition csv_end_field (rd : CsvReader) : CsvReader :=
  mkCsvReader FieldStart EmptyString
    (csv_record rd ++ [csv_field rd])%list (csv_records rd).

Definition csv_end_record (rd : CsvReader) (mode : CsvMode) : CsvReader :=
  mkCsvReader mode EmptyString []
    (csv_records rd ++ [(csv_record rd ++ [csv_field rd])%list])%list.

Definition csv_fail (rd : CsvReader) : CsvReader :=
  mkCsvReader Malformed (csv_field rd) (csv_record rd) (csv_records rd).

Definition csv_step (rd : CsvReader) (c : ascii) : CsvReader :=
  match csv_mode rd with
  | RecordStart | FieldStart =>
      if Ascii.eqb c dquote then
        mkCsvReader InQuoted (csv_field rd) (csv_record rd) (csv_records rd)
      else if Ascii.eqb c comma then csv_end_field rd
      else if Ascii.eqb c LF then csv_end_record rd RecordStart
      else if Ascii.eqb c CR then csv_end_record rd AfterCR
      else csv_put rd c Unquoted
  | Unquoted =>
      if Ascii.eqb c dquote then csv_fail rd
      else if Ascii.eqb c comma then csv_end_field rd
      else if Ascii.eqb c LF then csv_end_record rd RecordStart
      else if Ascii.eqb c CR then csv_end_record rd AfterCR
      else csv_put rd c Unquoted
  | InQuoted =>
      if Ascii.eqb c dquote then
        mkCsvReader QuoteSeen (csv_field rd) (csv_record rd) (csv_records rd)
      else csv_put rd c InQuoted
  | QuoteSeen =>
      if Ascii.eqb c dquote then csv_put rd dquote InQuoted
      else if Ascii.eqb c comma then csv_end_field rd
      else if Ascii.eqb c LF then csv_end_record rd RecordStart
      else if Ascii.eqb c CR then csv_end_record rd AfterCR
      else csv_fail rd
  | AfterCR =>
      if Ascii.eqb c LF then
        mkCsvReader RecordStart (csv_field rd) (csv_record rd) (csv_records rd)
      else csv_fail rd
  | Malformed => rd
  end.

Fixpoint csv_run (rd : CsvReader) (s : string) : CsvReader :=
  match s with
  | EmptyString => rd
  | String c r => csv_run (csv_step rd c) r
  end.

(** The records at the end of the input. *)
Definition csv_finish (rd : CsvReader) : option (list (list string)) :=
  match csv_mode rd with
  | RecordStart => Some (csv_records rd)
  | FieldStart | Unquoted | QuoteSeen =>
      Some (csv_records rd ++ [(csv_record rd ++ [csv_field rd])%list])%list
  | InQuoted | AfterCR | Malformed => None
  end.

Definition parseCsv (document : string) : option (list (list string)) :=
  csv_finish (csv_run (mkCsvReader RecordStart EmptyString [] []) document).

(** The reader is at the start of a field, with nothing read of it. *)
Definition at_field_start (rd : CsvReader) : Prop :=
  (csv_mode rd = RecordStart \/ csv_mode rd = FieldStart) /\
  csv_field rd = EmptyString.

(** A line of the document: the cells, each escaped. *)
Definition render_line (cells : list string) : string :=
  join_cells (map (fun text => csvEscapeValue (Some text)) cells).

(** Three columns and two rows; the first row holds a quoted word, a comma
    and a line feed, the second holds null for the note; no row holds a
    property under the key of the third column. *)
Definition example_headers : list Header :=
  [mkHeader "name" (Some "Name") None; mkHeader "note" None None;
   mkHeader "toString" None None].

Definition example_rows : list Row :=
  [ <["name" := Some ("Asha " +:+ String dquote ("A" +:+ String dquote ", ward 2"))]>
      (<["note" := Some ("late" +:+ String LF "shift")]> ∅);
    <["name" := Some "Ravi"]> (<["note" := None]> ∅) ].

(** The text of the properties a plain object inherits, for the names
    used below: a function prints as its source. *)
Definition plain_object_inherited (name : string) : Cell :=
  if String.eqb name "toString"
  then Some "function toString() { [native code] }"
  else None.

(* ===================================================================== *)
(** ** The scope and permission middlewares *)
(* ===================================================================== *)

(** What a middleware does with a request: it calls [next], or it answers
    with a status and an error message. *)
Inductive Reply :=
| Next
| Respond (code : Z) (message : string).

(** The fields of the request the middlewares read and set;
    [req_permissionScopes] is empty while the property is undefined. *)
Record Request := mkRequest {
  req_user : option User;
  req_cityScope : option Scope;
  req_permissionScopes : gmap string Scope
}.

(** [attachCityScope], when the database answers. *)
Definition attachCityScope (st : RbacState) (req : Request)
    : RbacState * Request * Reply :=
  let '(st', scope) := buildCityScopeForUser st (req_user req) in
  (st', mkRequest (req_user req) (Some scope) (req_permissionScopes req), Next).

(** [req.user?.role?.toLowerCase() === "admin"]. *)
Definition role_is_admin (user : option User) : bool :=
  match user with
  | Some user =>
      match role user with
      | Some role => String.eqb (toLowerCase role) "admin"
      | None => false
      end
  | None => false
  end.

(** [requireCityScope(allowEmptyForAdmin)]. *)
Definition requireCityScope (allowEmptyForAdmin : bool) (req : Request) : Reply :=
  let scope :=
    match req_cityScope req with
    | Some scope => scope
    | None => mkScope false []
    end in
  if all scope then Next
  else if (0 <? length (ids scope))%nat then Next
  else if allowEmptyForAdmin && role_is_admin (req_user req) then Next
  else Respond 403 "No city access assigned. Please contact admin.".

(** [assertCityAccess(scope, cityId)]; [cityId] is [Number(cityId)] when
    that is finite. *)
Definition assertCityAccess (scope : option Scope) (cityId : option Z) : bool :=
  match scope with
  | None => true
  | Some scope =>
      if all scope then true
      else
        match cityId with
        | None => false
        | Some numeric => bool_decide (numeric ∈ ids scope)
        end
  end.

(** [req.user?.role === "admin"]: the role as it is written. *)
Definition role_is_exactly_admin (user : User) : bool :=
  match role user with
  | Some role => String.eqb role "admin"
  | None => false
  end.

(** [authorize(requiredModule, requiredAction)], when the database
    answers. *)
Definition authorize (requiredModule requiredAction : string)
    (st : RbacState) (req : Request) : RbacState * Request * Reply :=
  match req_user req with
  | None => (st, req, Respond 401 "Unauthorized: user context missing")
  | Some user =>
      if user_id user =? 0 then
        (st, req, Respond 401 "Unauthorized: user context missing")
      else if role_is_exactly_admin user then (st, req, Next)
      else
        let '(st', permissionPayload) := fetchUserPermissions st (user_id user) in
        let key := permission_key requiredModule requiredAction in
        if bool_decide (key ∈ permissionSet permissionPayload) then
          let scopes :=
            match req_permissionScopes req !! key with
            | Some _ => req_permissionScopes req
            | None =>
                match cityMap permissionPayload !! key with
                | Some scope =>
                    <[key := mkScope (all scope) (ids scope)]>
                      (req_permissionScopes req)
                | None => req_permissionScopes req
                end
            end in
          (st', mkRequest (req_user req) (req_cityScope req) scopes, Next)
        else (st', req, Respond 403 "Forbidden: missing permission")
  end.


(* ===================================================================== *)
(** ** Explicit city access of a user *)
(* ===================================================================== *)

(** [normalizeCityIds(cityIds)].  Each entry of [cityIds] is what
    [Number(raw)] gives when it is finite, and [None] when it is not; the
    loop keeps the first occurrence of every number. *)
Definition normalizeCityIds_step (acc : gset Z * list Z) (raw : option Z)
    : gset Z * list Z :=
  match raw with
  | Some value =>
      if bool_decide (value ∈ fst acc) then acc
      else ({[value]} ∪ fst acc, (snd acc ++ [value])%list)
  | None => acc
  end.

Definition normalizeCityIds (cityIds : list (option Z)) : list Z :=
  snd (fold_left normalizeCityIds_step cityIds (∅, [])).

(** The location tables and the ward assignments of supervisors, by the
    columns the access queries join on, and the ids of the users. *)
Record SupervisorWard := mkSupervisorWard {
  sw_supervisor_id : Z;
  sw_ward_id : Z
}.

Record WardRow := mkWardRow {
  w_ward_id : Z;
  w_zone_id : option Z
}.

Record ZoneRow := mkZoneRow {
  z_zone_id : Z;
  z_city_id : option Z
}.

Record AccessDb := mkAccessDb {
  acc_users : list Z;
  acc_cities : list Z;
  acc_zones : list ZoneRow;
  acc_wards : list WardRow;
  acc_supervisor_ward : list SupervisorWard;
  acc_user_city_access : list UserCityAccess
}.

(** The cities of the wards assigned to a supervisor: the join of
    [fetchCitiesFromAssignments]. *)
Definition assignment_city_rows (db : AccessDb) (userId : Z) : list Z :=
  flat_map (fun sw =>
    flat_map (fun w =>
      flat_map (fun z =>
        List.filter (fun c => option_Z_eqb (z_city_id z) c) (acc_cities db))
        (List.filter (fun z => option_Z_eqb (w_zone_id w) (z_zone_id z))
                     (acc_zones db)))
      (List.filter (fun w => w_ward_id w =? sw_ward_id sw) (acc_wards db)))
    (List.filter (fun sw => sw_supervisor_id sw =? userId)
                 (acc_supervisor_ward db)).

(** [fetchCitiesFromAssignments(userId)], without the city names: its
    [ids].

    The query has no ORDER BY, and PostgreSQL promises no order for its
    rows.  The tables are lists here and a query reads them in list order:
    one of the orders the database may choose.  What is proved of the
    result is therefore stated by membership, or up to a permutation of the
    table, never by the position of an id. *)
Definition fetchCitiesFromAssignments (db : AccessDb) (userId : Z) : list Z :=
  if userId =? 0 then []
  else normalizeCityIds (map Some (assignment_city_rows db userId)).

(** The module state of the city access: the tables, the cache keyed by
    user id and version, and the version. *)
Record CityAccessState := mkCityAccessState {
  access_db : AccessDb;
  cityAccessCache : gmap (Z * Z) Scope;
  cityAccessVersion : Z
}.

Definition invalidateCityAccessCache (st : CityAccessState) : CityAccessState :=
  mkCityAccessState (access_db st) ∅ (cityAccessVersion st + 1).

(** The [user] argument of [fetchUserCityAccess]: an object with id and
    role, a number, or nothing. *)
Inductive UserRef :=
| UserObject (user : User)
| UserNumber (id : Z)
| NoUser.

Definition UserRef_id (user : UserRef) : Z :=
  match user with
  | UserObject u => user_id u
  | UserNumber id => id
  | NoUser => 0
  end.

Definition UserRef_is_admin (user : UserRef) : bool :=
  match user with
  | UserObject u => is_admin u
  | _ => false
  end.

(** [fetchUserCityAccess(user, { allowAssignmentsFallback })], for options
    that ask for no city names; the payload is [all] and [ids].

    [SELECT city_id FROM user_city_access WHERE user_id = $1] has no ORDER
    BY either: the rows are read in list order, as one of the orders the
    database may choose, and the order of [ids] is not part of what is
    proved of this function. *)
Definition fetchUserCityAccess (st : CityAccessState) (user : UserRef)
    (allowAssignmentsFallback : bool) : CityAccessState * Scope :=
  let userId := UserRef_id user in
  if userId =? 0 then (st, mkScope false [])
  else if UserRef_is_admin user then (st, mkScope true [])
  else
    let cacheKey := (userId, cityAccessVersion st) in
    match (if allowAssignmentsFallback then cityAccessCache st !! cacheKey
           else None) with
    | Some cached => (st, cached)
    | None =>
        let rows :=
          List.filter (fun g => uca_user_id g =? userId)
                      (acc_user_city_access (access_db st)) in
        let ids := normalizeCityIds (map (fun g => Some (uca_city_id g)) rows) in
        let payload := mkScope false ids in
        let payload :=
          if allowAssignmentsFallback && (length ids =? 0)%nat then
            let assignmentIds := fetchCitiesFromAssignments (access_db st) userId in
            if (0 <? length assignmentIds)%nat then mkScope false assignmentIds
            else payload
          else payload in
        if allowAssignmentsFallback then
          (mkCityAccessState (access_db st)
             (<[cacheKey := payload]> (cityAccessCache st))
             (cityAccessVersion st), payload)
        else (st, payload)
    end.

Definition with_city_access (db : AccessDb) (grants : list UserCityAccess)
    : AccessDb :=
  mkAccessDb (acc_users db) (acc_cities db) (acc_zones db) (acc_wards db)
    (acc_supervisor_ward db) grants.

(** [syncUserCityAccess(userId, cityIds)] on the pool: the DELETE, then the
    INSERT of one grant per id, which the foreign keys to [users] and
    [cities] refuse as a whole when the user or a city is unknown, then the
    invalidation of the cache. *)
Definition syncUserCityAccess (st : CityAccessState) (userId : Z)
    (cityIds : list (option Z)) : CityAccessState * Outcome unit :=
  let ids := normalizeCityIds cityIds in
  let kept :=
    List.filter (fun g => negb (uca_user_id g =? userId))
                (acc_user_city_access (access_db st)) in
  let st1 :=
    mkCityAccessState (with_city_access (access_db st) kept)
      (cityAccessCache st) (cityAccessVersion st) in
  if (length ids =? 0)%nat then (invalidateCityAccessCache st1, Returned tt)
  else if bool_decide (userId ∈ acc_users (access_db st))
          && forallb (fun id => bool_decide (id ∈ acc_cities (access_db st))) ids
  then
    (invalidateCityAccessCache
       (mkCityAccessState
          (with_city_access (access_db st)
             (kept ++ map (mkUserCityAccess userId) ids)%list)
          (cityAccessCache st) (cityAccessVersion st)),
     Returned tt)
  else (st1, Threw "violates foreign key constraint").

(** The cache of the city access holds, under the current version, what the
    tables give for the user. *)
Definition city_cache_coherent (st : CityAccessState) : Prop :=
  forall userId cached,
    cityAccessCache st !! (userId, cityAccessVersion st) = Some cached ->
    cached = snd (fetchUserCityAccess
                    (mkCityAccessState (access_db st) ∅ (cityAccessVersion st))
                    (UserNumber userId) true).

(** The user has an explicit grant. *)
Definition has_city_grant (db : AccessDb) (userId : Z) : Prop :=
  exists g, In g (acc_user_city_access db) /\ uca_user_id g = userId.

(* ===================================================================== *)
(** ** The attendance table under the punches *)
(* ===================================================================== *)

(** The keys of the attendance table: [attendance_id] identifies a row and
    comes from the sequence, and the pair of employee and date, the target
    of [ON CONFLICT (emp_id, date)], is unique. *)
Definition attendance_keys_ok (db : Db) : Prop :=
  NoDup (map a_attendance_id (tbl_attendance db))
  /\ NoDup (map (fun a => (a_emp_id a, a_date a)) (tbl_attendance db))
  /\ forall a, In a (tbl_attendance db) -> a_attendance_id a <= attendance_seq db.

(** Row [a'] is row [a], left alone or closed: [a] was punched in and not
    out, and [a'] is [a] with a punch-out time. *)
Definition closes (a a' : AttendanceRow) : Prop :=
  a' = a \/
  (is_Some (a_punch_in_time a) /\ a_punch_out_time a = None /\
   exists now, a' = stamp OUT now a).

(** The reply of [PUT /]: an error with its status, or the updated row. *)
Inductive PutReply :=
| PutError (put_status : Z) (put_error : string)
| PutUpdated (attendance : AttendanceRow).

(** [isPunchIn ? ... : ...] of [processPunch]: the columns stamped for a
    punch type given as text; any text but [IN] stamps the punch-out. *)
Definition stamped_columns (punch_type : string) : PunchType :=
  if String.eqb punch_type (PunchType_name IN) then IN else OUT.

(** [router.put("/")].  [attendance_id] is [None] when the field is falsy
    and the id the database reads otherwise; [punch_type] is the text of
    the field, empty when it is missing; [location_given] tells that
    latitude, longitude and address are all truthy.  The capture file, when
    there is one, is taken as normalised; what its upload throws is the
    [failure] of [processPunch]. *)
Definition putAttendance (db : Db) (now : Z) (attendance_id : option Z)
    (punch_type : string) (location_given : bool) (failure : option string)
    : Db * PutReply :=
  match attendance_id with
  | None => (db, PutError 400 "Missing required fields")
  | Some attendance_id =>
      if String.eqb punch_type "" || negb location_given
      then (db, PutError 400 "Missing required fields")
      else
        match List.filter (fun a => a_attendance_id a =? attendance_id)
                          (tbl_attendance db) with
        | [] => (db, PutError 404 "Attendance record not found")
        | row :: _ =>
            if String.eqb punch_type (PunchType_name IN)
               && bool_decide (is_Some (a_punch_in_time row))
            then (db, PutError 400 "Already punched in today")
            else if String.eqb punch_type (PunchType_name OUT)
                    && bool_decide (is_Some (a_punch_out_time row))
            then (db, PutError 400 "Already punched out today")
            else if String.eqb punch_type (PunchType_name OUT)
                    && negb (bool_decide (is_Some (a_punch_in_time row)))
            then (db, PutError 400 "Must punch in first")
            else
              match processPunch db now attendance_id
                      (stamped_columns punch_type) failure with
              | (db', Threw message) => (db', PutError 500 message)
              | (db', Returned updated) => (db', PutUpdated updated)
              end
        end
  end.

(** The columns of a row that [validatePunchAttempt] reads. *)
Definition attendance_of_row (a : AttendanceRow) : Attendance :=
  {| attendance_id := a_attendance_id a;
     att_date := Some (a_date a);
     punch_in_time := a_punch_in_time a;
     punch_out_time := a_punch_out_time a;
     emp_id := a_emp_id a;
     ward_id := a_ward_id a |}.

(* ===================================================================== *)
(** ** What of a query reaches the text of a report filter *)
(* ===================================================================== *)

Section FilterValues.

Context {Num : Type} (parseFinite : string -> option Num).

(** Two query strings ask for the same filters: every name is empty or
    missing in both or in neither, blank in both or in neither, a number in
    both or in neither, and the same flag in both.  The values may
    differ. *)
Definition same_filters_given (query query' : gmap string string) : Prop :=
  forall name : string,
    String.eqb (or_empty (query !! name)) ""
    = String.eqb (or_empty (query' !! name)) ""
    /\ String.eqb (trim (or_empty (query !! name))) ""
       = String.eqb (trim (or_empty (query' !! name))) ""
    /\ (is_Some (parseIntegerParam parseFinite (query !! name))
        <-> is_Some (parseIntegerParam parseFinite (query' !! name)))
    /\ parseBooleanFlag (query !! name) = parseBooleanFlag (query' !! name).

End FilterValues.

(** A reading of numbers that knows the texts of 7 and 8. *)
Definition example_parseFinite_7_8 (value : string) : option Z :=
  if String.eqb value "7" then Some 7
  else if String.eqb value "8" then Some 8
  else None.

(* ===================================================================== *)
(** ** The employee of a matched face *)
(* ===================================================================== *)

(** The employee table as the face lookup reads it; ids are integers. *)
Record FaceEmployee := mkFaceEmployee {
  fe_emp_id : Z;
  fe_name : string;
  fe_face_id : option string
}.

(** [SELECT emp_id, name]. *)
Definition employee_record (e : FaceEmployee) : Z * string :=
  (fe_emp_id e, fe_name e).

(** [face_id = $1], which no null [face_id] satisfies. *)
Definition has_face_id (faceId : string) (e : FaceEmployee) : bool :=
  match fe_face_id e with
  | Some linked => String.eqb linked faceId
  | None => false
  end.

(** [tryResolveByEmpId]. *)
Definition tryResolveByEmpId (employees : list FaceEmployee)
    (empId : option Z) : option (Z * string) :=
  match empId with
  | None => None
  | Some empId =>
      head (map employee_record
              (List.filter (fun e => fe_emp_id e =? empId) employees))
  end.

(** [UPDATE employee SET face_id = $1 WHERE emp_id = $2 AND (face_id IS
    NULL OR face_id <> $1)]. *)
Definition link_face (faceId : string) (empId : Z) (e : FaceEmployee)
    : FaceEmployee :=
  if (fe_emp_id e =? empId) && negb (has_face_id faceId e)
  then mkFaceEmployee (fe_emp_id e) (fe_name e) (Some faceId)
  else e.

(** [resolveEmployeeFromFaceIdentifiers({ faceId, matchedExternalId,
    requestedEmpId })]; a missing and an empty [faceId] are falsy.  The
    UPDATE is taken to go through (its error is logged and dropped). *)
Definition resolveEmployeeFromFaceIdentifiers (employees : list FaceEmployee)
    (faceId : option string) (matchedExternalId requestedEmpId : option Z)
    : list FaceEmployee * option (Z * string) :=
  let faceId :=
    match faceId with
    | Some f => if String.eqb f "" then None else Some f
    | None => None
    end in
  match (match faceId with
         | Some f => head (List.filter (has_face_id f) employees)
         | None => None
         end) with
  | Some row => (employees, Some (employee_record row))
  | None =>
      let employeeRecord := tryResolveByEmpId employees matchedExternalId in
      let employeeRecord :=
        match employeeRecord with
        | Some r => Some r
        | None => tryResolveByEmpId employees requestedEmpId
        end in
      match employeeRecord, faceId with
      | Some r, Some f => (map (link_face f (fst r)) employees, employeeRecord)
      | _, _ => (employees, employeeRecord)
      end
  end.

(* ===================================================================== *)
(** ** The attendance date of a request *)
(* ===================================================================== *)

Definition is_digit (c : ascii) : bool :=
  let n := nat_of_ascii c in
  ((48 <=? n)%nat && (n <=? 57)%nat)%bool.

(** The pieces of [ISO_DATE_PATTERN]: a run of exactly [n] digits and a
    dash, each giving the text that is left. *)
Fixpoint digits (n : nat) (s : string) : option string :=
  match n with
  | O => Some s
  | S n' =>
      match s with
      | String c r => if is_digit c then digits n' r else None
      | EmptyString => None
      end
  end.

Definition dash (s : string) : option string :=
  match s with
  | String c r => if Ascii.eqb c "-" then Some r else None
  | EmptyString => None
  end.

(** [ISO_DATE_PATTERN.test(s)]: four digits, a dash, two digits, a dash,
    two digits, and nothing before or after. *)
Definition then_match (m : option string) (f : string -> option string)
    : option string :=
  match m with
  | Some rest => f rest
  | None => None
  end.

Definition ISO_DATE_PATTERN (s : string) : bool :=
  match then_match (then_match (then_match (then_match (digits 4 s) dash)
                                  (digits 2)) dash) (digits 2) with
  | Some EmptyString => true
  | _ => false
  end.

Definition DATE_INPUT_KEYS : list string :=
  ["date"; "attendance_date"; "punch_date"].

Definition TIMESTAMP_INPUT_KEYS : list string :=
  ["timestamp"; "client_timestamp"; "clientTime"; "captured_at"].

(** A value of a request body or query, as [normalizeDateInput] tells
    them apart: missing or null, text, a [Date] (invalid when [None]), a
    number, or anything else. *)
Inductive DateInput :=
| InputMissing
| InputText (text : string)
| InputDate (time : option Z)
| InputNumber (n : JsNumber)
| InputOther.

(** [new Date(n)] for a finite number: the time value is [n] without its
    fraction, and the date is invalid beyond 8.64e15 milliseconds. *)
Definition Date_of_number (q : Q) : option Z :=
  if Qle_bool (-8640000000000000) q && Qle_bool q 8640000000000000
  then Some (if Qle_bool 0 q then Qfloor q else Qceiling q)
  else None.

Section AttendanceDate.

(** The time zone, the rollover hour of the environment and the clock of
    [formatDate]; [Date_parse] is the time value of [new Date(text)], [None]
    when the date is invalid, and [toNumber] is [Number(text)]. *)
Variables (tzOffset : Z -> Z) (env : JsNumber) (clock : Z).
Variables (Date_parse : string -> option Z) (toNumber : string -> JsNumber).

Definition normalizeDateInput (value : DateInput) : option string :=
  match value with
  | InputMissing => None
  | InputText value =>
      let trimmed := trim value in
      if String.eqb trimmed "" then None
      else if ISO_DATE_PATTERN trimmed then Some trimmed
      else
        match Date_parse trimmed with
        | Some parsed => Some (formatDate tzOffset env clock (Some parsed) None)
        | None =>
            match toNumber trimmed with
            | Finite numeric =>
                Some (formatDate tzOffset env clock (Date_of_number numeric) None)
            | _ => None
            end
        end
  | InputDate (Some time) => Some (formatDate tzOffset env clock (Some time) None)
  | InputDate None => None
  | InputNumber (Finite value) =>
      Some (formatDate tzOffset env clock (Date_of_number value) None)
  | InputNumber _ => None
  | InputOther => None
  end.

(** The inner loop of [resolveAttendanceDate]: the first key of a source
    with a truthy normalised value. *)
Fixpoint first_date_of (source : gmap string DateInput) (keys : list string)
    : option string :=
  match keys with
  | [] => None
  | key :: keys' =>
      match normalizeDateInput (default InputMissing (source !! key)) with
      | Some normalized =>
          if String.eqb normalized "" then first_date_of source keys'
          else Some normalized
      | None => first_date_of source keys'
      end
  end.

(** The outer loop; a source that is not an object is [None]. *)
Fixpoint first_date_in (sources : list (option (gmap string DateInput)))
    (keys : list string) : option string :=
  match sources with
  | [] => None
  | None :: sources' => first_date_in sources' keys
  | Some source :: sources' =>
      match first_date_of source keys with
      | Some normalized => Some normalized
      | None => first_date_in sources' keys
      end
  end.

Definition resolveAttendanceDate
    (sources : list (option (gmap string DateInput))) : string :=
  match first_date_in sources DATE_INPUT_KEYS with
  | Some normalized => normalized
  | None =>
      match first_date_in sources TIMESTAMP_INPUT_KEYS with
      | Some normalized => normalized
      | None => formatDate tzOffset env clock None None
      end
  end.

End AttendanceDate.

(* ===================================================================== *)
(** ** Path segments of the attendance image key *)
(* ===================================================================== *)

(** [[a-z0-9]]. *)
Definition is_slug_char (c : ascii) : bool :=
  let n := nat_of_ascii c in
  ((97 <=? n)%nat && (n <=? 122)%nat) || ((48 <=? n)%nat && (n <=? 57)%nat).

Definition hyphen : ascii := "-"%char.

(** [.replace(/[^a-z0-9]+/g, "-")]: every maximal run of other characters
    becomes one hyphen; [in_run] tells that the run has begun. *)
Fixpoint replace_runs (in_run : bool) (s : string) : string :=
  match s with
  | EmptyString => EmptyString
  | String c r =>
      if is_slug_char c then String c (replace_runs false r)
      else if in_run then replace_runs true r
      else String hyphen (replace_runs true r)
  end.

(** [.replace(/^-|-$/g, "")]: a hyphen at the start goes, and a hyphen at
    the end. *)
Definition drop_leading_hyphen (s : string) : string :=
  match s with
  | String c r => if Ascii.eqb c hyphen then r else s
  | EmptyString => EmptyString
  end.

Fixpoint drop_trailing_hyphen (s : string) : string :=
  match s with
  | EmptyString => EmptyString
  | String c EmptyString => if Ascii.eqb c hyphen then EmptyString else s
  | String c r => String c (drop_trailing_hyphen r)
  end.

(** [slugify(value, fallback)] on ASCII text, which the NFKD form and the
    removal of combining marks leave as it is. *)
Definition slugify (value : option string) (fallback : string) : string :=
  match value with
  | None => fallback
  | Some value =>
      let normalized := toLowerCase (trim value) in
      if String.eqb normalized "" then fallback
      else
        let slug := drop_trailing_hyphen
                      (drop_leading_hyphen (replace_runs false normalized)) in
        if String.eqb slug "" then fallback else slug
  end.

(** Every character of a text passes a test. *)
Fixpoint all_chars (test : ascii -> bool) (s : string) : bool :=
  match s with
  | EmptyString => true
  | String c r => test c && all_chars test r
  end.

Definition first_char (s : string) : option ascii :=
  match s with
  | String c _ => Some c
  | EmptyString => None
  end.

Fixpoint last_char (s : string) : option ascii :=
  match s with
  | EmptyString => None
  | String c EmptyString => Some c
  | String _ r => last_char r
  end.

(** No two hyphens in a row. *)
Fixpoint single_hyphens (s : string) : bool :=
  match s with
  | String c r =>
      negb (Ascii.eqb c hyphen
            && match first_char r with
               | Some c' => Ascii.eqb c' hyphen
               | None => false
               end)
      && single_hyphens r
  | EmptyString => true
  end.

(** A slug: letters [a-z] and digits, in groups joined by single hyphens. *)
Definition is_slug (s : string) : Prop :=
  all_chars (fun c => is_slug_char c || Ascii.eqb c hyphen) s = true
  /\ single_hyphens s = true
  /\ (exists c, first_char s = Some c /\ is_slug_char c = true)
  /\ (exists c, last_char s = Some c /\ is_slug_char c = true).

(** The validation as the specification words it: a 400 with its message
    exactly for the ineligible transitions of the table, and no error for
    every other transition. *)
Definition validation_as_specified (attendance : option Attendance)
    (p : PunchType) : Prop :=
  (forall msg,
      validatePunchAttempt attendance p = Some {| status := 400; error := msg |}
      <-> ineligible attendance p msg)
  /\ (validatePunchAttempt attendance p = None
      <-> forall msg, ~ ineligible attendance p msg).

(** A record with a punch-out and no punch-in: [PUT /] writes such a row
    when it is sent a punch type other than "in" for a row without
    punch-in. *)
Definition out_only_record : Attendance :=
  mkAttendance 7 (Some 19500) None (Some 200) 3 (Some 1).

(** An open record as the specification words it: a row of the attendance
    table for the employee, dated the target day or the day before,
    punched in and not punched out.  ([open_record] above is what the
    resolver's query sees: such a row in the inner join with the employee,
    the designation and the ward.) *)
Definition open_row (db : Db) (empId date : Z) (a : AttendanceRow) : Prop :=
  In a (tbl_attendance db) /\
  a_emp_id a = empId /\
  date - 1 <= a_date a <= date /\
  is_Some (a_punch_in_time a) /\
  a_punch_out_time a = None.

(** The carry-forward as the specification words it, for the resolver as
    the punch flows call it: when the employee has no row of the target
    date with a punch-in, a punch OUT is resolved to the most recent open
    row of the employee if there is one, and is otherwise answered 400
    "Must punch in first". *)
Definition carry_forward_as_specified (db : Db) (today emp : Z)
    (date : option Z) : Prop :=
  let target := match date with Some d => d | None => today end in
  let resolved :=
    getOrCreateAttendanceRecord db today emp date (Some OUT) false in
  (forall a, In a (tbl_attendance db) -> a_emp_id a = emp ->
             a_date a = target -> a_punch_in_time a = None) ->
  ((exists a, open_row db emp target a) ->
   exists a, open_row db emp target a
     /\ (forall a', open_row db emp target a' -> ordered_before a' a = false)
     /\ exists res, resolved = (db, Returned (Some res))
                    /\ attendance_id res = a_attendance_id a)
  /\ ((forall a, ~ open_row db emp target a) ->
      exists db' res, resolved = (db', Returned res)
        /\ validatePunchAttempt res OUT
           = Some {| status := 400; error := "Must punch in first" |}).

(** An employee without designation, with an open row of day 19522: the
    employee routes store such an employee, and the inner join of the
    resolver has no row for them. *)
Definition unjoined_open_db : Db :=
  {| tbl_attendance := [mkAttendanceRow 11 3 19522 (Some 1) (Some 1000) None];
     tbl_employee := [mkEmployeeRow 3 None (Some 1)];
     tbl_designation := [1];
     tbl_wards := [1];
     attendance_seq := 11 |}.

(** An employee whose row of day 19523 has a punch-out and no punch-in. *)
Definition out_only_db : Db :=
  {| tbl_attendance := [mkAttendanceRow 12 3 19523 (Some 1) None (Some 2000)];
     tbl_employee := [mkEmployeeRow 3 (Some 1) (Some 1)];
     tbl_designation := [1];
     tbl_wards := [1];
     attendance_seq := 12 |}.

(* ===================================================================== *)
(** ** Theorems *)
(* ===================================================================== *)

Ltac break_hyps :=
  repeat match goal with
         | H : _ /\ _ |- _ => destruct H
         | H : _ \/ _ |- _ => destruct H
         | H : exists _, _ |- _ => destruct H
         | H : is_Some None |- _ => destruct H; discriminate
         | H : Some _ = Some _ |- _ => injection H as H; subst
         | H : Some _ = None |- _ => discriminate H
         | H : None = Some _ |- _ => discriminate H
         end.

(** *** Punch validation *)

(** C4.  What [validatePunchAttempt] answers, for every record and punch
    type.  Without a record, punch OUT is answered 400 "Must punch in
    first" and punch IN 404 "Attendance record not found".  With a record,
    punch IN is answered 400 "Already punched in today" exactly when the
    punch-in time is set; punch OUT is answered 400 "Already punched out
    today" exactly when the punch-out time is set, whether or not the
    punch-in time is, and 400 "Must punch in first" exactly when both times
    are null.  No error is returned exactly for punch IN on a record
    without punch-in and for punch OUT on a record with a punch-in and
    without punch-out. *)
Theorem validatePunchAttempt_rejects_ineligible
    (attendance : option Attendance) (p : PunchType) :
  let answer := validatePunchAttempt attendance p in
  (attendance = None ->
   answer = Some (match p with
                  | IN => {| status := 404; error := "Attendance record not found" |}
                  | OUT => {| status := 400; error := "Must punch in first" |}
                  end))
  /\ (forall a, attendance = Some a ->
      (answer = Some {| status := 400; error := "Already punched in today" |}
       <-> p = IN /\ is_Some (punch_in_time a))
      /\ (answer = Some {| status := 400; error := "Already punched out today" |}
          <-> p = OUT /\ is_Some (punch_out_time a))
      /\ (answer = Some {| status := 400; error := "Must punch in first" |}
          <-> p = OUT /\ punch_in_time a = None /\ punch_out_time a = None)
      /\ (answer = None
          <-> (p = IN /\ punch_in_time a = None)
              \/ (p = OUT /\ is_Some (punch_in_time a) /\ punch_out_time a = None))
      /\ (forall e, answer = Some e ->
          status e = 400
          /\ (error e = "Already punched in today"
              \/ error e = "Already punched out today"
              \/ error e = "Must punch in first"))).
Proof.
  cbv zeta. split.
  - intros ->. destruct p; reflexivity.
  - intros a ->. destruct a as [i d pin pout e w].
    unfold validatePunchAttempt. cbn [punch_in_time punch_out_time].
    destruct p, pin as [tin|], pout as [tout|]; cbn.
    all: repeat split.
    all: try discriminate.
    all: try (eexists; reflexivity).
    all: try (intros H; break_hyps; try discriminate; auto; fail).
    all: try (intros H; injection H as <-; cbn; auto; fail).
    all: try (intros [H|H]; break_hyps; discriminate).
    all: try (left; split; reflexivity).
    all: try (right; repeat split; eexists; reflexivity).
    all: try (intros e0 H; injection H as <-; cbn; auto).
    all: match goal with
         | H : Some _ = Some _ |- _ => injection H as <-; cbn; auto
         end.
Qed.

Lemma validatePunchAttempt_rejects_ineligible_witness :
  validatePunchAttempt (Some out_only_record) OUT
  = Some {| status := 400; error := "Already punched out today" |}.
Proof.
  apply (proj2 (validatePunchAttempt_rejects_ineligible
                  (Some out_only_record) OUT) out_only_record eq_refl).
  split; [reflexivity|]. eexists. reflexivity.
Defined.

(** C4 as stated fails in two places.  Without a record, punch IN is not
    among the ineligible transitions and yet does not pass: it is answered
    404.  On a record with a punch-out and no punch-in, punch OUT is
    answered "Already punched out today", where the table has "Must punch
    in first". *)
Lemma validation_as_specified_fails :
  ~ validation_as_specified None IN
  /\ ~ validation_as_specified (Some out_only_record) OUT.
Proof.
  split.
  - intros [_ [_ H]].
    assert (Hnone : validatePunchAttempt None IN = None).
    { apply H. intros msg [(_ & _ & a & Ha & _)|[(Hp & _)|(Hp & _)]];
        discriminate. }
    discriminate Hnone.
  - intros [H _].
    assert (Hmust : validatePunchAttempt (Some out_only_record) OUT
                    = Some {| status := 400; error := "Must punch in first" |}).
    { apply H. right. right. split; [reflexivity|]. split; [reflexivity|].
      right. exists out_only_record. split; reflexivity. }
    discriminate Hmust.
Qed.

(** Without a record a punch IN is answered 404, not 400. *)
Lemma validatePunchAttempt_no_record_in :
  validatePunchAttempt None IN
  = Some {| status := 404; error := "Attendance record not found" |}.
Proof. reflexivity. Qed.

(** *** The crop box *)

(** C10.  [computeCropRegion] returns either nothing or a rectangle that
    lies inside the image: its left and top are not negative, its width and
    height are at least one pixel, and it ends within the image's width and
    height.  This holds however the products are rounded to integers. *)
Theorem computeCropRegion_inside_image
    (round : Q -> Z) (boundingBox : option BoundingBox)
    (imageWidth imageHeight : Z) (paddingRatio : Q) :
  match computeCropRegionWith round boundingBox imageWidth imageHeight
          paddingRatio with
  | None => True
  | Some r => region_inside r imageWidth imageHeight
  end.
Proof.
  unfold computeCropRegionWith, region_inside.
  destruct boundingBox as [bb|]; [|exact I].
  destruct ((imageWidth <=? 0) || (imageHeight <=? 0)) eqn:Hdim; [exact I|].
  match goal with
  | |- context [if ?c then None else _] => destruct c eqn:Hsz; [exact I|]
  end.
  apply orb_false_iff in Hsz. destruct Hsz as [Hw Hh].
  apply Z.leb_gt in Hw, Hh. simpl. lia.
Qed.

Lemma computeCropRegion_inside_image_witness :
  region_inside (Crop.mkRegion 50 20 300 360) 1000 800.
Proof.
  exact (computeCropRegion_inside_image Math_round
           (Some (mkBoundingBox (1 # 5) (3 # 10) (1 # 10) (1 # 10)))
           1000 800 defaultPaddingRatio).
Defined.

(** *** The requested punch type *)

Lemma JsString_is_white_space_true (unit : Z) :
  JsString.is_white_space unit = true <-> unit ∈ JsString.WhiteSpace.
Proof. unfold JsString.is_white_space. apply bool_decide_eq_true. Qed.

Lemma JsString_is_white_space_false (unit : Z) :
  JsString.is_white_space unit = false <-> unit ∉ JsString.WhiteSpace.
Proof. unfold JsString.is_white_space. apply bool_decide_eq_false. Qed.

Lemma JsString_trimStart_white (before rest : list Z) :
  Forall (fun unit => unit ∈ JsString.WhiteSpace) before ->
  JsString.trimStart (before ++ rest) = JsString.trimStart rest.
Proof.
  induction 1 as [|unit before Hunit _ IH]; [reflexivity|].
  cbn [app JsString.trimStart].
  rewrite (proj2 (JsString_is_white_space_true unit) Hunit). exact IH.
Qed.

Lemma JsString_trimStart_kept (s : list Z) :
  (forall unit, head s = Some unit -> unit ∉ JsString.WhiteSpace) ->
  JsString.trimStart s = s.
Proof.
  destruct s as [|unit rest]; [reflexivity|]. intros Hhead.
  cbn [JsString.trimStart].
  rewrite (proj2 (JsString_is_white_space_false unit) (Hhead unit eq_refl)).
  reflexivity.
Qed.

Lemma JsString_trimStart_split (s : list Z) :
  exists before,
    s = (before ++ JsString.trimStart s)%list
    /\ Forall (fun unit => unit ∈ JsString.WhiteSpace) before
    /\ (forall unit, head (JsString.trimStart s) = Some unit ->
                     unit ∉ JsString.WhiteSpace).
Proof.
  induction s as [|unit rest IH].
  - exists []. split; [reflexivity|]. split; [constructor|]. discriminate.
  - cbn [JsString.trimStart].
    destruct (JsString.is_white_space unit) eqn:Hunit.
    + destruct IH as (before & Heq & Hwhite & Hhead).
      exists (unit :: before). split; [cbn [app]; f_equal; exact Heq|].
      split; [|exact Hhead].
      constructor; [apply JsString_is_white_space_true, Hunit|exact Hwhite].
    + exists []. split; [reflexivity|]. split; [constructor|].
      intros unit' H. injection H as <-.
      apply JsString_is_white_space_false, Hunit.
Qed.

Lemma JsString_trimEnd_split (s : list Z) :
  exists after,
    s = (JsString.trimEnd s ++ after)%list
    /\ Forall (fun unit => unit ∈ JsString.WhiteSpace) after
    /\ (forall unit, last (JsString.trimEnd s) = Some unit ->
                     unit ∉ JsString.WhiteSpace).
Proof.
  unfold JsString.trimEnd.
  destruct (JsString_trimStart_split (reverse s)) as (before & Heq & Hwhite & Hhead).
  exists (reverse before). split; [|split].
  - rewrite <- reverse_app, <- Heq, reverse_involutive. reflexivity.
  - apply Forall_reverse. exact Hwhite.
  - intros unit. rewrite last_reverse. apply Hhead.
Qed.

(** [trim] gives the text without the white space at its two ends, and
    nothing else does. *)
Lemma JsString_trim_trimmed (text : list Z) :
  JsString.trimmed text (JsString.trim text).
Proof.
  unfold JsString.trim.
  destruct (JsString_trimStart_split text) as (before & Heq & Hbefore & Hhead).
  destruct (JsString_trimEnd_split (JsString.trimStart text))
    as (after & Heq' & Hafter & Hlast).
  exists before, after.
  split; [rewrite <- Heq'; exact Heq|].
  split; [exact Hbefore|]. split; [exact Hafter|]. split; [|exact Hlast].
  intros unit Hunit. apply Hhead.
  rewrite Heq'. destruct (JsString.trimEnd (JsString.trimStart text));
    [discriminate Hunit|exact Hunit].
Qed.

Lemma JsString_trimmed_trim (text core : list Z) :
  JsString.trimmed text core -> core = JsString.trim text.
Proof.
  intros (before & after & -> & Hbefore & Hafter & Hhead & Hlast).
  unfold JsString.trim. rewrite (JsString_trimStart_white before _ Hbefore).
  destruct core as [|unit core].
  - cbn [app].
    assert (Hnil : JsString.trimStart after = []).
    { rewrite <- (app_nil_r after).
      rewrite (JsString_trimStart_white after [] Hafter). reflexivity. }
    rewrite Hnil. reflexivity.
  - rewrite (JsString_trimStart_kept ((unit :: core) ++ after)).
    + unfold JsString.trimEnd. rewrite reverse_app.
      rewrite (JsString_trimStart_white (reverse after));
        [|apply Forall_reverse; exact Hafter].
      rewrite JsString_trimStart_kept; [rewrite reverse_involutive; reflexivity|].
      intros unit'. rewrite head_reverse. apply Hlast.
    + intros unit' H. apply Hhead. exact H.
Qed.

Lemma JsString_spells_out_not_white (core : list Z) :
  JsString.spells_out core ->
  (forall unit, head core = Some unit -> unit ∉ JsString.WhiteSpace)
  /\ (forall unit, last core = Some unit -> unit ∉ JsString.WhiteSpace).
Proof.
  intros (o & u & t & -> & Ho & Hu & Ht). split.
  - intros unit H. injection H as <-.
    apply JsString_is_white_space_false. destruct Ho as [->| ->]; reflexivity.
  - intros unit H. injection H as <-.
    apply JsString_is_white_space_false. destruct Ht as [->| ->]; reflexivity.
Qed.

Lemma JsString_ascii_upper_OUT (s : list Z) :
  JsString.ascii_upper s = JsString.OUT_text <-> JsString.spells_out s.
Proof.
  unfold JsString.ascii_upper, JsString.OUT_text, JsString.spells_out. split.
  - destruct s as [|o [|u [|t [|x r]]]]; cbn [map]; intros H; try discriminate H.
    injection H as Ho Hu Ht. exists o, u, t. split; [reflexivity|].
    repeat split.
    + destruct ((97 <=? o) && (o <=? 122)) eqn:E; [left|right]; lia.
    + destruct ((97 <=? u) && (u <=? 122)) eqn:E; [left|right]; lia.
    + destruct ((97 <=? t) && (t <=? 122)) eqn:E; [left|right]; lia.
  - intros (o & u & t & -> & Ho & Hu & Ht).
    destruct Ho as [->| ->], Hu as [->| ->], Ht as [->| ->]; reflexivity.
Qed.

(** C9.  The face-attendance handler punches OUT exactly when the text of
    [punch_type], without the white space at its two ends, upper-cases to
    "OUT"; every other value is a punch IN, a missing or an empty one
    too.  The white space is that of [String.prototype.trim]: a no-break
    space or a byte-order mark around the word is stripped as well.
    Where upper-casing gives "OUT" for the three letters o, u, t in either
    case and for nothing else, the punch is OUT exactly for those letters
    between white space. *)
Theorem resolvePunchType_out_only_for_OUT
    (toUpperCase : list Z -> list Z) (rawPunchType : option (list Z)) :
  let text := match rawPunchType with Some text => text | None => [] end in
  let punchType := resolvePunchType toUpperCase rawPunchType in
  (exists core, JsString.trimmed text core)
  /\ (forall core, JsString.trimmed text core ->
      (punchType = OUT <-> toUpperCase core = [79; 85; 84])
      /\ (punchType = IN <-> toUpperCase core <> [79; 85; 84]))
  /\ ((forall s, toUpperCase s = [79; 85; 84] <-> JsString.spells_out s) ->
      (punchType = OUT
       <-> exists before o u t after,
             text = (before ++ [o; u; t] ++ after)%list
             /\ Forall (fun unit => unit ∈ JsString.WhiteSpace) before
             /\ Forall (fun unit => unit ∈ JsString.WhiteSpace) after
             /\ (o = 111 \/ o = 79) /\ (u = 117 \/ u = 85)
             /\ (t = 116 \/ t = 84))
      /\ resolvePunchType toUpperCase None = IN
      /\ resolvePunchType toUpperCase (Some []) = IN).
Proof.
  intros text punchType.
  assert (Hout : punchType = OUT
                 <-> toUpperCase (JsString.trim text) = [79; 85; 84]).
  { unfold punchType, resolvePunchType, normalizedPunchType, JsString.OUT_text.
    replace (default [] rawPunchType) with text by (destruct rawPunchType; reflexivity).
    case_bool_decide as E; split; intros H;
      try assumption; try reflexivity; try discriminate H; contradiction. }
  assert (Hin : punchType = IN
                <-> toUpperCase (JsString.trim text) <> [79; 85; 84]).
  { rewrite <- Hout. destruct punchType; split; intros H;
      try reflexivity; try discriminate; congruence. }
  split; [exists (JsString.trim text); apply JsString_trim_trimmed|].
  split.
  { intros core Hcore. apply JsString_trimmed_trim in Hcore. subst core.
    split; [exact Hout|exact Hin]. }
  intros Hupper.
  assert (Hempty : forall raw, default [] raw = [] ->
                     resolvePunchType toUpperCase raw = IN).
  { intros raw Hraw. unfold resolvePunchType, normalizedPunchType.
    rewrite Hraw. case_bool_decide as E; [|reflexivity].
    apply Hupper in E. destruct E as (o & u & t & E & _). discriminate E. }
  split; [|split; [apply Hempty; reflexivity|apply Hempty; reflexivity]].
  rewrite Hout, Hupper. split.
  - intros Hspell.
    destruct (JsString_trim_trimmed text)
      as (before & after & Heq & Hbefore & Hafter & _).
    destruct Hspell as (o & u & t & Hcore & Ho & Hu & Ht).
    exists before, o, u, t, after. rewrite <- Hcore. auto 10.
  - intros (before & o & u & t & after & Heq & Hbefore & Hafter & Ho & Hu & Ht).
    assert (Hspell : JsString.spells_out [o; u; t]).
    { exists o, u, t. auto. }
    destruct (JsString_spells_out_not_white _ Hspell) as [Hhead Hlast].
    rewrite <- (JsString_trimmed_trim text [o; u; t]); [exact Hspell|].
    exists before, after. auto 10.
Qed.

Lemma resolvePunchType_out_only_for_OUT_witness :
  resolvePunchType JsString.ascii_upper (Some [160; 111; 85; 116; 65279]) = OUT.
Proof.
  apply (proj1 (proj2 (proj2 (resolvePunchType_out_only_for_OUT
                                JsString.ascii_upper
                                (Some [160; 111; 85; 116; 65279])))
                 JsString_ascii_upper_OUT)).
  exists [160], 111, 85, 116, [65279].
  split; [reflexivity|].
  split; [constructor; [vm_compute; set_solver|constructor]|].
  split; [constructor; [vm_compute; set_solver|constructor]|].
  auto.
Defined.

Example resolvePunchType_examples :
  (* "  out " *)
  resolvePunchType JsString.ascii_upper (Some [32; 32; 111; 117; 116; 32]) = OUT /\
  (* "Out" *)
  resolvePunchType JsString.ascii_upper (Some [79; 117; 116]) = OUT /\
  (* a no-break space, then "OUT" *)
  resolvePunchType JsString.ascii_upper (Some [160; 79; 85; 84]) = OUT /\
  (* "OUTPUT" *)
  resolvePunchType JsString.ascii_upper (Some [79; 85; 84; 80; 85; 84]) = IN /\
  (* "O U T" *)
  resolvePunchType JsString.ascii_upper (Some [79; 32; 85; 32; 84]) = IN /\
  (* "in" *)
  resolvePunchType JsString.ascii_upper (Some [105; 110]) = IN /\
  resolvePunchType JsString.ascii_upper None = IN.
Proof. repeat split; reflexivity. Qed.

(** *** The calendar *)

Example civil_from_days_examples :
  civil_from_days 0 = (1970, 1, 1) /\
  civil_from_days 19522 = (2023, 6, 14) /\
  civil_from_days 19782 = (2024, 2, 29) /\
  civil_from_days (-1) = (1969, 12, 31) /\
  days_from_civil 2024 3 0 = 19782 /\
  days_from_civil 2023 6 14 = 19522.
Proof. repeat split; reflexivity. Qed.

Example formatDate_examples :
  (* 2023-06-15 03:45 in Asia/Kolkata *)
  formatDate tz_Asia_Kolkata (Finite 4) 0 (Some 1686780900000) None = "2023-06-14" /\
  (* 2023-06-15 04:00:00 *)
  formatDate tz_Asia_Kolkata (Finite 4) 0 (Some 1686781800000) None = "2023-06-15" /\
  (* 2023-06-15 03:59:59 *)
  formatDate tz_Asia_Kolkata (Finite 4) 0 (Some 1686781799000) None = "2023-06-14" /\
  (* 2024-03-01 01:00 *)
  formatDate tz_Asia_Kolkata (Finite 4) 0 (Some 1709235000000) None = "2024-02-29".
Proof. repeat split; vm_compute; reflexivity. Qed.

Lemma cycle_ok_from_spec (n : nat) (doe : Z) :
  cycle_ok_from n doe = true ->
  forall k, doe <= k < doe + Z.of_nat n -> cycle_ok k = true.
Proof.
  revert doe. induction n as [|n IH]; intros doe H k Hk.
  - lia.
  - simpl in H. apply andb_true_iff in H. destruct H as [H0 Hrest].
    destruct (Z.eq_dec k doe) as [->|Hne]; [exact H0|].
    apply (IH (doe + 1) Hrest). lia.
Qed.

Lemma cycle_ok_all : cycle_ok_from (Z.to_nat 146097) 0 = true.
Proof. vm_compute. reflexivity. Qed.

Lemma cycle_ok_in_cycle (doe : Z) : 0 <= doe < 146097 -> cycle_ok doe = true.
Proof.
  intros H. apply (cycle_ok_from_spec _ _ cycle_ok_all). lia.
Qed.

Lemma civil_from_days_shift (days k : Z) :
  civil_from_days (days + 146097 * k)
  = let '(y, m, d) := civil_from_days days in (y + 400 * k, m, d).
Proof.
  unfold civil_from_days.
  replace (days + 146097 * k + 719468) with (days + 719468 + k * 146097) by ring.
  rewrite Z.div_add, Z_mod_plus_full by lia.
  cbv zeta.
  match goal with
  | |- context [if ?c then _ else _] => destruct c
  end; f_equal; f_equal; ring.
Qed.

Lemma days_from_civil_shift (y m d k : Z) :
  days_from_civil (y + 400 * k) m d = days_from_civil y m d + 146097 * k.
Proof.
  unfold days_from_civil.
  destruct (m <=? 2).
  - replace (y + 400 * k - 1) with (y - 1 + k * 400) by ring.
    rewrite Z.div_add, Z_mod_plus_full by lia. cbv zeta. ring.
  - replace (y + 400 * k) with (y + k * 400) by ring.
    rewrite Z.div_add, Z_mod_plus_full by lia. cbv zeta. ring.
Qed.

(** A civil date leads back to the day it is the date of, and its month is
    one of the twelve. *)
Lemma days_from_civil_from_days (days y m d : Z) :
  civil_from_days days = (y, m, d) ->
  days_from_civil y m d = days /\ 1 <= m <= 12.
Proof.
  intros Hc.
  set (z := days + 719468).
  assert (Hd : days = (z mod 146097 - 719468) + 146097 * (z / 146097)).
  { pose proof (Z.div_mod z 146097). lia. }
  assert (Hr : 0 <= z mod 146097 < 146097) by (apply Z.mod_pos_bound; lia).
  pose proof (cycle_ok_in_cycle _ Hr) as Hok.
  rewrite Hd, civil_from_days_shift in Hc.
  unfold cycle_ok in Hok.
  destruct (civil_from_days (z mod 146097 - 719468)) as [[y0 m0] d0].
  injection Hc as <- <- <-.
  repeat (apply andb_true_iff in Hok; destruct Hok as [Hok ?]).
  rewrite days_from_civil_shift. lia.
Qed.

(** From 1970 on the year has four digits at least. *)
Lemma civil_year_lower_bound (days y m d : Z) :
  0 <= days -> civil_from_days days = (y, m, d) -> 1600 <= y.
Proof.
  intros Hpos Hc.
  set (z := days + 719468).
  assert (Hd : days = (z mod 146097 - 719468) + 146097 * (z / 146097)).
  { pose proof (Z.div_mod z 146097). lia. }
  assert (Hr : 0 <= z mod 146097 < 146097) by (apply Z.mod_pos_bound; lia).
  assert (Hera : 4 <= z / 146097).
  { apply Z.div_le_lower_bound; lia. }
  pose proof (cycle_ok_in_cycle _ Hr) as Hok.
  rewrite Hd, civil_from_days_shift in Hc.
  unfold cycle_ok in Hok.
  destruct (civil_from_days (z mod 146097 - 719468)) as [[y0 m0] d0].
  injection Hc as <- <- <-.
  repeat (apply andb_true_iff in Hok; destruct Hok as [Hok ?]).
  destruct (m0 <=? 2); lia.
Qed.

Lemma days_from_civil_day_before (y m d : Z) :
  days_from_civil y m (d - 1) = days_from_civil y m d - 1.
Proof. unfold days_from_civil. cbv zeta. ring. Qed.

Lemma NIGHT_SHIFT_ROLLOVER_HOUR_range (env : JsNumber) :
  Qle_bool 0 (NIGHT_SHIFT_ROLLOVER_HOUR env)
  && Qle_bool (NIGHT_SHIFT_ROLLOVER_HOUR env) 23 = true.
Proof.
  unfold NIGHT_SHIFT_ROLLOVER_HOUR.
  destruct (parsedRolloverHour env) as [| |q]; try reflexivity.
  destruct (Qle_bool 0 q && Qle_bool q 23) eqn:E; [exact E|reflexivity].
Qed.

(** The step [formatDate] takes through the UTC calendar lands on the day
    before. *)
Lemma utc_day_before (days y m d : Z) :
  0 <= days -> civil_from_days days = (y, m, d) ->
  let utcDate := Date_UTC y (m - 1) d in
  let utcDate := setUTCDate utcDate (getUTCDate utcDate - 1) in
  (getUTCFullYear utcDate, getUTCMonth utcDate + 1, getUTCDate utcDate)
  = civil_from_days (days - 1).
Proof.
  intros Hpos Hc. cbv zeta.
  pose proof (civil_year_lower_bound _ _ _ _ Hpos Hc) as Hy.
  destruct (days_from_civil_from_days _ _ _ _ Hc) as [Hback Hm].
  assert (Hutc : Date_UTC y (m - 1) d = days * msPerDay).
  { unfold Date_UTC.
    replace ((0 <=? y) && (y <=? 99)) with false
      by (symmetry; apply andb_false_iff; right; apply Z.leb_gt; lia).
    replace (m - 1 + 1) with m by ring. rewrite Hback. reflexivity. }
  rewrite Hutc.
  assert (Hdiv : forall n, n * msPerDay / msPerDay = n)
    by (intros n; apply Z.div_mul; unfold msPerDay; lia).
  assert (Hset : setUTCDate (days * msPerDay) (getUTCDate (days * msPerDay) - 1)
                 = (days - 1) * msPerDay).
  { unfold setUTCDate, getUTCDate, getUTCFullYear, getUTCMonth.
    rewrite Hdiv, Hc. simpl fst; simpl snd.
    replace (m - 1 + 1) with m by ring.
    rewrite days_from_civil_day_before, Hback.
    rewrite Z.mod_mul by (unfold msPerDay; lia). ring. }
  rewrite Hset.
  unfold getUTCDate, getUTCFullYear, getUTCMonth. rewrite Hdiv.
  destruct (civil_from_days (days - 1)) as [[y' m'] d']. simpl.
  replace (m' - 1 + 1) with m' by ring. reflexivity.
Qed.

(** The rollover for the hour in force, [NIGHT_SHIFT_ROLLOVER_HOUR].  From
    1970 on, [formatDate] renders the civil date of the local day of the
    instant, or of the day before it exactly when the local hour is
    strictly below the hour in force; that hour lies between 0 and 23 and
    is 4 by default.  Hence with a whole hour [h] in force, the instant at
    [h]:00:00 local time falls on the new day, and the instant one second
    before on the day before. *)
Theorem formatDate_rolls_over_before_hour
    (tzOffset : Z -> Z) (env : JsNumber) (clock now : Z)
    (Hepoch : 0 <= now + tzOffset now) :
  let r := NIGHT_SHIFT_ROLLOVER_HOUR env in
  let today := local_day tzOffset now in
  ((inject_Z (local_hour tzOffset now) < r)%Q ->
     formatDate tzOffset env clock (Some now) None
     = render_date (civil_from_days (today - 1)))
  /\ (~ (inject_Z (local_hour tzOffset now) < r)%Q ->
     formatDate tzOffset env clock (Some now) None
     = render_date (civil_from_days today))
  /\ (0 <= r <= 23)%Q
  /\ (NIGHT_SHIFT_ROLLOVER_HOUR (Finite 4) == 4)%Q
  /\ (forall h : Z, (r == inject_Z h)%Q ->
        ((now + tzOffset now) mod msPerDay = h * msPerHour ->
           formatDate tzOffset env clock (Some now) None
           = render_date (civil_from_days today))
        /\ ((now + tzOffset now) mod msPerDay = h * msPerHour - 1000 ->
           formatDate tzOffset env clock (Some now) None
           = render_date (civil_from_days (today - 1)))).
Proof.
  intros r today.
  pose proof (NIGHT_SHIFT_ROLLOVER_HOUR_range env) as Hrange.
  fold r in Hrange.
  assert (Htoday : 0 <= today).
  { unfold today, local_day. apply Z.div_pos; [exact Hepoch|unfold msPerDay; lia]. }
  assert (Hlt : (inject_Z (local_hour tzOffset now) < r)%Q ->
     formatDate tzOffset env clock (Some now) None
     = render_date (civil_from_days (today - 1))).
  { intros Hh. unfold formatDate, getAttendanceDateParts.
    fold r. fold today.
    destruct (civil_from_days today) as [[y m] d] eqn:Hc.
    cbn [year month day hour]. unfold rollover_applies.
    rewrite Hrange.
    replace (Qle_bool r (inject_Z (local_hour tzOffset now))) with false.
    2:{ symmetry. apply not_true_is_false. rewrite Qle_bool_iff.
        apply Qlt_not_le. exact Hh. }
    cbn [negb andb].
    pose proof (utc_day_before today y m d Htoday Hc) as Hstep.
    cbv zeta in Hstep. rewrite Hstep. reflexivity. }
  assert (Hge : ~ (inject_Z (local_hour tzOffset now) < r)%Q ->
     formatDate tzOffset env clock (Some now) None
     = render_date (civil_from_days today)).
  { intros Hh. unfold formatDate, getAttendanceDateParts.
    fold r. fold today.
    destruct (civil_from_days today) as [[y m] d] eqn:Hc.
    cbn [year month day hour]. unfold rollover_applies.
    rewrite Hrange.
    replace (Qle_bool r (inject_Z (local_hour tzOffset now))) with true.
    2:{ symmetry. rewrite Qle_bool_iff. apply Qnot_lt_le. exact Hh. }
    reflexivity. }
  split; [exact Hlt|]. split; [exact Hge|].
  split.
  { apply andb_true_iff in Hrange. destruct Hrange as [H0 H23].
    apply Qle_bool_iff in H0. apply Qle_bool_iff in H23. split; assumption. }
  split; [reflexivity|].
  intros h Hh. split; intros Hmod.
  - apply Hge. unfold local_hour. rewrite Hmod.
    rewrite Z.div_mul by (unfold msPerHour; lia).
    rewrite Hh. apply Qlt_irrefl.
  - apply Hlt. unfold local_hour. rewrite Hmod.
    assert (Hbound : 0 <= (now + tzOffset now) mod msPerDay < msPerDay)
      by (apply Z.mod_pos_bound; unfold msPerDay; lia).
    assert (Hq : (h * msPerHour - 1000) / msPerHour = h - 1).
    { unfold msPerHour. symmetry.
      apply (Z.div_unique _ _ _ (3600000 - 1000)); lia. }
    rewrite Hq, Hh. rewrite <- Zlt_Qlt. lia.
Qed.

Lemma formatDate_rolls_over_before_hour_witness :
  formatDate tz_Asia_Kolkata (Finite 4) 0 (Some 1686780900000) None
  = render_date (civil_from_days (local_day tz_Asia_Kolkata 1686780900000 - 1)).
Proof.
  apply (formatDate_rolls_over_before_hour tz_Asia_Kolkata (Finite 4) 0
           1686780900000).
  - vm_compute. discriminate.
  - vm_compute. reflexivity.
Defined.

(** A rollover hour of 0 in the environment is read as 4: zero is falsy in
    [Number(...) || 4]. *)
Lemma NIGHT_SHIFT_ROLLOVER_HOUR_zero :
  (NIGHT_SHIFT_ROLLOVER_HOUR (Finite 0) == 4)%Q.
Proof. reflexivity. Qed.

(** A configured hour that is a number above 0 and up to 23 is the hour in
    force. *)
Lemma NIGHT_SHIFT_ROLLOVER_HOUR_configured (q : Q) :
  (0 < q)%Q -> (q <= 23)%Q ->
  (NIGHT_SHIFT_ROLLOVER_HOUR (Finite q) == q)%Q.
Proof.
  intros Hpos Hle. unfold NIGHT_SHIFT_ROLLOVER_HOUR, parsedRolloverHour, or_four.
  destruct (Qeq_bool q 0) eqn:Hz.
  - apply Qeq_bool_iff in Hz. rewrite Hz in Hpos. exfalso.
    exact (Qlt_irrefl 0 Hpos).
  - replace (Qle_bool 0 q) with true
      by (symmetry; apply Qle_bool_iff, Qlt_le_weak, Hpos).
    replace (Qle_bool q 23) with true
      by (symmetry; apply Qle_bool_iff, Hle).
    reflexivity.
Qed.

(** C3.  With the rollover hour configured as 0, no local hour is below it
    and the logical date is the local calendar date.  The module reads a
    configured 0 as 4 ([Number(...) || 4]: zero is falsy), so at 03:45 on
    2023-06-15 in Asia/Kolkata (2023-06-14T22:15:00Z) [formatDate] gives
    the day before, 2023-06-14. *)
Theorem formatDate_rollover_hour_zero :
  let now := 1686780900000 in
  local_hour tz_Asia_Kolkata now = 3
  /\ civil_from_days (local_day tz_Asia_Kolkata now) = (2023, 6, 15)
  /\ rollover_applies (Finite 0) (local_hour tz_Asia_Kolkata now) = false
  /\ (NIGHT_SHIFT_ROLLOVER_HOUR (Finite 0) == 4)%Q
  /\ formatDate tz_Asia_Kolkata (Finite 0) 0 (Some now) None = "2023-06-14"
  /\ formatDate tz_Asia_Kolkata (Finite 0) 0 (Some now) (Some (Finite 0))
     = "2023-06-15".
Proof. vm_compute. repeat split; reflexivity. Qed.

(** *** The attendance resolver *)

Lemma ordered_before_false_iff (a b : AttendanceRow) :
  ordered_before a b = false <->
  a_date a < a_date b \/
  (a_date a = a_date b /\ a_attendance_id a <= a_attendance_id b).
Proof.
  unfold ordered_before.
  destruct (Z.ltb_spec (a_date b) (a_date a));
    destruct (Z.eqb_spec (a_date a) (a_date b));
    destruct (Z.ltb_spec (a_attendance_id b) (a_attendance_id a));
    simpl; split; intros; try discriminate; try reflexivity; lia.
Qed.

Lemma first_in_order_nil rows : first_in_order rows = None -> rows = [].
Proof.
  destruct rows as [|r rest]; [reflexivity|]. simpl.
  destruct (first_in_order rest) as [best|]; [|discriminate].
  destruct (ordered_before _ _); discriminate.
Qed.

Lemma first_in_order_first rows j :
  first_in_order rows = Some j ->
  In j rows /\
  forall j', In j' rows -> ordered_before (fst (fst j')) (fst (fst j)) = false.
Proof.
  revert j. induction rows as [|r rest IH]; intros j H; [discriminate|].
  simpl in H. destruct (first_in_order rest) as [best|] eqn:Hrest.
  - destruct (IH best eq_refl) as [Hin Hmax].
    destruct (ordered_before (fst (fst best)) (fst (fst r))) eqn:Hcmp;
      injection H as <-.
    + split; [right; exact Hin|]. intros j' [<-|Hj'].
      * apply ordered_before_false_iff.
        unfold ordered_before in Hcmp.
        apply orb_true_iff in Hcmp. rewrite andb_true_iff in Hcmp.
        rewrite !Z.ltb_lt, Z.eqb_eq in Hcmp. lia.
      * apply Hmax, Hj'.
    + split; [left; reflexivity|]. intros j' [<-|Hj'].
      * apply ordered_before_false_iff. lia.
      * specialize (Hmax j' Hj').
        apply ordered_before_false_iff in Hmax, Hcmp.
        apply ordered_before_false_iff. lia.
  - injection H as <-. apply first_in_order_nil in Hrest. subst rest.
    split; [left; reflexivity|]. intros j' [<-|[]].
    apply ordered_before_false_iff. lia.
Qed.

Lemma joined_from_table db j :
  In j (joined db) -> In (fst (fst j)) (tbl_attendance db).
Proof.
  unfold joined. intros H.
  apply in_flat_map in H. destruct H as (a & Ha & H).
  apply in_flat_map in H. destruct H as (e & He & H).
  apply in_flat_map in H. destruct H as (d & Hd & H).
  apply in_map_iff in H. destruct H as (w & <- & Hw). exact Ha.
Qed.

Lemma open_in_window_iff empId date a :
  open_in_window empId date a = true <->
  a_emp_id a = empId /\ date - 1 <= a_date a <= date /\
  is_Some (a_punch_in_time a) /\ a_punch_out_time a = None.
Proof.
  unfold open_in_window.
  rewrite !andb_true_iff, negb_true_iff, Z.eqb_eq, !Z.leb_le,
    bool_decide_eq_true, bool_decide_eq_false.
  rewrite <- eq_None_not_Some. tauto.
Qed.

Lemma open_record_filter db empId date j :
  In j (List.filter (fun j => open_in_window empId date (fst (fst j))) (joined db))
  <-> open_record db empId date j.
Proof.
  unfold open_record. rewrite filter_In, open_in_window_iff. tauto.
Qed.

(** A punch OUT on the id of a row of the table stamps the punch-out time
    on a row with that id. *)
Lemma processPunch_stamps (db : Db) (now : Z) (a : AttendanceRow) :
  In a (tbl_attendance db) ->
  exists db' updated,
    processPunch db now (a_attendance_id a) OUT None = (db', Returned updated) /\
    a_attendance_id updated = a_attendance_id a /\
    a_punch_out_time updated = Some now.
Proof.
  intros Hin. unfold processPunch, update_attendance.
  destruct (List.filter (fun r => a_attendance_id r =? a_attendance_id a)
                        (tbl_attendance db)) as [|r rs] eqn:Hf.
  - exfalso.
    assert (Ha : In a (List.filter (fun r => a_attendance_id r =? a_attendance_id a)
                                   (tbl_attendance db))).
    { apply filter_In. split; [exact Hin|apply Z.eqb_refl]. }
    rewrite Hf in Ha. destruct Ha.
  - assert (Hr : In r (List.filter (fun r => a_attendance_id r =? a_attendance_id a)
                                   (tbl_attendance db)))
      by (rewrite Hf; left; reflexivity).
    apply filter_In in Hr. destruct Hr as [_ Hid]. apply Z.eqb_eq in Hid.
    eexists _, _. split; [reflexivity|]. split; [exact Hid|reflexivity].
Qed.

(** The UPDATE of a punch OUT, row by row, on the columns of
    [AttendanceRow]: the rows with the attendance id get the punch-out time
    and keep their other columns, every other row is what it was.  (The
    location, image and actor columns that the UPDATE also sets are not
    among them.) *)
Lemma update_attendance_OUT_rows (db : Db) (attendanceId now : Z) :
  Forall2 (fun before after =>
             after = if a_attendance_id before =? attendanceId
                     then mkAttendanceRow (a_attendance_id before)
                            (a_emp_id before) (a_date before)
                            (a_ward_id before) (a_punch_in_time before)
                            (Some now)
                     else before)
    (tbl_attendance db)
    (tbl_attendance (fst (update_attendance db attendanceId OUT now))).
Proof.
  unfold update_attendance. cbn [fst tbl_attendance].
  induction (tbl_attendance db) as [|a rows IH]; [constructor|].
  cbn [map]. constructor; [|exact IH].
  destruct (a_attendance_id a =? attendanceId); reflexivity.
Qed.

(** C2.  The resolver reads attendance rows through the inner join with the
    employee, the employee's designation and the employee's ward.  A punch
    OUT for an employee whose joined row of the target date is missing, or
    has no punch-in, is resolved to the most recent open record of the
    join, dated the target day or the day before (punched in, not punched
    out); that record passes validation, and the UPDATE of the punch writes
    the punch-out time on the row with its id, keeps the id, the employee,
    the date, the ward and the punch-in time of that row, and leaves every
    other row as it was.  When the join has no such record,
    the attempt is answered 400: "Already punched out today" when the row
    of the target date has a punch-out (and no punch-in), "Must punch in
    first" otherwise.  A row of the target date that has a punch-in is
    returned as it is. *)
Theorem getOrCreateAttendanceRecord_punch_out_carry_forward
    (db : Db) (today emp : Z) (date : option Z) (createIfMissing : bool)
    (Hemp : emp <> 0) :
  let target := match date with Some d => d | None => today end in
  let first :=
    fetchAttendanceRecord db
      (fun a => (a_emp_id a =? emp) && (a_date a =? target)) in
  let resolved :=
    getOrCreateAttendanceRecord db today emp date (Some OUT) createIfMissing in
  (forall a, first = Some a -> is_Some (punch_in_time a) ->
     resolved = (db, Returned (Some a)))
  /\ ((first = None \/ exists a, first = Some a /\ punch_in_time a = None) ->
      ((exists j, open_record db emp target j) ->
         exists j, most_recent_among (open_record db emp target) j /\
           resolved = (db, Returned (Some (selected j))) /\
           validatePunchAttempt (Some (selected j)) OUT = None /\
           forall now, exists db' updated,
             processPunch db now (attendance_id (selected j)) OUT None
             = (db', Returned updated) /\
             a_attendance_id updated = a_attendance_id (fst (fst j)) /\
             a_punch_out_time updated = Some now /\
             In (mkAttendanceRow (a_attendance_id (fst (fst j)))
                   (a_emp_id (fst (fst j))) (a_date (fst (fst j)))
                   (a_ward_id (fst (fst j))) (a_punch_in_time (fst (fst j)))
                   (Some now))
                (tbl_attendance db') /\
             Forall2 (fun before after =>
                        after = if a_attendance_id before
                                   =? a_attendance_id (fst (fst j))
                                then mkAttendanceRow (a_attendance_id before)
                                       (a_emp_id before) (a_date before)
                                       (a_ward_id before)
                                       (a_punch_in_time before) (Some now)
                                else before)
               (tbl_attendance db) (tbl_attendance db'))
      /\ ((forall j, ~ open_record db emp target j) ->
         exists db' res, resolved = (db', Returned res) /\
           validatePunchAttempt res OUT
           = Some {| status := 400;
                     error :=
                       match first with
                       | Some {| punch_out_time := Some _ |} =>
                           "Already punched out today"
                       | _ => "Must punch in first"
                       end |})).
Proof.
  intros target first resolved.
  assert (Hemp0 : (emp =? 0) = false) by (apply Z.eqb_neq; exact Hemp).
  split.
  - intros a Ha [t Ht]. unfold resolved, getOrCreateAttendanceRecord.
    fold target. fold first. rewrite Ha. simpl is_OUT.
    rewrite Ht. simpl. reflexivity.
  - intros Hfirst.
    assert (Hneeds :
      (is_OUT (Some OUT) &&
       match first with
       | None => true
       | Some attendance => negb (bool_decide (is_Some (punch_in_time attendance)))
       end) = true).
    { destruct Hfirst as [->|(a & -> & Hpin)]; [reflexivity|].
      rewrite Hpin. reflexivity. }
    unfold resolved, getOrCreateAttendanceRecord.
    fold target. fold first. rewrite Hneeds.
    unfold fetchRecentOpenAttendance. rewrite Hemp0.
    change (fetchAttendanceRecord db (open_in_window emp target))
      with (selected <$> first_in_order
              (List.filter (fun j => open_in_window emp target (fst (fst j)))
                           (joined db))).
    destruct (first_in_order
                (List.filter (fun j => open_in_window emp target (fst (fst j)))
                             (joined db))) as [j|] eqn:Hsel;
      cbn [fmap option_fmap option_map].
    + destruct (first_in_order_first _ _ Hsel) as [Hin Hmax].
      apply open_record_filter in Hin.
      split.
      * intros _. exists j. split; [|split; [|split]].
        -- split; [exact Hin|]. intros j' Hj'. apply Hmax.
           apply open_record_filter. exact Hj'.
        -- reflexivity.
        -- destruct Hin as (_ & _ & _ & [t Ht] & Hout).
           destruct j as [[a e] w]. simpl in *.
           unfold validatePunchAttempt. simpl. rewrite Ht, Hout. reflexivity.
        -- intros now. destruct Hin as (Hj & _).
           apply joined_from_table in Hj.
           destruct j as [[a e] w]. cbn [selected attendance_id fst] in *.
           destruct (processPunch_stamps db now a Hj)
             as (db' & updated & Hpunch & Hid & Hout).
           exists db', updated.
           split; [exact Hpunch|]. split; [exact Hid|]. split; [exact Hout|].
           assert (Hdb' : db' = fst (update_attendance db (a_attendance_id a) OUT now)).
           { unfold processPunch in Hpunch.
             destruct (update_attendance db (a_attendance_id a) OUT now)
               as [db1 rows].
             destruct rows; injection Hpunch as <-; try reflexivity. }
           pose proof (update_attendance_OUT_rows db (a_attendance_id a) now)
             as Hrows.
           rewrite <- Hdb' in Hrows. split; [|exact Hrows].
           clear - Hj Hrows. revert Hrows.
           generalize (tbl_attendance db'). 
           induction (tbl_attendance db) as [|r rows IH]; [destruct Hj|].
           intros after Hrows. inversion Hrows as [|? r' ? after' Hr Hrest]; subst.
           destruct Hj as [->|Hj].
           ++ left. rewrite Z.eqb_refl. reflexivity.
           ++ right. apply IH; assumption.
      * intros Hnone. exfalso. exact (Hnone j Hin).
    + apply first_in_order_nil in Hsel.
      split.
      * intros [j Hj]. apply open_record_filter in Hj.
        rewrite Hsel in Hj. destruct Hj.
      * intros _.
        destruct Hfirst as [Hn|(a & Ha & Hpin)].
        -- rewrite Hn.
           destruct createIfMissing; cbn [negb andb is_OUT].
           ++ destruct (insert_attendance db emp target _) as [db' inserted].
              destruct inserted as [row|].
              ** eexists _, _. split; [reflexivity|]. reflexivity.
              ** destruct (head _) as [row|].
                 --- eexists _, _. split; [reflexivity|]. reflexivity.
                 --- eexists _, _. split; [reflexivity|]. reflexivity.
           ++ eexists _, _. split; [reflexivity|]. reflexivity.
        -- rewrite Ha. eexists _, _. split; [reflexivity|].
           destruct a as [i d pin pout e w]. cbn [punch_in_time] in Hpin.
           subst pin. destruct pout; reflexivity.
Qed.

Lemma getOrCreateAttendanceRecord_punch_out_carry_forward_witness :
  exists j, most_recent_among (open_record carry_forward_db 3 19523) j /\
    getOrCreateAttendanceRecord carry_forward_db 19523 3 (Some 19523) (Some OUT) false
    = (carry_forward_db, Returned (Some (selected j))) /\
    validatePunchAttempt (Some (selected j)) OUT = None.
Proof.
  assert (Hemp : 3 <> 0) by discriminate.
  destruct (getOrCreateAttendanceRecord_punch_out_carry_forward
              carry_forward_db 19523 3 (Some 19523) false Hemp)
    as [_ H].
  destruct (H (or_introl eq_refl)) as [Hopen _].
  destruct Hopen as (j & Hrecent & Hresolved & Hvalid & _).
  - exists (mkAttendanceRow 11 3 19522 (Some 1) (Some 1000) None,
            mkEmployeeRow 3 (Some 1) (Some 1), 1).
    unfold open_record. simpl. repeat split; eauto; lia.
  - exists j. auto.
Defined.

(** C2 as stated fails in two places.  The open row of an employee without
    designation is not in the join: the punch OUT is not resolved to it.
    And when the row of the target date has a punch-out and no punch-in,
    the answer is "Already punched out today". *)
Lemma carry_forward_as_specified_fails :
  ~ carry_forward_as_specified unjoined_open_db 19523 3 (Some 19523)
  /\ ~ carry_forward_as_specified out_only_db 19523 3 (Some 19523).
Proof.
  split.
  - intros H.
    destruct H as [Hopen _].
    { intros a [<-|[]] _ Hdate. discriminate Hdate. }
    destruct Hopen as (a & _ & _ & res & Hres & _).
    { exists (mkAttendanceRow 11 3 19522 (Some 1) (Some 1000) None).
      unfold open_row. cbn. repeat split; eauto; lia. }
    vm_compute in Hres. discriminate Hres.
  - intros H.
    destruct H as [_ Hnone].
    { intros a [<-|[]] _ _. reflexivity. }
    destruct Hnone as (db' & res & Hres & Hmsg).
    { intros a (Hin & _ & _ & [t Ht] & _). destruct Hin as [<-|[]].
      discriminate Ht. }
    vm_compute in Hres. injection Hres as <- <-.
    vm_compute in Hmsg. discriminate Hmsg.
Qed.

(** *** Group mode *)


Ltac step_leaf :=
  eexists; split; [reflexivity|]; split; [reflexivity|];
  unfold marks_processed, push;
  cbn [face_status employeeId attendanceId processedEmployees loop_db];
  repeat split;
  try (intros; repeat match goal with
                      | H : _ /\ _ |- _ => destruct H
                      | H : Matched _ = Matched _ |- _ => injection H as H
                      end;
       subst; rewrite ?elem_of_union, ?elem_of_singleton in *;
       try discriminate; try congruence; try eauto;
       try solve [intuition (subst; eauto; congruence)]).

Section GroupLoop.
Variables (imageWidth imageHeight attendanceDate : Z) (punchType : PunchType).

Let step := processFace imageWidth imageHeight attendanceDate punchType.
Let loop := faceLoop imageWidth imageHeight attendanceDate punchType.

(** One pass through the loop body appends one result. *)
Lemma processFace_step (st : LoopState) (index : Z) (f : FaceDetail) :
  exists r,
    results (step st index f) = (results st ++ [r])%list /\
    faceIndex r = index + 1 /\
    (forall emp, resolves_to imageWidth imageHeight f emp ->
       emp ∈ processedEmployees st ->
       face_status r = Duplicate /\ employeeId r = Some emp /\
       attendanceId r = None /\ loop_db (step st index f) = loop_db st) /\
    (forall e, e ∈ processedEmployees (step st index f) <->
               e ∈ processedEmployees st \/ marks_processed r e) /\
    (face_status r = Punched ->
       exists emp, employeeId r = Some emp /\ emp ∉ processedEmployees st).
Proof.
  unfold step, processFace, resolves_to.
  destruct (computeCropRegion _ _ _ _) as [crop|] eqn:Hcrop;
    [|solve [step_leaf]].
  destruct (extracted f) eqn:Hex; cbn [negb]; [|solve [step_leaf]].
  destruct (searched f) as [msg| |[emp|]] eqn:Hs; try solve [step_leaf].
  case_bool_decide as Hproc; [solve [step_leaf]|].
  destruct (getOrCreateAttendanceRecord _ _ _ _ _ _) as [db1 [msg|att]];
    [solve [step_leaf]|].
  destruct (validatePunchAttempt att punchType) as [validation|];
    [solve [step_leaf]|].
  destruct att as [att|]; [|solve [step_leaf]].
  destruct (processPunch _ _ _ _ _) as [db2 [msg|updated]]; solve [step_leaf].
Qed.

(** The loop appends one result per face; a face whose employee is already
    in the processed set, or was put there by an earlier face of the run,
    is a duplicate; and a punched face is the first of its employee. *)
Lemma faceLoop_spec (faces : list FaceDetail) :
  forall (index : Z) (st : LoopState),
  exists rs : list FaceResult,
    results (loop faces index st) = (results st ++ rs)%list /\
    length rs = length faces /\
    (forall (k : nat) f rk emp,
        faces !! k = Some f -> rs !! k = Some rk ->
        resolves_to imageWidth imageHeight f emp ->
        (emp ∈ processedEmployees st \/
         exists (i : nat) ri, (i < k)%nat /\ rs !! i = Some ri /\
                              marks_processed ri emp) ->
        face_status rk = Duplicate /\ employeeId rk = Some emp /\
        attendanceId rk = None) /\
    (forall e, e ∈ processedEmployees (loop faces index st) <->
               e ∈ processedEmployees st \/
               exists (i : nat) ri, rs !! i = Some ri /\ marks_processed ri e) /\
    (forall (k : nat) rk,
        rs !! k = Some rk -> face_status rk = Punched ->
        exists emp, employeeId rk = Some emp /\
          (emp ∉ processedEmployees st) /\
          forall (i : nat) ri, (i < k)%nat -> rs !! i = Some ri ->
                               ~ marks_processed ri emp) /\
    (forall (k : nat) rk, rs !! k = Some rk -> faceIndex rk = index + Z.of_nat k + 1).
Proof.
  induction faces as [|f rest IH]; intros index st.
  - exists []. simpl. rewrite app_nil_r.
    repeat split; try (intros; discriminate).
    + intros H; left; exact H.
    + intros [H|(i & ri & H & _)]; [exact H|discriminate].
  - destruct (processFace_step st index f) as (r & Hres & Hidx & Hdup & Hproc & Hpun).
    destruct (IH (index + 1) (step st index f))
      as (rs & Hrs & Hlen & Hdups & Hprocs & Hpuns & Hidxs).
    exists (r :: rs).
    change (loop (f :: rest) index st) with (loop rest (index + 1) (step st index f)).
    split; [rewrite Hrs, Hres, <- app_assoc; reflexivity|].
    split; [simpl; rewrite Hlen; reflexivity|].
    split; [|split; [|split]].
    + intros [|k] f' rk emp Hf Hrk Hresolves Hseen; simpl in Hf, Hrk.
      * injection Hf as <-. injection Hrk as <-.
        destruct Hseen as [Hin|(i & ri & Hlt & _)]; [|lia].
        destruct (Hdup emp Hresolves Hin) as (? & ? & ? & _). auto.
      * apply (Hdups k f' rk emp Hf Hrk Hresolves).
        destruct Hseen as [Hin|(i & ri & Hlt & Hi & Hmark)].
        -- left. apply Hproc. left. exact Hin.
        -- destruct i as [|i]; simpl in Hi.
           ++ injection Hi as <-. left. apply Hproc. right. exact Hmark.
           ++ right. exists i, ri. split; [lia|]. split; assumption.
    + intros e. rewrite Hprocs, Hproc. split.
      * intros [[H|H]|(i & ri & Hi & Hmark)].
        -- left; exact H.
        -- right. exists 0%nat, r. split; [reflexivity|exact H].
        -- right. exists (S i), ri. split; [exact Hi|exact Hmark].
      * intros [H|(i & ri & Hi & Hmark)].
        -- left; left; exact H.
        -- destruct i as [|i]; simpl in Hi.
           ++ injection Hi as <-. left; right; exact Hmark.
           ++ right. exists i, ri. split; assumption.
    + intros [|k] rk Hrk Hst; simpl in Hrk.
      * injection Hrk as <-. destruct (Hpun Hst) as (emp & He & Hnot).
        exists emp. split; [exact He|]. split; [exact Hnot|].
        intros i ri Hlt. lia.
      * destruct (Hpuns k rk Hrk Hst) as (emp & He & Hnot & Hearlier).
        exists emp. split; [exact He|].
        split; [intros Hin; apply Hnot, Hproc; left; exact Hin|].
        intros [|i] ri Hlt Hi Hmark; simpl in Hi.
        -- injection Hi as <-. apply Hnot, Hproc. right. exact Hmark.
        -- apply (Hearlier i ri); [lia|exact Hi|exact Hmark].
    + intros [|k] rk Hrk; simpl in Hrk.
      * injection Hrk as <-. rewrite Hidx. lia.
      * rewrite (Hidxs k rk Hrk). lia.
Qed.

End GroupLoop.

Lemma FaceStatus_eqb_Punched (s : FaceStatus) :
  FaceStatus_eqb s Punched = true <-> s = Punched.
Proof. destruct s; split; intros H; try discriminate H; reflexivity. Qed.

(** The response of group mode: one result per face; a face that resolves
    to an employee whom an earlier face has put in the processed set is a
    duplicate without attendance id; no employee is punched twice; and
    success is a positive [punched_count], which counts the punched
    faces. *)
Lemma groupAttendance_response
    (db : Db) (imageWidth imageHeight attendanceDate : Z)
    (punchType : PunchType) (faceDetails : list FaceDetail) :
  let response :=
    snd (groupAttendance db imageWidth imageHeight attendanceDate punchType
           faceDetails) in
  length (group_results response) = length faceDetails
  /\ (forall (i j : nat) fj ri rj emp,
        (i < j)%nat ->
        faceDetails !! j = Some fj ->
        resolves_to imageWidth imageHeight fj emp ->
        group_results response !! i = Some ri -> marks_processed ri emp ->
        group_results response !! j = Some rj ->
        face_status rj = Duplicate /\ employeeId rj = Some emp /\
        attendanceId rj = None)
  /\ (forall (i j : nat) ri rj emp,
        group_results response !! i = Some ri ->
        group_results response !! j = Some rj ->
        face_status ri = Punched -> face_status rj = Punched ->
        employeeId ri = Some emp -> employeeId rj = Some emp ->
        i = j)
  /\ (success response = true <-> 0 < punched_count response)
  /\ (0 < punched_count response
      <-> exists r, In r (group_results response) /\ face_status r = Punched).
Proof.
  intros response.
  destruct (faceLoop_spec imageWidth imageHeight attendanceDate punchType
              faceDetails 0 (mkLoopState db ∅ []))
    as (rs & Hrs & Hlen & Hdups & _ & Hpuns & _).
  simpl in Hrs.
  assert (Hresults : group_results response = rs) by exact Hrs.
  rewrite Hresults.
  split; [exact Hlen|].
  split.
  { intros i j fj ri rj emp Hlt Hfj Hresolves Hri Hmark Hrj.
    apply (Hdups j fj rj emp Hfj Hrj Hresolves).
    right. exists i, ri. auto. }
  split.
  { assert (Hlt : forall (i j : nat) ri rj emp,
              rs !! i = Some ri -> rs !! j = Some rj ->
              face_status ri = Punched -> face_status rj = Punched ->
              employeeId ri = Some emp -> employeeId rj = Some emp ->
              ~ (i < j)%nat).
    { intros i j ri rj emp Hri Hrj Hsi Hsj Hei Hej Hlt.
      destruct (Hpuns j rj Hrj Hsj) as (emp' & He' & _ & Hearlier).
      assert (emp' = emp) by congruence. subst emp'.
      apply (Hearlier i ri Hlt Hri). split; auto. }
    intros i j ri rj emp Hri Hrj Hsi Hsj Hei Hej.
    destruct (Nat.lt_trichotomy i j) as [H|[H|H]]; [|exact H|].
    - exfalso. exact (Hlt i j ri rj emp Hri Hrj Hsi Hsj Hei Hej H).
    - exfalso. exact (Hlt j i rj ri emp Hrj Hri Hsj Hsi Hej Hei H). }
  split.
  { unfold response, groupAttendance. cbn [snd success punched_count].
    apply Z.ltb_lt. }
  unfold response, groupAttendance. cbn [snd punched_count].
  change (results (faceLoop imageWidth imageHeight attendanceDate punchType
                     faceDetails 0 (mkLoopState db ∅ []))) with
    (group_results response).
  rewrite Hresults.
  split.
  - intros Hpos.
    destruct (List.filter (fun entry => FaceStatus_eqb (face_status entry) Punched) rs)
      as [|r l] eqn:Hf; [simpl in Hpos; lia|].
    assert (Hin : In r (List.filter
                          (fun entry => FaceStatus_eqb (face_status entry) Punched) rs))
      by (rewrite Hf; left; reflexivity).
    apply filter_In in Hin. destruct Hin as [Hin Hp].
    exists r. split; [exact Hin|]. apply FaceStatus_eqb_Punched, Hp.
  - intros (r & Hin & Hp).
    assert (Hin' : In r (List.filter
                          (fun entry => FaceStatus_eqb (face_status entry) Punched) rs)).
    { apply filter_In. split; [exact Hin|]. apply FaceStatus_eqb_Punched, Hp. }
    destruct (List.filter _ rs); [destruct Hin'|]. simpl length. lia.
Qed.

(** The loop over a frame in two parts: the faces after a prefix are
    processed from the state the prefix leaves. *)
Lemma faceLoop_app (imageWidth imageHeight attendanceDate : Z)
    (punchType : PunchType) (first rest : list FaceDetail) :
  forall (index : Z) (st : LoopState),
    faceLoop imageWidth imageHeight attendanceDate punchType (first ++ rest)
      index st
    = faceLoop imageWidth imageHeight attendanceDate punchType rest
        (index + Z.of_nat (length first))
        (faceLoop imageWidth imageHeight attendanceDate punchType first
           index st).
Proof.
  induction first as [|f first IH]; intros index st.
  - cbn [app faceLoop length]. rewrite Z.add_0_r. reflexivity.
  - cbn [app faceLoop length]. rewrite IH. f_equal. lia.
Qed.

(** The results of the first [k] faces of a frame are the first [k]
    results of the frame. *)
Lemma faceLoop_prefix_results (imageWidth imageHeight attendanceDate : Z)
    (punchType : PunchType) (faceDetails : list FaceDetail) (db : Db) (k : nat) :
  results (faceLoop imageWidth imageHeight attendanceDate punchType
             (take k faceDetails) 0 (mkLoopState db ∅ []))
  = take k (results (faceLoop imageWidth imageHeight attendanceDate punchType
                       faceDetails 0 (mkLoopState db ∅ []))).
Proof.
  rewrite <- (take_drop k faceDetails) at 2.
  rewrite faceLoop_app.
  destruct (faceLoop_spec imageWidth imageHeight attendanceDate punchType
              (take k faceDetails) 0 (mkLoopState db ∅ []))
    as (rs1 & Hrs1 & Hlen1 & _).
  cbn [results app] in Hrs1.
  destruct (faceLoop_spec imageWidth imageHeight attendanceDate punchType
              (drop k faceDetails) (0 + Z.of_nat (length (take k faceDetails)))
              (faceLoop imageWidth imageHeight attendanceDate punchType
                 (take k faceDetails) 0 (mkLoopState db ∅ [])))
    as (rs2 & Hrs2 & Hlen2 & _).
  rewrite Hrs2, Hrs1.
  destruct (decide (k <= length faceDetails)%nat) as [Hk|Hk].
  - rewrite length_take in Hlen1.
    rewrite take_app_le by lia. rewrite take_ge by lia. reflexivity.
  - rewrite length_drop in Hlen2.
    destruct rs2; [|simpl in Hlen2; lia].
    rewrite app_nil_r. rewrite take_ge; [reflexivity|].
    rewrite length_take in Hlen1. lia.
Qed.

(** A face whose employee an earlier face of the frame has put in the
    processed set leaves the database as it finds it. *)
Lemma faceLoop_duplicate_keeps_db (imageWidth imageHeight attendanceDate : Z)
    (punchType : PunchType) (faceDetails : list FaceDetail) (db : Db)
    (i j : nat) (fj : FaceDetail) (ri : FaceResult) (emp : Z) :
  (i < j)%nat ->
  faceDetails !! j = Some fj ->
  resolves_to imageWidth imageHeight fj emp ->
  results (faceLoop imageWidth imageHeight attendanceDate punchType
             faceDetails 0 (mkLoopState db ∅ [])) !! i = Some ri ->
  marks_processed ri emp ->
  loop_db (faceLoop imageWidth imageHeight attendanceDate punchType
             (take (S j) faceDetails) 0 (mkLoopState db ∅ []))
  = loop_db (faceLoop imageWidth imageHeight attendanceDate punchType
               (take j faceDetails) 0 (mkLoopState db ∅ [])).
Proof.
  intros Hlt Hfj Hresolves Hri Hmark.
  rewrite (take_S_r faceDetails j fj Hfj), faceLoop_app.
  cbn [faceLoop].
  set (before := faceLoop imageWidth imageHeight attendanceDate punchType
                   (take j faceDetails) 0 (mkLoopState db ∅ [])).
  assert (Hseen : emp ∈ processedEmployees before).
  { destruct (faceLoop_spec imageWidth imageHeight attendanceDate punchType
                (take j faceDetails) 0 (mkLoopState db ∅ []))
      as (rs & Hrs & _ & _ & Hprocessed & _).
    fold before in Hrs, Hprocessed. cbn [results app] in Hrs.
    apply Hprocessed. right. exists i, ri. split; [|exact Hmark].
    rewrite <- Hrs. unfold before. rewrite faceLoop_prefix_results.
    rewrite lookup_take_lt by exact Hlt. exact Hri. }
  destruct (processFace_step imageWidth imageHeight attendanceDate punchType
              before (0 + Z.of_nat (length (take j faceDetails))) fj)
    as (r & _ & _ & Hdup & _).
  destruct (Hdup emp Hresolves Hseen) as (_ & _ & _ & Hdb).
  exact Hdb.
Qed.

(** C8.  In group mode every face gets one result.  A face that resolves to
    an employee whom an earlier face of the frame put in the processed set
    (by a punch or by a skipped transition) gets status "duplicate" and no
    attendance id, and the database after it is the database before it: no
    row is written for the employee a second time.  No employee is punched
    twice in one frame; and the response reports success exactly when some
    face was punched, which is when [punched_count] is positive.  (The
    database before and after the face at position [j] is the one that the
    loop leaves after the first [j] and the first [j + 1] faces of the
    frame.) *)
Theorem groupAttendance_duplicates_and_success
    (db : Db) (imageWidth imageHeight attendanceDate : Z)
    (punchType : PunchType) (faceDetails : list FaceDetail) :
  let run faces :=
    groupAttendance db imageWidth imageHeight attendanceDate punchType faces in
  let response := snd (run faceDetails) in
  length (group_results response) = length faceDetails
  /\ (forall (i j : nat) fj ri rj emp,
        (i < j)%nat ->
        faceDetails !! j = Some fj ->
        resolves_to imageWidth imageHeight fj emp ->
        group_results response !! i = Some ri -> marks_processed ri emp ->
        group_results response !! j = Some rj ->
        face_status rj = Duplicate /\ employeeId rj = Some emp /\
        attendanceId rj = None /\
        fst (run (take (S j) faceDetails)) = fst (run (take j faceDetails)))
  /\ (forall (i j : nat) ri rj emp,
        group_results response !! i = Some ri ->
        group_results response !! j = Some rj ->
        face_status ri = Punched -> face_status rj = Punched ->
        employeeId ri = Some emp -> employeeId rj = Some emp ->
        i = j)
  /\ (success response = true <-> 0 < punched_count response)
  /\ (0 < punched_count response
      <-> exists r, In r (group_results response) /\ face_status r = Punched)
  /\ (forall k : nat,
        group_results (snd (run (take k faceDetails)))
        = take k (group_results response))
  /\ fst (run (take (length faceDetails) faceDetails)) = fst (run faceDetails).
Proof.
  intros run response.
  destruct (groupAttendance_response db imageWidth imageHeight attendanceDate
              punchType faceDetails)
    as (Hlen & Hdup & Honce & Hsuccess & Hcount).
  split; [exact Hlen|].
  split.
  { intros i j fj ri rj emp Hlt Hfj Hresolves Hri Hmark Hrj.
    destruct (Hdup i j fj ri rj emp Hlt Hfj Hresolves Hri Hmark Hrj)
      as (Hstatus & Hemp & Hid).
    split; [exact Hstatus|]. split; [exact Hemp|]. split; [exact Hid|].
    exact (faceLoop_duplicate_keeps_db imageWidth imageHeight attendanceDate
             punchType faceDetails db i j fj ri emp Hlt Hfj Hresolves Hri Hmark). }
  split; [exact Honce|].
  split; [exact Hsuccess|].
  split; [exact Hcount|].
  split.
  - intros k.
    exact (faceLoop_prefix_results imageWidth imageHeight attendanceDate
             punchType faceDetails db k).
  - rewrite firstn_all. reflexivity.
Qed.

Example groupAttendance_two_faces_one_employee :
  let response :=
    snd (groupAttendance group_db 1000 800 19522 IN two_faces_one_employee) in
  map face_status (group_results response) = [Punched; Duplicate] /\
  map employeeId (group_results response) = [Some 100; Some 100] /\
  punched_count response = 1 /\ success response = true.
Proof. vm_compute. repeat split; reflexivity. Qed.

(** *** Permission scopes *)

Lemma Set_add_elem (x y : Z) (s : list Z) :
  y ∈ Set_add x s <-> y = x \/ y ∈ s.
Proof.
  unfold Set_add. case_bool_decide as Hx.
  - split; [auto|]. intros [->|H]; assumption.
  - rewrite elem_of_app, list_elem_of_singleton. tauto.
Qed.

Lemma add_permission_row_other (payload : PermissionPayload)
    (row : PermissionRow) (key : string) :
  row_key row <> key ->
  cityMap (add_permission_row payload row) !! key = cityMap payload !! key.
Proof.
  intros Hne. unfold add_permission_row. cbn [cityMap].
  apply lookup_insert_ne. exact Hne.
Qed.

Lemma scope_describes_step (seen : list PermissionRow)
    (payload : PermissionPayload) (row : PermissionRow) (key : string) :
  scope_describes seen key (cityMap payload !! key) ->
  scope_describes (seen ++ [row]) key
    (cityMap (add_permission_row payload row) !! key).
Proof.
  intros Hd.
  destruct (String.eqb_spec (row_key row) key) as [Heq|Hne].
  - unfold add_permission_row. cbn [cityMap]. rewrite Heq.
    rewrite lookup_insert_eq. subst key.
    assert (Hlast : In row (seen ++ [row])) by (apply in_or_app; right; left; reflexivity).
    destruct (cityMap payload !! row_key row) as [s|]; simpl in Hd.
    + destruct Hd as (Hex & Hall & Hclear & Hids).
      destruct (city_id row) as [c|] eqn:Hc.
      * destruct (all s) eqn:Hs.
        -- simpl. rewrite Hs. split; [eauto|]. split; [|split].
           ++ split; [intros _|reflexivity].
              destruct (proj1 Hall eq_refl) as (r & Hr & Hk & Hn).
              exists r. split; [apply in_or_app; left; exact Hr|auto].
           ++ exact Hclear.
           ++ discriminate.
        -- simpl. split; [eauto|]. split; [|split].
           ++ split; [discriminate|].
              intros (r & Hr & Hk & Hn). apply in_app_or in Hr.
              destruct Hr as [Hr|[<-|[]]]; [|congruence].
              apply Hall. eauto.
           ++ discriminate.
           ++ intros _ city. rewrite Set_add_elem, (Hids eq_refl city). split.
              ** intros [->|(r & Hr & Hk & Hcity)].
                 --- exists row. auto.
                 --- exists r. split; [apply in_or_app; left; exact Hr|auto].
              ** intros (r & Hr & Hk & Hcity). apply in_app_or in Hr.
                 destruct Hr as [Hr|[<-|[]]]; [right; eauto|left; congruence].
      * simpl. split; [eauto|]. split; [|split].
        -- split; [intros _; eauto|reflexivity].
        -- reflexivity.
        -- discriminate.
    + destruct (city_id row) as [c|] eqn:Hc; simpl.
      * split; [eauto|]. split; [|split].
        -- split; [discriminate|].
           intros (r & Hr & Hk & Hn). apply in_app_or in Hr.
           destruct Hr as [Hr|[<-|[]]]; [|congruence].
           exfalso. exact (Hd r Hr Hk).
        -- discriminate.
        -- intros _ city. rewrite Set_add_elem. split.
           ++ intros [->|Hin]; [exists row; auto|].
              apply elem_of_nil in Hin. destruct Hin.
           ++ intros (r & Hr & Hk & Hcity). apply in_app_or in Hr.
              destruct Hr as [Hr|[<-|[]]]; [|left; congruence].
              exfalso. exact (Hd r Hr Hk).
      * split; [eauto|]. split; [|split].
        -- split; [intros _; eauto|reflexivity].
        -- reflexivity.
        -- discriminate.
  - rewrite add_permission_row_other by exact Hne.
    destruct (cityMap payload !! key) as [s|]; simpl in *.
    + destruct Hd as (Hex & Hall & Hclear & Hids).
      split.
      { destruct Hex as (r & Hr & Hk). exists r.
        split; [apply in_or_app; left; exact Hr|exact Hk]. }
      split; [|split; [exact Hclear|]].
      * rewrite Hall. split; intros (r & Hr & Hk & Hn).
        -- exists r. split; [apply in_or_app; left; exact Hr|auto].
        -- apply in_app_or in Hr. destruct Hr as [Hr|[<-|[]]]; [eauto|congruence].
      * intros Hs city. rewrite (Hids Hs city).
        split; intros (r & Hr & Hk & Hn).
        -- exists r. split; [apply in_or_app; left; exact Hr|auto].
        -- apply in_app_or in Hr. destruct Hr as [Hr|[<-|[]]]; [eauto|congruence].
    + intros r Hr. apply in_app_or in Hr.
      destruct Hr as [Hr|[<-|[]]]; [exact (Hd r Hr)|exact Hne].
Qed.

Lemma build_permission_payload_describes (rows : list PermissionRow)
    (key : string) :
  scope_describes rows key (cityMap (build_permission_payload rows) !! key).
Proof.
  unfold build_permission_payload.
  induction rows as [|row rows IH] using rev_ind.
  - simpl. rewrite lookup_empty. intros row [].
  - rewrite fold_left_app. simpl. apply scope_describes_step. exact IH.
Qed.




(** *** The city scope attached to a request *)

Lemma fetchUserPermissions_payload (st : RbacState) (userId : Z) :
  cache_coherent st -> userId <> 0 ->
  snd (fetchUserPermissions st userId)
  = build_permission_payload (permission_rows (rbac_db st) userId).
Proof.
  intros Hcoh Hid. unfold fetchUserPermissions.
  replace (userId =? 0) with false by (symmetry; apply Z.eqb_neq; exact Hid).
  destruct (permissionCache st !! (userId, cacheVersion st)) as [payload|] eqn:Hc.
  - simpl. apply Hcoh. exact Hc.
  - reflexivity.
Qed.

Lemma role_permission_rows_null_city (db : RbacDb) (userId : Z) (row : PermissionRow) :
  In row (role_permission_rows db userId) -> city_id row = None.
Proof.
  unfold role_permission_rows. intros H.
  apply in_flat_map in H. destruct H as (p & _ & H).
  apply in_flat_map in H. destruct H as (rp & _ & H).
  apply in_map_iff in H. destruct H as (ur & <- & _). reflexivity.
Qed.

Lemma permission_cities_elem (db : RbacDb) (userId : Z) (key : string) (city : Z) :
  city ∈ permission_cities db userId key <->
  exists row, In row (permission_rows db userId) /\ row_key row = key /\
              city_id row = Some city.
Proof.
  unfold permission_cities, permission_rows.
  rewrite elem_of_list_to_set, list_elem_of_omap. split.
  - intros (row & Hin & Hc). apply list_elem_of_In, filter_In in Hin.
    destruct Hin as [Hin Hk]. apply String.eqb_eq in Hk.
    exists row. split; [apply in_or_app; right; exact Hin|auto].
  - intros (row & Hin & Hk & Hc). exists row. split; [|exact Hc].
    apply list_elem_of_In, filter_In. split; [|apply String.eqb_eq, Hk].
    apply in_app_or in Hin. destruct Hin as [Hin|Hin]; [|exact Hin].
    apply role_permission_rows_null_city in Hin. congruence.
Qed.

Lemma buildCityScopeForUser_not_admin (st : RbacState) (user : User) :
  cache_coherent st -> user_id user <> 0 -> is_admin user = false ->
  snd (buildCityScopeForUser st (Some user))
  = normalizeScope
      (cityMap (build_permission_payload
                  (permission_rows (rbac_db st) (user_id user)))
         !! CITY_PERMISSION_KEY).
Proof.
  intros Hcoh Hid Hadmin. unfold buildCityScopeForUser.
  replace (user_id user =? 0) with false by (symmetry; apply Z.eqb_neq; exact Hid).
  rewrite Hadmin.
  pose proof (fetchUserPermissions_payload st (user_id user) Hcoh Hid) as Hp.
  destruct (fetchUserPermissions st (user_id user)) as [st' payload].
  simpl in Hp. subst payload. reflexivity.
Qed.

(** The scope of a user who is not an admin comes from the payload that
    [fetchUserPermissions] returns: the cached one when the cache has an
    entry for the user under the current version, and the one built from
    the tables when it has none. *)
Lemma buildCityScopeForUser_of_payload (st : RbacState) (user : User) :
  user_id user <> 0 -> is_admin user = false ->
  snd (buildCityScopeForUser st (Some user))
  = normalizeScope
      (cityMap
         (default (build_permission_payload
                     (permission_rows (rbac_db st) (user_id user)))
                  (permissionCache st !! (user_id user, cacheVersion st)))
         !! CITY_PERMISSION_KEY).
Proof.
  intros Hid Hadmin. unfold buildCityScopeForUser, fetchUserPermissions.
  replace (user_id user =? 0) with false by (symmetry; apply Z.eqb_neq; exact Hid).
  rewrite Hadmin.
  destruct (permissionCache st !! (user_id user, cacheVersion st));
    reflexivity.
Qed.

(** C1, amended.  An admin gets the scope [all].  For a user who is not an
    admin and holds city:view, and whose entry in the permission cache
    under the current version, if there is one, is what the tables give
    now, the scope attached to the request is [all] exactly when one of
    the user's city:view grants has a null city, and otherwise its ids are
    the cities of the user's city:view [UserPermission] rows; the
    [UserCityAccess] grants are not read.  An entry of the cache is used as
    it is: on a cache hit the scope is the one of the cached payload,
    whatever the tables hold. *)
Theorem buildCityScopeForUser_from_city_view_grants
    (st : RbacState) (user : User) (Hid : user_id user <> 0) :
  let scope := snd (buildCityScopeForUser st (Some user)) in
  let db := rbac_db st in
  let cached := permissionCache st !! (user_id user, cacheVersion st) in
  (is_admin user = true -> scope = mkScope true [])
  /\ (is_admin user = false ->
      (forall payload, cached = Some payload ->
         payload = build_permission_payload (permission_rows db (user_id user))) ->
      holds_permission db (user_id user) CITY_PERMISSION_KEY ->
      (all scope = true <->
       holds_for_all_cities db (user_id user) CITY_PERMISSION_KEY)
      /\ (all scope = false ->
          list_to_set (ids scope) =@{gset Z}
          permission_cities db (user_id user) CITY_PERMISSION_KEY))
  /\ (is_admin user = false ->
      forall payload, cached = Some payload ->
        scope = normalizeScope (cityMap payload !! CITY_PERMISSION_KEY)).
Proof.
  intros scope db cached. split; [|split].
  - intros Hadmin. unfold scope, buildCityScopeForUser.
    replace (user_id user =? 0) with false by (symmetry; apply Z.eqb_neq; exact Hid).
    rewrite Hadmin. reflexivity.
  - intros Hadmin Hfresh Hholds.
    unfold scope. rewrite (buildCityScopeForUser_of_payload st user Hid Hadmin).
    fold db. fold cached.
    assert (Hpayload :
      default (build_permission_payload (permission_rows db (user_id user))) cached
      = build_permission_payload (permission_rows db (user_id user))).
    { destruct cached as [payload|] eqn:Hc; [|reflexivity].
      cbn [default from_option id]. apply Hfresh. reflexivity. }
    rewrite Hpayload.
    pose proof (build_permission_payload_describes
                  (permission_rows db (user_id user)) CITY_PERMISSION_KEY) as Hd.
    destruct (cityMap _ !! CITY_PERMISSION_KEY) as [s|]; simpl in Hd.
    + destruct Hd as (_ & Hall & Hclear & Hids).
      unfold normalizeScope, holds_for_all_cities.
      destruct (all s) eqn:Hs; simpl.
      * split; [|discriminate]. rewrite <- Hall. tauto.
      * split; [rewrite <- Hall; split; [discriminate|auto]|].
        intros _. apply set_eq. intros city.
        rewrite elem_of_list_to_set, permission_cities_elem.
        apply Hids. reflexivity.
    + destruct Hholds as (row & Hin & Hk). exfalso. exact (Hd row Hin Hk).
  - intros Hadmin payload Hc.
    unfold scope. rewrite (buildCityScopeForUser_of_payload st user Hid Hadmin).
    fold cached. rewrite Hc. reflexivity.
Qed.

Lemma buildCityScopeForUser_from_city_view_grants_witness :
  list_to_set (ids (snd (buildCityScopeForUser scoped_user_state (Some scoped_user))))
  =@{gset Z} permission_cities (rbac_db scoped_user_state) 5 CITY_PERMISSION_KEY.
Proof.
  assert (Hid : user_id scoped_user <> 0) by (simpl; lia).
  destruct (buildCityScopeForUser_from_city_view_grants
              scoped_user_state scoped_user Hid) as (_ & H & _).
  apply H.
  - reflexivity.
  - intros payload Hc. cbn in Hc. rewrite lookup_empty in Hc. discriminate Hc.
  - exists (mkPermissionRow "city" "view" (Some 7)).
    split; [left; reflexivity|reflexivity].
  - reflexivity.
Defined.

(** C1 as stated fails: the scope of [scoped_user] is the city 7 alone, the
    explicit grants for the cities 2 and 5 are not part of it. *)
Lemma city_scope_as_specified_fails :
  ~ city_scope_as_specified scoped_user_state scoped_user.
Proof.
  unfold city_scope_as_specified. intros [_ H].
  specialize (H eq_refl).
  assert (H2 : (2 : Z) ∈ (list_to_set
             (ids (snd (buildCityScopeForUser scoped_user_state (Some scoped_user))))
             : gset Z)).
  { rewrite H. apply elem_of_union. left.
    unfold city_access_grants. apply elem_of_list_to_set. simpl. left. }
  apply elem_of_list_to_set in H2. simpl in H2.
  apply list_elem_of_In in H2. simpl in H2. destruct H2 as [H2|[]]. discriminate.
Qed.

(** A user who is not an admin and holds no city:view grant at all gets the
    scope [all]: [normalizeScope] reads a missing scope as no restriction. *)
Lemma buildCityScopeForUser_without_city_view (st : RbacState) (user : User) :
  cache_coherent st -> user_id user <> 0 -> is_admin user = false ->
  ~ holds_permission (rbac_db st) (user_id user) CITY_PERMISSION_KEY ->
  snd (buildCityScopeForUser st (Some user)) = mkScope true [].
Proof.
  intros Hcoh Hid Hadmin Hnone.
  rewrite (buildCityScopeForUser_not_admin st user Hcoh Hid Hadmin).
  pose proof (build_permission_payload_describes
                (permission_rows (rbac_db st) (user_id user)) CITY_PERMISSION_KEY) as Hd.
  destruct (cityMap _ !! CITY_PERMISSION_KEY) as [s|]; simpl in Hd; [|reflexivity].
  destruct Hd as ((row & Hin & Hk) & _). exfalso. apply Hnone. exists row. auto.
Qed.

(** *** Report filters *)

Lemma string_app_assoc (a b c : string) : (a +:+ b) +:+ c = a +:+ (b +:+ c).
Proof.
  induction a as [|x a IH]; [reflexivity|].
  change (String x ((a +:+ b) +:+ c) = String x (a +:+ b +:+ c)).
  f_equal. exact IH.
Qed.

Lemma concat_snoc (sep : string) (fs : list string) (f c : string) :
  String.concat sep ((f :: fs) ++ [c])
  = String.concat sep (f :: fs) +:+ sep +:+ c.
Proof.
  revert f. induction fs as [|g fs IH]; intros f.
  - reflexivity.
  - change (String.concat sep ((f :: g :: fs) ++ [c]))
      with (f +:+ sep +:+ String.concat sep ((g :: fs) ++ [c])).
    rewrite IH.
    change (String.concat sep (f :: g :: fs))
      with (f +:+ sep +:+ String.concat sep (g :: fs)).
    rewrite !string_app_assoc. reflexivity.
Qed.

Lemma where_clause_snoc (fs : list string) (c : string) :
  where_clause (fs ++ [c])
  = (if String.eqb (where_clause fs) "" then "WHERE "
     else where_clause fs +:+ " AND ") +:+ c.
Proof.
  destruct fs as [|f fs]; [reflexivity|].
  change (where_clause ((f :: fs) ++ [c]))
    with ("WHERE " +:+ String.concat " AND " ((f :: fs) ++ [c])).
  rewrite concat_snoc.
  change (where_clause (f :: fs)) with ("WHERE " +:+ String.concat " AND " (f :: fs)).
  change (String.eqb ("WHERE " +:+ String.concat " AND " (f :: fs)) "") with false.
  rewrite !string_app_assoc. reflexivity.
Qed.

Lemma addCityScope_narrows {Num : Type} (st : @FilterState Num) (scope : Scope) :
  all scope = false ->
  narrowed_by_scope (finish (addCityScope st None))
    (finish (addCityScope st (Some scope))) scope.
Proof.
  intros Hall. unfold narrowed_by_scope, extends_where, addCityScope, finish.
  rewrite Hall. cbn [whereClause result_params].
  destruct (ids scope) as [|i l] eqn:Hids.
  - split; [intros H; contradiction|]. intros _.
    cbn [filters params]. split; [reflexivity|]. apply where_clause_snoc.
  - split; [|intros H; discriminate]. intros _.
    cbn [filters params]. split; [reflexivity|].
    rewrite where_clause_snoc. unfold placeholder_for.
    rewrite !string_app_assoc. reflexivity.
Qed.

(** C6.  When the caller's city scope is not [all], both filter builders
    return the result for the same query without a scope plus one
    condition at the end of the WHERE clause: with city ids, the ids as one
    more bound parameter [$N] and [c.city_id = ANY($N)]; with no ids, no
    parameter and the contradiction [1 = 0]. *)
Theorem report_filters_narrowed_by_city_scope {Num : Type}
    (parseFinite : string -> option Num) (query : gmap string string)
    (locationExpression : string) (scope : Scope)
    (Hall : all scope = false) :
  narrowed_by_scope
    (buildAttendanceFilters parseFinite query locationExpression None)
    (buildAttendanceFilters parseFinite query locationExpression (Some scope))
    scope
  /\ narrowed_by_scope
       (buildSupervisorSummaryFilters parseFinite query None)
       (buildSupervisorSummaryFilters parseFinite query (Some scope))
       scope.
Proof.
  split; apply addCityScope_narrows; exact Hall.
Qed.

Example buildAttendanceFilters_example :
  let r := buildAttendanceFilters example_parseFinite example_query
             (getLocationExpression "both") (Some example_scope) in
  whereClause r
  = "WHERE c.city_id = $1 AND a.punch_in_time IS NOT NULL AND c.city_id = ANY($2)"
  /\ result_params r = [PNumber 7; PIds [2; 5]].
Proof. vm_compute. split; reflexivity. Qed.

Example buildSupervisorSummaryFilters_empty_scope :
  let r := buildSupervisorSummaryFilters example_parseFinite example_query
             (Some (mkScope false [])) in
  whereClause r = "WHERE c.city_id = $1 AND 1 = 0"
  /\ result_params r = [PNumber 7].
Proof. vm_compute. split; reflexivity. Qed.

Lemma report_filters_narrowed_by_city_scope_witness :
  narrowed_by_scope
    (buildAttendanceFilters example_parseFinite example_query
       (getLocationExpression "both") None)
    (buildAttendanceFilters example_parseFinite example_query
       (getLocationExpression "both") (Some example_scope))
    example_scope.
Proof.
  apply (report_filters_narrowed_by_city_scope example_parseFinite example_query
           (getLocationExpression "both") example_scope).
  reflexivity.
Defined.

(** *** CSV *)

Lemma csv_run_app (rd : CsvReader) (a b : string) :
  csv_run rd (a +:+ b) = csv_run (csv_run rd a) b.
Proof.
  revert rd. induction a as [|c a IH]; intros rd; [reflexivity|].
  change (csv_run (csv_step rd c) (a +:+ b) = csv_run (csv_run (csv_step rd c) a) b).
  apply IH.
Qed.

Lemma string_app_cons (f : string) (c : ascii) (s : string) :
  (f +:+ String c EmptyString) +:+ s = f +:+ String c s.
Proof. rewrite string_app_assoc. reflexivity. Qed.

Lemma string_app_empty (s : string) : s +:+ EmptyString = s.
Proof.
  induction s as [|c s IH]; [reflexivity|].
  change (String c (s +:+ EmptyString) = String c s). f_equal. exact IH.
Qed.

(** Inside the quotes the reader takes the doubled text for the text. *)
Lemma csv_run_quoted_text (s : string) :
  forall field record records,
  csv_run (mkCsvReader InQuoted field record records) (double_quotes s)
  = mkCsvReader InQuoted (field +:+ s) record records.
Proof.
  induction s as [|c s IH]; intros field record records.
  - simpl. rewrite string_app_empty. reflexivity.
  - simpl double_quotes. destruct (Ascii.eqb c dquote) eqn:Hc.
    + apply Ascii.eqb_eq in Hc. subst c.
      change (csv_run (mkCsvReader InQuoted (field +:+ String dquote EmptyString)
                         record records) (double_quotes s)
              = mkCsvReader InQuoted (field +:+ String dquote s) record records).
      rewrite IH, string_app_cons. reflexivity.
    + change (csv_run (csv_step (mkCsvReader InQuoted field record records) c)
                (double_quotes s)
              = mkCsvReader InQuoted (field +:+ String c s) record records).
      unfold csv_step. cbn [csv_mode]. rewrite Hc. unfold csv_put.
      cbn [csv_field csv_record csv_records].
      rewrite IH, string_app_cons. reflexivity.
Qed.

(** A rendered cell is read back as its text. *)
Lemma csv_run_cell (rd : CsvReader) (text : string) :
  at_field_start rd ->
  csv_run rd (csvEscapeValue (Some text))
  = mkCsvReader QuoteSeen text (csv_record rd) (csv_records rd).
Proof.
  intros [Hmode Hfield]. destruct rd as [mode field record records].
  simpl in Hmode, Hfield. subst field.
  unfold csvEscapeValue.
  change (csv_run (mkCsvReader mode EmptyString record records)
            (String dquote (double_quotes text +:+ String dquote EmptyString)))
    with (csv_run (csv_step (mkCsvReader mode EmptyString record records) dquote)
            (double_quotes text +:+ String dquote EmptyString)).
  assert (Hstep : csv_step (mkCsvReader mode EmptyString record records) dquote
                  = mkCsvReader InQuoted EmptyString record records).
  { destruct Hmode as [-> | ->]; reflexivity. }
  rewrite Hstep, csv_run_app, csv_run_quoted_text. reflexivity.
Qed.

Lemma csv_run_line (cells : list string) (cell : string) :
  forall rd, at_field_start rd ->
  exists field record,
    csv_run rd (render_line (cell :: cells))
    = mkCsvReader QuoteSeen field record (csv_records rd) /\
    (record ++ [field] = csv_record rd ++ cell :: cells)%list.
Proof.
  revert cell. induction cells as [|next cells IH]; intros cell rd Hstart.
  - exists cell, (csv_record rd). split; [|reflexivity].
    apply csv_run_cell. exact Hstart.
  - change (render_line (cell :: next :: cells))
      with (csvEscapeValue (Some cell)
            +:+ String comma EmptyString +:+ render_line (next :: cells)).
    rewrite csv_run_app, (csv_run_cell rd cell Hstart).
    change (csv_run (mkCsvReader QuoteSeen cell (csv_record rd) (csv_records rd))
              (String comma EmptyString +:+ render_line (next :: cells)))
      with (csv_run (mkCsvReader FieldStart EmptyString
                       (csv_record rd ++ [cell])%list (csv_records rd))
              (render_line (next :: cells))).
    destruct (IH next (mkCsvReader FieldStart EmptyString
                         (csv_record rd ++ [cell])%list (csv_records rd)))
      as (field & record & Hrun & Hrec).
    { split; [right; reflexivity|reflexivity]. }
    exists field, record. split; [exact Hrun|].
    rewrite Hrec. cbn [csv_record]. rewrite <- app_assoc. reflexivity.
Qed.

Lemma csv_run_lines (lines : list (list string)) (line : list string) :
  Forall (fun l => l <> []) (line :: lines) ->
  forall records,
  csv_finish (csv_run (mkCsvReader RecordStart EmptyString [] records)
                (join_lines (map render_line (line :: lines))))
  = Some (records ++ line :: lines)%list.
Proof.
  revert line. induction lines as [|next lines IH]; intros line Hne records.
  - destruct line as [|cell cells]; [inversion Hne; contradiction|].
    destruct (csv_run_line cells cell (mkCsvReader RecordStart EmptyString [] records))
      as (field & record & Hrun & Hrec).
    { split; [left; reflexivity|reflexivity]. }
    cbn [csv_records csv_record] in Hrun, Hrec.
    change (join_lines (map render_line [cell :: cells]))
      with (render_line (cell :: cells)).
    rewrite Hrun. unfold csv_finish. cbn [csv_mode csv_records csv_record csv_field].
    rewrite Hrec. reflexivity.
  - destruct line as [|cell cells]; [inversion Hne; contradiction|].
    inversion Hne as [|? ? _ Hrest]; subst.
    destruct (csv_run_line cells cell (mkCsvReader RecordStart EmptyString [] records))
      as (field & record & Hrun & Hrec).
    { split; [left; reflexivity|reflexivity]. }
    cbn [csv_records csv_record] in Hrun, Hrec.
    change (join_lines (map render_line ((cell :: cells) :: next :: lines)))
      with (render_line (cell :: cells) +:+ String LF EmptyString
            +:+ join_lines (map render_line (next :: lines))).
    rewrite csv_run_app, Hrun.
    change (csv_run (mkCsvReader QuoteSeen field record records)
              (String LF EmptyString +:+ join_lines (map render_line (next :: lines))))
      with (csv_run (mkCsvReader RecordStart EmptyString []
                       (records ++ [(record ++ [field])%list])%list)
              (join_lines (map render_line (next :: lines)))).
    rewrite (IH next Hrest). rewrite Hrec. cbn [csv_record app].
    rewrite <- app_assoc. reflexivity.
Qed.

(** What [buildCsvDocument] writes is read back as the header texts and,
    row by row, the texts of the cells. *)
Lemma buildCsvDocument_parse (inherited : string -> Cell) (rows : list Row)
    (headers : list Header) :
  match buildCsvDocument inherited rows headers with
  | Threw _ => headers = []
  | Returned document =>
      headers <> [] /\
      parseCsv document
      = Some (map header_text headers
              :: map (fun row => map (cell_text inherited row) headers) rows)
  end.
Proof.
  destruct headers as [|header headers]; [reflexivity|].
  unfold buildCsvDocument.
  set (hs := header :: headers).
  assert (Hline : forall (f : Header -> string),
             join_cells (map (fun h => csvEscapeValue (Some (f h))) hs)
             = render_line (map f hs)).
  { intros f. unfold render_line. rewrite map_map. reflexivity. }
  cbv iota. fold hs.
  destruct rows as [|row rows].
  - split; [discriminate|].
    unfold parseCsv. rewrite Hline.
    destruct (csv_run_line (map header_text headers) (header_text header)
                (mkCsvReader RecordStart EmptyString [] []))
      as (field & record & Hrun & Hrec).
    { split; [left; reflexivity|reflexivity]. }
    change (map header_text hs) with (header_text header :: map header_text headers).
    rewrite csv_run_app, Hrun.
    unfold csv_finish. simpl. simpl in Hrec. rewrite Hrec. reflexivity.
  - split; [discriminate|].
    unfold parseCsv. rewrite Hline.
    set (rs := row :: rows).
    assert (Hdata : map (fun r => join_cells
                       (map (fun h => csvEscapeValue
                                        (Some (cell_text inherited r h))) hs)) rs
                    = map render_line
                        (map (fun r => map (cell_text inherited r) hs) rs)).
    { rewrite map_map. apply map_ext. intros r. apply Hline. }
    rewrite Hdata.
    change (render_line (map header_text hs)
            :: map render_line (map (fun r => map (cell_text inherited r) hs) rs))
      with (map render_line
              (map header_text hs
               :: map (fun r => map (cell_text inherited r) hs) rs)).
    rewrite csv_run_lines; [reflexivity|].
    constructor; [discriminate|].
    apply List.Forall_forall. intros l Hl. apply in_map_iff in Hl.
    destruct Hl as (r & <- & _). discriminate.
Qed.

Lemma lookup_map {A B : Type} (f : A -> B) (l : list A) (i : nat) :
  map f l !! i = f <$> l !! i.
Proof.
  revert i. induction l as [|x l IH]; intros [|i]; try reflexivity.
  cbn [map]. apply IH.
Qed.

(** C7.  [buildCsvDocument] fails only without headers.  Otherwise, reading
    its document back as CSV gives one record of labels and one record per
    row, each with one field per header.  The label of a header is its
    label, or its key when it has no label or an empty one.  The field of a
    row under a header is the value the row holds under the key of the
    header, byte for byte, and the empty text where it holds null; for a
    key the row does not hold it is the text of the property the row
    inherits, empty where it inherits none; and under a header with a
    formatter it is what the formatter makes of that value and the row. *)
Theorem buildCsvDocument_round_trip (inherited : string -> Cell)
    (rows : list Row) (headers : list Header) :
  match buildCsvDocument inherited rows headers with
  | Threw _ => headers = []
  | Returned document =>
      headers <> [] /\
      exists labels lines,
        parseCsv document = Some (labels :: lines)
        /\ length labels = length headers
        /\ length lines = length rows
        /\ (forall (j : nat) header,
              headers !! j = Some header ->
              labels !! j
              = Some (match label header with
                      | Some "" | None => key header
                      | Some text => text
                      end))
        /\ (forall (i : nat) row,
              rows !! i = Some row ->
              exists line,
                lines !! i = Some line
                /\ length line = length headers
                /\ forall (j : nat) header,
                     headers !! j = Some header ->
                     line !! j
                     = Some (let stored :=
                               match row !! key header with
                               | Some value => value
                               | None => inherited (key header)
                               end in
                             match (match formatter header with
                                    | Some format => format stored row
                                    | None => stored
                                    end) with
                             | Some text => text
                             | None => ""
                             end))
  end.
Proof.
  pose proof (buildCsvDocument_parse inherited rows headers) as Hparse.
  destruct (buildCsvDocument inherited rows headers) as [message|document];
    [exact Hparse|].
  destruct Hparse as [Hne Hparse]. split; [exact Hne|].
  exists (map header_text headers),
         (map (fun row => map (cell_text inherited row) headers) rows).
  split; [exact Hparse|].
  split; [apply length_map|].
  split; [apply length_map|].
  split.
  - intros j header Hj. rewrite lookup_map, Hj. cbn [fmap option_fmap option_map].
    f_equal. unfold header_text.
    destruct (label header) as [[|c text]|]; reflexivity.
  - intros i row Hi.
    exists (map (cell_text inherited row) headers).
    split; [rewrite lookup_map, Hi; reflexivity|].
    split; [apply length_map|].
    intros j header Hj. rewrite lookup_map, Hj. reflexivity.
Qed.

Lemma buildCsvDocument_round_trip_witness :
  match buildCsvDocument plain_object_inherited example_rows example_headers with
  | Threw _ => False
  | Returned document =>
      exists labels lines line,
        parseCsv document = Some (labels :: lines)
        /\ lines !! 1%nat = Some line
        /\ line !! 0%nat = Some "Ravi"
        /\ line !! 1%nat = Some ""
        /\ line !! 2%nat = Some "function toString() { [native code] }"
  end.
Proof.
  pose proof (buildCsvDocument_round_trip plain_object_inherited example_rows
                example_headers) as H.
  destruct (buildCsvDocument plain_object_inherited example_rows example_headers)
    as [message|document]; [discriminate H|].
  destruct H as (_ & labels & lines & Hparse & _ & _ & _ & Hcells).
  destruct (Hcells 1%nat (<["name" := Some "Ravi"]> (<["note" := None]> ∅))
              eq_refl) as (line & Hline & _ & Hcell).
  exists labels, lines, line.
  split; [exact Hparse|]. split; [exact Hline|].
  split; [|split].
  - rewrite (Hcell 0%nat (mkHeader "name" (Some "Name") None) eq_refl).
    vm_compute. reflexivity.
  - rewrite (Hcell 1%nat (mkHeader "note" None None) eq_refl).
    vm_compute. reflexivity.
  - rewrite (Hcell 2%nat (mkHeader "toString" None None) eq_refl).
    vm_compute. reflexivity.
Defined.

Example buildCsvDocument_example :
  match buildCsvDocument plain_object_inherited example_rows example_headers with
  | Threw _ => False
  | Returned document =>
      parseCsv document
      = Some [ ["Name"; "note"; "toString"];
               ["Asha " +:+ String dquote ("A" +:+ String dquote ", ward 2");
                "late" +:+ String LF "shift";
                "function toString() { [native code] }"];
               ["Ravi"; ""; "function toString() { [native code] }"] ]
  end.
Proof. vm_compute. reflexivity. Qed.

Example computeCropRegion_examples :
  (* a face in the middle of a 1000 x 800 frame *)
  computeCropRegion (Some (mkBoundingBox (1 # 5) (3 # 10) (1 # 10) (1 # 10)))
    1000 800 defaultPaddingRatio
  = Some (Crop.mkRegion 50 20 300 360)
  (* a box that sticks out to the right and below is clipped *)
  /\ computeCropRegion (Some (mkBoundingBox (1 # 2) (1 # 2) (4 # 5) (4 # 5)))
       1000 800 defaultPaddingRatio
     = Some (Crop.mkRegion 675 540 325 260)
  (* a box that starts beyond the frame gives nothing *)
  /\ computeCropRegion (Some (mkBoundingBox (1 # 5) (1 # 5) (3 # 2) (1 # 10)))
       1000 800 defaultPaddingRatio
     = None
  /\ computeCropRegion None 1000 800 defaultPaddingRatio = None
  /\ computeCropRegion (Some (mkBoundingBox (1 # 5) (1 # 5) 0 0)) 0 800
       defaultPaddingRatio = None.
Proof. vm_compute. repeat split; reflexivity. Qed.

Lemma groupAttendance_duplicates_and_success_witness :
  exists rj,
    group_results
      (snd (groupAttendance group_db 1000 800 19522 IN two_faces_one_employee))
      !! 1%nat = Some rj /\
    face_status rj = Duplicate /\ employeeId rj = Some 100 /\
    attendanceId rj = None /\
    fst (groupAttendance group_db 1000 800 19522 IN
           (take 2 two_faces_one_employee))
    = fst (groupAttendance group_db 1000 800 19522 IN
             (take 1 two_faces_one_employee)).
Proof.
  destruct (groupAttendance_duplicates_and_success group_db 1000 800 19522 IN
              two_faces_one_employee) as (_ & Hdup & _).
  eexists. split; [vm_compute; reflexivity|].
  apply (Hdup 0%nat 1%nat
           (mkFaceDetail (Some (mkBoundingBox (1 # 5) (3 # 10) (3 # 5) (1 # 10)))
              true (Matched (Some 100)) None 5001)
           (mkFaceResult 1 Punched (Some 100) (Some 1) (Some 5000) None)
           _ 100).
  - lia.
  - reflexivity.
  - unfold resolves_to. split; [vm_compute; discriminate|]. split; reflexivity.
  - vm_compute. reflexivity.
  - split; [reflexivity|left; reflexivity].
  - vm_compute. reflexivity.
Defined.

(** *** The permission set and the scope middlewares *)

Lemma add_permission_row_set (payload : PermissionPayload) (row : PermissionRow)
    (key : string) :
  key ∈ permissionSet (add_permission_row payload row) <->
  key = row_key row \/ key ∈ permissionSet payload.
Proof.
  unfold add_permission_row. cbn [permissionSet].
  rewrite elem_of_union, elem_of_singleton. tauto.
Qed.

Lemma permissionSet_elem (rows : list PermissionRow) (key : string) :
  key ∈ permissionSet (build_permission_payload rows)
  <-> exists row, In row rows /\ row_key row = key.
Proof.
  unfold build_permission_payload.
  induction rows as [|row rows IH] using rev_ind.
  - simpl. split; [intros H; apply elem_of_empty in H; destruct H|].
    intros (row & [] & _).
  - rewrite fold_left_app. cbn [fold_left].
    rewrite add_permission_row_set, IH. split.
    + intros [->|(r & Hr & Hk)].
      * exists row. split; [apply in_or_app; right; left; reflexivity|reflexivity].
      * exists r. split; [apply in_or_app; left; exact Hr|exact Hk].
    + intros (r & Hr & Hk). apply in_app_or in Hr.
      destruct Hr as [Hr|[<-|[]]]; [right; eauto|left; auto].
Qed.



(** A scope of the city map is never empty: it is [all] or it has an id. *)
Lemma cityMap_scope_not_empty (rows : list PermissionRow) (key : string)
    (s : Scope) :
  cityMap (build_permission_payload rows) !! key = Some s ->
  all s = true \/ ids s <> [].
Proof.
  intros Hs.
  pose proof (build_permission_payload_describes rows key) as Hd.
  rewrite Hs in Hd. simpl in Hd.
  destruct Hd as ((row & Hin & Hk) & Hall & _ & Hids).
  destruct (all s) eqn:Ha; [left; reflexivity|right].
  destruct (city_id row) as [c|] eqn:Hc.
  - assert (Hc' : c ∈ ids s) by (apply (Hids eq_refl); eauto).
    intros Hnil. rewrite Hnil in Hc'. apply elem_of_nil in Hc'. exact Hc'.
  - assert (Habs : false = true) by (apply Hall; eauto).
    discriminate Habs.
Qed.

Lemma attachCityScope_request (st : RbacState) (req : Request) :
  snd (fst (attachCityScope st req))
  = mkRequest (req_user req)
      (Some (snd (buildCityScopeForUser st (req_user req))))
      (req_permissionScopes req).
Proof.
  unfold attachCityScope.
  destruct (buildCityScopeForUser st (req_user req)); reflexivity.
Qed.

(** X2.  After [attachCityScope], [requireCityScope] lets a request pass exactly
    when it carries a user id, or when an admin role is allowed an empty
    scope: a user with an id never gets the 403, whatever the grants. *)
Theorem requireCityScope_after_attach (st : RbacState) (req : Request)
    (allowEmptyForAdmin : bool) (Hcoh : cache_coherent st) :
  let req' := snd (fst (attachCityScope st req)) in
  (requireCityScope allowEmptyForAdmin req' = Next
   <-> exists user, req_user req = Some user /\
         (user_id user <> 0 \/
          (allowEmptyForAdmin = true /\ role_is_admin (Some user) = true)))
  /\ (requireCityScope allowEmptyForAdmin req' <> Next ->
      requireCityScope allowEmptyForAdmin req'
      = Respond 403 "No city access assigned. Please contact admin.").
Proof.
  intros req'.
  split.
  2:{ unfold requireCityScope.
      destruct (all _); [intros H; contradiction|].
      destruct (0 <? length _)%nat; [intros H; contradiction|].
      destruct (allowEmptyForAdmin && _); [intros H; contradiction|reflexivity]. }
  subst req'. rewrite attachCityScope_request.
  destruct req as [ruser rscope rperms]. cbn [req_user req_cityScope req_permissionScopes].
  destruct ruser as [user|].
  - destruct (Z.eq_dec (user_id user) 0) as [Hz|Hnz].
    + replace (snd (buildCityScopeForUser st (Some user))) with (mkScope false [])
        by (unfold buildCityScopeForUser; rewrite Hz; reflexivity).
      unfold requireCityScope. cbn [req_cityScope req_user all ids].
      change ((0 <? length (@nil Z))%nat) with false. cbv iota.
      destruct (allowEmptyForAdmin && role_is_admin (Some user)) eqn:E.
      * apply andb_true_iff in E. destruct E as [Ea Er].
        split; [intros _|reflexivity].
        exists user. split; [reflexivity|]. right. split; assumption.
      * split; [discriminate|].
        intros (u & Heq & [Hne|[Ha Hr]]); injection Heq as <-.
        -- contradiction.
        -- rewrite Ha, Hr in E. discriminate.
    + assert (Hscope : all (snd (buildCityScopeForUser st (Some user))) = true \/
                       ids (snd (buildCityScopeForUser st (Some user))) <> []).
      { destruct (is_admin user) eqn:Hadmin.
        - left. unfold buildCityScopeForUser.
          replace (user_id user =? 0) with false
            by (symmetry; apply Z.eqb_neq; exact Hnz).
          rewrite Hadmin. reflexivity.
        - rewrite (buildCityScopeForUser_not_admin st user Hcoh Hnz Hadmin).
          destruct (cityMap _ !! CITY_PERMISSION_KEY) as [s|] eqn:Hs;
            [|left; reflexivity].
          destruct (cityMap_scope_not_empty _ _ _ Hs) as [Ha|Hi].
          + left. unfold normalizeScope. rewrite Ha. reflexivity.
          + unfold normalizeScope. destruct (all s); [left; reflexivity|].
            right. exact Hi. }
      destruct (buildCityScopeForUser st (Some user)) as [st' scope].
      cbn [snd fst] in *. unfold requireCityScope. cbn [req_cityScope req_user].
      split; [intros _; exists user; split; [reflexivity|left; exact Hnz]|].
      intros _. destruct Hscope as [Ha|Hi].
      * rewrite Ha. reflexivity.
      * destruct (all scope); [reflexivity|].
        destruct (ids scope); [contradiction|reflexivity].
  - unfold requireCityScope. cbn [req_cityScope req_user buildCityScopeForUser snd all ids].
    change ((0 <? length (@nil Z))%nat) with false. cbv iota.
    cbn [role_is_admin]. rewrite andb_false_r. split; [discriminate|].
    intros (u & Heq & _). discriminate.
Qed.

Lemma requireCityScope_after_attach_witness :
  requireCityScope false
    (snd (fst (attachCityScope scoped_user_state
                 (mkRequest (Some scoped_user) None ∅)))) = Next.
Proof.
  assert (Hcoh : cache_coherent scoped_user_state).
  { intros userId payload H. simpl in H. rewrite lookup_empty in H. discriminate. }
  apply (requireCityScope_after_attach scoped_user_state
           (mkRequest (Some scoped_user) None ∅) false Hcoh).
  exists scoped_user. split; [reflexivity|]. left. simpl. lia.
Defined.

(** *** The permission cache *)

Lemma fetchUserPermissions_cached (st : RbacState) (userId : Z) :
  userId <> 0 ->
  permissionCache (fst (fetchUserPermissions st userId))
    !! (userId, cacheVersion st)
  = Some (snd (fetchUserPermissions st userId))
  /\ cacheVersion (fst (fetchUserPermissions st userId)) = cacheVersion st
  /\ rbac_db (fst (fetchUserPermissions st userId)) = rbac_db st.
Proof.
  intros Hid. unfold fetchUserPermissions.
  replace (userId =? 0) with false by (symmetry; apply Z.eqb_neq; exact Hid).
  destruct (permissionCache st !! (userId, cacheVersion st)) as [payload|] eqn:Hc.
  - cbn [fst snd]. auto.
  - cbn [fst snd permissionCache cacheVersion rbac_db].
    rewrite lookup_insert_eq. auto.
Qed.

(** X3.  The payload of a user is memoised under the cache version: once
    fetched, the same payload is returned with no change of state whatever
    the tables hold by then, until [invalidatePermissionCache], after which
    the payload is built from the tables as they are.  A coherent cache
    stays coherent. *)
Theorem fetchUserPermissions_memoised (st : RbacState) (userId : Z)
    (Hid : userId <> 0) :
  let st1 := fst (fetchUserPermissions st userId) in
  let payload := snd (fetchUserPermissions st userId) in
  (forall db',
      let st2 := mkRbacState db' (permissionCache st1) (cacheVersion st1) in
      fetchUserPermissions st2 userId = (st2, payload)
      /\ snd (fetchUserPermissions (invalidatePermissionCache st2) userId)
         = build_permission_payload (permission_rows db' userId))
  /\ (cache_coherent st -> cache_coherent st1).
Proof.
  intros st1 payload.
  destruct (fetchUserPermissions_cached st userId Hid) as (Hhit & Hver & Hdb).
  fold st1 in Hhit, Hver, Hdb. fold payload in Hhit.
  assert (Hz : (userId =? 0) = false) by (apply Z.eqb_neq; exact Hid).
  split.
  - intros db' st2. split.
    + unfold fetchUserPermissions. rewrite Hz.
      cbn [permissionCache cacheVersion st2]. rewrite Hver, Hhit. reflexivity.
    + unfold fetchUserPermissions, invalidatePermissionCache. rewrite Hz.
      cbn [permissionCache cacheVersion rbac_db st2].
      rewrite lookup_empty. reflexivity.
  - intros Hcoh uid p Hp. rewrite Hver in Hp. rewrite Hdb.
    unfold st1, fetchUserPermissions in Hp. rewrite Hz in Hp.
    destruct (permissionCache st !! (userId, cacheVersion st)) as [cached|] eqn:Hc.
    + cbn [fst] in Hp. exact (Hcoh uid p Hp).
    + cbn [fst permissionCache] in Hp.
      destruct (Z.eq_dec uid userId) as [->|Hne].
      * rewrite lookup_insert_eq in Hp. injection Hp as <-. reflexivity.
      * rewrite lookup_insert_ne in Hp by congruence. exact (Hcoh uid p Hp).
Qed.

Lemma fetchUserPermissions_memoised_witness :
  fetchUserPermissions
    (mkRbacState (mkRbacDb [] [] [] [] [])
       (permissionCache (fst (fetchUserPermissions scoped_user_state 5)))
       (cacheVersion (fst (fetchUserPermissions scoped_user_state 5)))) 5
  = (mkRbacState (mkRbacDb [] [] [] [] [])
       (permissionCache (fst (fetchUserPermissions scoped_user_state 5)))
       (cacheVersion (fst (fetchUserPermissions scoped_user_state 5))),
     snd (fetchUserPermissions scoped_user_state 5)).
Proof.
  assert (Hid : 5 <> 0) by lia.
  destruct (fetchUserPermissions_memoised scoped_user_state 5 Hid) as [H _].
  destruct (H (mkRbacDb [] [] [] [] [])) as [Hsame _]. exact Hsame.
Defined.

(** *** Authorization of a handler *)

Lemma authorize_not_admin (m a : string) (st : RbacState) (req : Request)
    (user : User) :
  req_user req = Some user -> user_id user <> 0 ->
  role_is_exactly_admin user = false -> cache_coherent st ->
  let payload :=
    build_permission_payload (permission_rows (rbac_db st) (user_id user)) in
  let key := permission_key m a in
  authorize m a st req
  = if bool_decide (key ∈ permissionSet payload) then
      (fst (fetchUserPermissions st (user_id user)),
       mkRequest (req_user req) (req_cityScope req)
         match req_permissionScopes req !! key with
         | Some _ => req_permissionScopes req
         | None =>
             match cityMap payload !! key with
             | Some scope =>
                 <[key := mkScope (all scope) (ids scope)]>
                   (req_permissionScopes req)
             | None => req_permissionScopes req
             end
         end, Next)
    else (fst (fetchUserPermissions st (user_id user)), req,
          Respond 403 "Forbidden: missing permission").
Proof.
  intros Hu Hid Hna Hcoh payload key.
  unfold authorize. rewrite Hu.
  replace (user_id user =? 0) with false by (symmetry; apply Z.eqb_neq; exact Hid).
  rewrite Hna.
  pose proof (fetchUserPermissions_payload st (user_id user) Hcoh Hid) as Hp.
  destruct (fetchUserPermissions st (user_id user)) as [st' p].
  cbn [fst snd] in *. subst p. reflexivity.
Qed.



(** X5.  With the permission cache coherent with the tables: a user who is
    not an admin and holds city:view may access a city
    exactly when one of the user's city:view grants is for all cities or
    for that city; a city id that is no number is refused unless a grant is
    for all cities. *)
Theorem assertCityAccess_of_grants (st : RbacState) (user : User)
    (cityId : option Z)
    (Hcoh : cache_coherent st) (Hid : user_id user <> 0)
    (Hadmin : is_admin user = false)
    (Hholds : holds_permission (rbac_db st) (user_id user) CITY_PERMISSION_KEY) :
  let scope := snd (buildCityScopeForUser st (Some user)) in
  assertCityAccess (Some scope) cityId = true <->
  holds_for_all_cities (rbac_db st) (user_id user) CITY_PERMISSION_KEY
  \/ exists city, cityId = Some city /\
       city ∈ permission_cities (rbac_db st) (user_id user) CITY_PERMISSION_KEY.
Proof.
  intros scope. unfold scope.
  rewrite (buildCityScopeForUser_not_admin st user Hcoh Hid Hadmin).
  pose proof (build_permission_payload_describes
                (permission_rows (rbac_db st) (user_id user))
                CITY_PERMISSION_KEY) as Hd.
  destruct (cityMap _ !! CITY_PERMISSION_KEY) as [s|]; simpl in Hd.
  - destruct Hd as (_ & Hall & Hclear & Hids).
    unfold normalizeScope, assertCityAccess, holds_for_all_cities.
    destruct (all s) eqn:Ha; cbn [all ids].
    + split; [intros _; left; apply Hall; reflexivity|reflexivity].
    + destruct cityId as [c|].
      * rewrite bool_decide_eq_true. rewrite (Hids eq_refl c). split.
        -- intros H. right. exists c. split; [reflexivity|].
           apply permission_cities_elem. exact H.
        -- intros [H|(city & Heq & Hc)].
           ++ apply Hall in H. discriminate.
           ++ injection Heq as <-. apply permission_cities_elem in Hc. exact Hc.
      * split; [discriminate|].
        intros [H|(city & Heq & _)]; [apply Hall in H|]; discriminate.
  - destruct Hholds as (row & Hin & Hk). exfalso. exact (Hd row Hin Hk).
Qed.

Lemma assertCityAccess_of_grants_witness :
  assertCityAccess
    (Some (snd (buildCityScopeForUser scoped_user_state (Some scoped_user))))
    (Some 7) = true.
Proof.
  assert (Hcoh : cache_coherent scoped_user_state).
  { intros userId payload H. simpl in H. rewrite lookup_empty in H. discriminate. }
  assert (Hid : user_id scoped_user <> 0) by (simpl; lia).
  apply (assertCityAccess_of_grants scoped_user_state scoped_user (Some 7)
           Hcoh Hid eq_refl).
  - exists (mkPermissionRow "city" "view" (Some 7)).
    split; [left; reflexivity|reflexivity].
  - right. exists 7. split; [reflexivity|].
    unfold permission_cities. apply elem_of_list_to_set. vm_compute. left.
Defined.

(** *** Explicit city access *)

(** The loop of [normalizeCityIds] keeps [seen] equal to the numbers kept,
    keeps them distinct, and only appends. *)
Lemma normalizeCityIds_fold (cityIds : list (option Z)) :
  forall (seen : gset Z) (kept : list Z),
    seen = list_to_set kept -> NoDup kept ->
    forall acc, acc = fold_left normalizeCityIds_step cityIds (seen, kept) ->
    fst acc = list_to_set (snd acc) /\ NoDup (snd acc) /\
    (forall v, v ∈ snd acc <-> v ∈ kept \/ Some v ∈ cityIds) /\
    exists added, snd acc = (kept ++ added)%list /\
                  sublist added (omap id cityIds).
Proof.
  induction cityIds as [|raw rest IH]; intros seen kept Hseen Hnd acc ->.
  - cbn. split; [exact Hseen|]. split; [exact Hnd|]. split.
    + intros v. split; [auto|]. intros [H|H]; [exact H|].
      apply elem_of_nil in H. destruct H.
    + exists []. rewrite app_nil_r. split; [reflexivity|constructor].
  - cbn [fold_left].
    destruct raw as [value|].
    + destruct (decide (value ∈ seen)) as [Hin|Hin].
      * replace (normalizeCityIds_step (seen, kept) (Some value)) with (seen, kept)
          by (unfold normalizeCityIds_step; cbn [fst snd];
              rewrite bool_decide_eq_true_2 by assumption; reflexivity).
        destruct (IH seen kept Hseen Hnd _ eq_refl) as (H1 & H2 & H3 & added & H4 & H5).
        split; [exact H1|]. split; [exact H2|]. split.
        -- intros v. rewrite H3, elem_of_cons. split.
           ++ intros [H|H]; auto.
           ++ intros [H|[H|H]]; auto.
              injection H as ->. left. rewrite Hseen in Hin.
              apply elem_of_list_to_set in Hin. exact Hin.
        -- exists added. split; [exact H4|].
           cbn [omap list_omap id]. apply sublist_cons. exact H5.
      * replace (normalizeCityIds_step (seen, kept) (Some value))
          with ({[value]} ∪ seen, (kept ++ [value])%list)
          by (unfold normalizeCityIds_step; cbn [fst snd];
              rewrite bool_decide_eq_false_2 by assumption; reflexivity).
        assert (Hnot : value ∉ kept).
        { rewrite Hseen in Hin. intros H. apply Hin, elem_of_list_to_set, H. }
        assert (Hseen' : {[value]} ∪ seen =@{gset Z} list_to_set (kept ++ [value])).
        { apply set_eq. intros x.
          rewrite Hseen, list_to_set_app_L, !elem_of_union, !elem_of_list_to_set,
            list_elem_of_singleton, elem_of_singleton. tauto. }
        assert (Hnd' : NoDup (kept ++ [value])).
        { apply NoDup_app. split; [exact Hnd|]. split.
          - intros x Hx Hx'. apply list_elem_of_singleton in Hx'. subst x.
            exact (Hnot Hx).
          - apply NoDup_singleton. }
        destruct (IH ({[value]} ∪ seen) (kept ++ [value])%list Hseen' Hnd' _ eq_refl)
          as (H1 & H2 & H3 & added & H4 & H5).
        split; [exact H1|]. split; [exact H2|]. split.
        -- intros v. rewrite H3, elem_of_app, list_elem_of_singleton, elem_of_cons.
           split.
           ++ intros [[H| ->]|H]; auto.
           ++ intros [H|[H|H]]; auto. injection H as ->. auto.
        -- exists (value :: added). split.
           ++ rewrite H4, <- app_assoc. reflexivity.
           ++ cbn [omap list_omap id]. apply sublist_skip. exact H5.
    + change (normalizeCityIds_step (seen, kept) None) with (seen, kept).
      destruct (IH seen kept Hseen Hnd _ eq_refl) as (H1 & H2 & H3 & added & H4 & H5).
      split; [exact H1|]. split; [exact H2|]. split.
      * intros v. rewrite H3, elem_of_cons. split.
        -- intros [H|H]; auto.
        -- intros [H|[H|H]]; auto. discriminate.
      * exists added. split; [exact H4|]. exact H5.
Qed.

Lemma normalizeCityIds_elem (cityIds : list (option Z)) (v : Z) :
  v ∈ normalizeCityIds cityIds <-> Some v ∈ cityIds.
Proof.
  unfold normalizeCityIds.
  destruct (normalizeCityIds_fold cityIds ∅ [] eq_refl (NoDup_nil_2) _ eq_refl)
    as (_ & _ & H & _).
  rewrite H. split; [|auto]. intros [Hn|Hs]; [|exact Hs].
  apply elem_of_nil in Hn. destruct Hn.
Qed.

Lemma normalizeCityIds_NoDup (cityIds : list (option Z)) :
  NoDup (normalizeCityIds cityIds).
Proof.
  unfold normalizeCityIds.
  destruct (normalizeCityIds_fold cityIds ∅ [] eq_refl (NoDup_nil_2) _ eq_refl)
    as (_ & H & _). exact H.
Qed.

Lemma normalizeCityIds_fold_distinct (ids : list Z) :
  forall (seen : gset Z) (kept : list Z),
    seen = list_to_set kept -> NoDup (kept ++ ids) ->
    snd (fold_left normalizeCityIds_step (map Some ids) (seen, kept))
    = (kept ++ ids)%list.
Proof.
  induction ids as [|i ids IH]; intros seen kept Hseen Hnd.
  - cbn. rewrite app_nil_r. reflexivity.
  - cbn [map fold_left].
    apply NoDup_app in Hnd. destruct Hnd as (Hk & Hdisj & Hids).
    apply NoDup_cons in Hids. destruct Hids as [Hi Hids].
    destruct (decide (i ∈ seen)) as [Hin|Hin].
    + exfalso. rewrite Hseen in Hin. apply elem_of_list_to_set in Hin.
      apply (Hdisj i Hin). left.
    + replace (normalizeCityIds_step (seen, kept) (Some i))
        with ({[i]} ∪ seen, (kept ++ [i])%list)
        by (unfold normalizeCityIds_step; cbn [fst snd];
            rewrite bool_decide_eq_false_2 by assumption; reflexivity).
      rewrite (IH ({[i]} ∪ seen) (kept ++ [i])%list).
      * rewrite <- app_assoc. reflexivity.
      * apply set_eq. intros x.
        rewrite Hseen, list_to_set_app_L, !elem_of_union, !elem_of_list_to_set,
          list_elem_of_singleton, elem_of_singleton. tauto.
      * rewrite <- app_assoc. cbn. apply NoDup_app. split; [exact Hk|].
        split; [exact Hdisj|]. apply NoDup_cons. split; assumption.
Qed.

Lemma normalizeCityIds_distinct (ids : list Z) :
  NoDup ids -> normalizeCityIds (map Some ids) = ids.
Proof.
  intros Hnd. unfold normalizeCityIds.
  apply (normalizeCityIds_fold_distinct ids ∅ [] eq_refl Hnd).
Qed.

Lemma normalizeCityIds_fold_without (cityIds : list (option Z)) (S : gset Z) :
  forall (seen : gset Z) (kept : list Z),
    snd (fold_left normalizeCityIds_step cityIds
           (S ∪ seen, filter (λ x, x ∉ S) kept))
    = filter (λ x, x ∉ S)
        (snd (fold_left normalizeCityIds_step cityIds (seen, kept))).
Proof.
  induction cityIds as [|[value|] rest IH]; intros seen kept.
  - reflexivity.
  - cbn [fold_left]. unfold normalizeCityIds_step at 2 4. cbn [fst snd].
    destruct (decide (value ∈ seen)) as [Hseen|Hseen].
    + rewrite (bool_decide_eq_true_2 (value ∈ seen)) by exact Hseen.
      rewrite (bool_decide_eq_true_2 (value ∈ S ∪ seen)) by set_solver.
      apply IH.
    + rewrite (bool_decide_eq_false_2 (value ∈ seen)) by exact Hseen.
      destruct (decide (value ∈ S)) as [HS|HS].
      * rewrite (bool_decide_eq_true_2 (value ∈ S ∪ seen)) by set_solver.
        rewrite <- IH.
        replace (S ∪ ({[value]} ∪ seen)) with (S ∪ seen) by set_solver.
        rewrite filter_app.
        replace (filter (λ x, x ∉ S) [value]) with (@nil Z).
        -- rewrite app_nil_r. reflexivity.
        -- rewrite filter_cons_False; [reflexivity|]. intros H. exact (H HS).
      * rewrite (bool_decide_eq_false_2 (value ∈ S ∪ seen)) by set_solver.
        rewrite <- IH.
        replace (S ∪ ({[value]} ∪ seen)) with ({[value]} ∪ (S ∪ seen)) by set_solver.
        rewrite filter_app.
        replace (filter (λ x, x ∉ S) [value]) with [value]; [reflexivity|].
        rewrite filter_cons_True by exact HS. reflexivity.
  - cbn [fold_left]. apply IH.
Qed.

Lemma normalizeCityIds_fold_kept (cityIds : list (option Z)) :
  forall (seen : gset Z) (kept : list Z),
    snd (fold_left normalizeCityIds_step cityIds (seen, kept))
    = (kept ++ snd (fold_left normalizeCityIds_step cityIds (seen, [])))%list.
Proof.
  induction cityIds as [|[value|] rest IH]; intros seen kept.
  - cbn. rewrite app_nil_r. reflexivity.
  - cbn [fold_left]. unfold normalizeCityIds_step at 2 4. cbn [fst snd].
    destruct (bool_decide (value ∈ seen)).
    + apply IH.
    + rewrite (IH _ (kept ++ [value])%list), (IH _ ([] ++ [value])%list).
      rewrite <- app_assoc. reflexivity.
  - cbn [fold_left]. apply IH.
Qed.

Lemma normalizeCityIds_cons (value : Z) (rest : list (option Z)) :
  normalizeCityIds (Some value :: rest)
  = value :: filter (λ x, x ≠ value) (normalizeCityIds rest).
Proof.
  unfold normalizeCityIds. cbn [fold_left].
  unfold normalizeCityIds_step at 2. cbn [fst snd].
  rewrite bool_decide_eq_false_2 by set_solver.
  rewrite normalizeCityIds_fold_kept. cbn [app]. f_equal.
  pose proof (normalizeCityIds_fold_without rest {[value]} ∅ []) as H.
  replace ({[value]} ∪ ∅ : gset Z) with ({[value]} ∪ ∅ ∪ ∅ : gset Z) by set_solver.
  replace ({[value]} ∪ ∅ ∪ ∅ : gset Z) with ({[value]} ∪ ∅ : gset Z) in * by set_solver.
  cbn in H. rewrite H.
  apply list_filter_iff. intros x. set_solver.
Qed.

(** X6.  [normalizeCityIds] returns the finite numbers of its input, each once,
    in the order of their first occurrence: a finite number at the head of
    the input comes first and is removed from what the rest gives, an entry
    that is not a finite number is passed over.  Normalising the result
    again changes nothing. *)
Theorem normalizeCityIds_distinct_finite (cityIds : list (option Z)) :
  NoDup (normalizeCityIds cityIds)
  /\ (forall v, v ∈ normalizeCityIds cityIds <-> Some v ∈ cityIds)
  /\ sublist (normalizeCityIds cityIds) (omap id cityIds)
  /\ normalizeCityIds (map Some (normalizeCityIds cityIds))
     = normalizeCityIds cityIds
  /\ normalizeCityIds [] = []
  /\ (forall rest, normalizeCityIds (None :: rest) = normalizeCityIds rest)
  /\ (forall value rest,
        normalizeCityIds (Some value :: rest)
        = value :: filter (λ x, x ≠ value) (normalizeCityIds rest)).
Proof.
  split; [apply normalizeCityIds_NoDup|].
  split; [apply normalizeCityIds_elem|].
  split.
  { unfold normalizeCityIds.
    destruct (normalizeCityIds_fold cityIds ∅ [] eq_refl (NoDup_nil_2) _ eq_refl)
      as (_ & _ & _ & added & Heq & Hsub).
    rewrite Heq. exact Hsub. }
  split; [apply normalizeCityIds_distinct, normalizeCityIds_NoDup|].
  split; [reflexivity|].
  split; [reflexivity|].
  apply normalizeCityIds_cons.
Qed.

Lemma user_grant_ids_elem (db : AccessDb) (userId c : Z) :
  c ∈ normalizeCityIds
        (map (fun g => Some (uca_city_id g))
             (List.filter (fun g => uca_user_id g =? userId)
                          (acc_user_city_access db)))
  <-> In (mkUserCityAccess userId c) (acc_user_city_access db).
Proof.
  rewrite normalizeCityIds_elem, list_elem_of_In, in_map_iff. split.
  - intros (g & Hg & Hin). apply filter_In in Hin. destruct Hin as [Hin Hu].
    apply Z.eqb_eq in Hu. injection Hg as <-. destruct g as [u c']. simpl in *.
    subst u. exact Hin.
  - intros Hin. exists (mkUserCityAccess userId c). split; [reflexivity|].
    apply filter_In. split; [exact Hin|]. simpl. apply Z.eqb_refl.
Qed.

Lemma classic_grant (db : AccessDb) (userId : Z) :
  has_city_grant db userId \/ ~ has_city_grant db userId.
Proof.
  unfold has_city_grant.
  destruct (existsb (fun g => uca_user_id g =? userId) (acc_user_city_access db))
    eqn:E.
  - left. apply existsb_exists in E. destruct E as (g & Hg & Hu).
    exists g. split; [exact Hg|apply Z.eqb_eq, Hu].
  - right. intros (g & Hg & Hu).
    assert (H : existsb (fun g => uca_user_id g =? userId)
                        (acc_user_city_access db) = true).
    { apply existsb_exists. exists g. split; [exact Hg|apply Z.eqb_eq, Hu]. }
    rewrite H in E. discriminate.
Qed.

(** The payload a lookup computes when the cache does not answer. *)
Lemma fetchUserCityAccess_computed (st : CityAccessState) (user : UserRef)
    (allowAssignmentsFallback : bool) :
  UserRef_id user <> 0 -> UserRef_is_admin user = false ->
  (allowAssignmentsFallback = true ->
   cityAccessCache st !! (UserRef_id user, cityAccessVersion st) = None) ->
  let db := access_db st in
  let ids :=
    normalizeCityIds
      (map (fun g => Some (uca_city_id g))
           (List.filter (fun g => uca_user_id g =? UserRef_id user)
                        (acc_user_city_access db))) in
  snd (fetchUserCityAccess st user allowAssignmentsFallback)
  = if allowAssignmentsFallback && (length ids =? 0)%nat then
      if (0 <? length (fetchCitiesFromAssignments db (UserRef_id user)))%nat
      then mkScope false (fetchCitiesFromAssignments db (UserRef_id user))
      else mkScope false ids
    else mkScope false ids.
Proof.
  intros Hid Hna Hmiss db ids. unfold fetchUserCityAccess.
  replace (UserRef_id user =? 0) with false by (symmetry; apply Z.eqb_neq; exact Hid).
  rewrite Hna. fold db. fold ids.
  destruct allowAssignmentsFallback.
  - rewrite (Hmiss eq_refl). cbn [andb].
    destruct (length ids =? 0)%nat; [|reflexivity].
    destruct (0 <? length _)%nat; reflexivity.
  - reflexivity.
Qed.

Lemma fetchUserCityAccess_coherent (st : CityAccessState) (user : UserRef)
    (allowAssignmentsFallback : bool) :
  city_cache_coherent st ->
  UserRef_id user <> 0 -> UserRef_is_admin user = false ->
  snd (fetchUserCityAccess st user allowAssignmentsFallback)
  = snd (fetchUserCityAccess
           (mkCityAccessState (access_db st) ∅ (cityAccessVersion st))
           (UserNumber (UserRef_id user)) allowAssignmentsFallback).
Proof.
  intros Hcoh Hid Hna.
  rewrite (fetchUserCityAccess_computed
             (mkCityAccessState (access_db st) ∅ (cityAccessVersion st))
             (UserNumber (UserRef_id user)) allowAssignmentsFallback Hid eq_refl)
    by (intros _; apply lookup_empty).
  cbn [access_db UserRef_id].
  destruct allowAssignmentsFallback.
  - destruct (cityAccessCache st !! (UserRef_id user, cityAccessVersion st))
      as [cached|] eqn:Hc.
    + unfold fetchUserCityAccess at 1.
      replace (UserRef_id user =? 0) with false
        by (symmetry; apply Z.eqb_neq; exact Hid).
      rewrite Hna, Hc. cbn [snd]. rewrite (Hcoh _ _ Hc).
      rewrite (fetchUserCityAccess_computed
                 (mkCityAccessState (access_db st) ∅ (cityAccessVersion st))
                 (UserNumber (UserRef_id user)) true Hid eq_refl)
        by (intros _; apply lookup_empty).
      reflexivity.
    + apply (fetchUserCityAccess_computed st user true Hid Hna). intros _. exact Hc.
  - apply (fetchUserCityAccess_computed st user false Hid Hna). discriminate.
Qed.

(** X7.  The city access of a user who is not an admin is never [all] and lists
    no city twice.  Explicit grants come first: when the user has any, the
    ids are the cities granted and the ward assignments are not looked at;
    without a grant the ids are the cities of the wards assigned to the
    user, if that fallback is allowed, and none otherwise. *)
Theorem fetchUserCityAccess_grants_before_assignments
    (st : CityAccessState) (user : UserRef) (allowAssignmentsFallback : bool)
    (Hcoh : city_cache_coherent st)
    (Hid : UserRef_id user <> 0) (Hna : UserRef_is_admin user = false) :
  let db := access_db st in
  let userId := UserRef_id user in
  let scope := snd (fetchUserCityAccess st user allowAssignmentsFallback) in
  all scope = false
  /\ NoDup (ids scope)
  /\ (has_city_grant db userId ->
      forall c, c ∈ ids scope <->
                In (mkUserCityAccess userId c) (acc_user_city_access db))
  /\ (~ has_city_grant db userId ->
      (allowAssignmentsFallback = true ->
         forall c, c ∈ ids scope <-> In c (assignment_city_rows db userId))
      /\ (allowAssignmentsFallback = false -> ids scope = [])).
Proof.
  intros db userId scope. unfold scope.
  rewrite (fetchUserCityAccess_coherent st user allowAssignmentsFallback Hcoh Hid Hna).
  rewrite (fetchUserCityAccess_computed
             (mkCityAccessState (access_db st) ∅ (cityAccessVersion st))
             (UserNumber (UserRef_id user)) allowAssignmentsFallback Hid eq_refl)
    by (intros _; apply lookup_empty).
  cbn [access_db UserRef_id]. fold db userId.
  set (granted := normalizeCityIds
                    (map (fun g => Some (uca_city_id g))
                         (List.filter (fun g => uca_user_id g =? userId)
                                      (acc_user_city_access db)))).
  assert (Hgranted : forall c, c ∈ granted <->
                       In (mkUserCityAccess userId c) (acc_user_city_access db))
    by (intros c; apply user_grant_ids_elem).
  assert (Hassign : forall c, c ∈ fetchCitiesFromAssignments db userId <->
                      In c (assignment_city_rows db userId)).
  { intros c. unfold fetchCitiesFromAssignments.
    replace (userId =? 0) with false by (symmetry; apply Z.eqb_neq; exact Hid).
    rewrite normalizeCityIds_elem, list_elem_of_In, in_map_iff. split.
    - intros (x & Hx & Hin). injection Hx as <-. exact Hin.
    - intros Hin. exists c. auto. }
  assert (Hnd_assign : NoDup (fetchCitiesFromAssignments db userId)).
  { unfold fetchCitiesFromAssignments. destruct (userId =? 0);
      [apply NoDup_nil_2|apply normalizeCityIds_NoDup]. }
  assert (Hempty : (length granted =? 0)%nat = true <-> ~ has_city_grant db userId).
  { rewrite Nat.eqb_eq. split.
    - intros Hlen (g & Hg & Hu). destruct g as [u c]. simpl in Hu. subst u.
      apply Hgranted in Hg. destruct granted; [|discriminate].
      apply elem_of_nil in Hg. exact Hg.
    - intros Hno. destruct granted as [|c l] eqn:Hl; [reflexivity|].
      exfalso. apply Hno. exists (mkUserCityAccess userId c).
      split; [|reflexivity]. apply Hgranted. left. }
  destruct (length granted =? 0)%nat eqn:Hlen.
  - assert (Hno : ~ has_city_grant db userId) by (apply Hempty; reflexivity).
    assert (Hnil : granted = []) by (apply Nat.eqb_eq in Hlen; destruct granted; [reflexivity|discriminate]).
    destruct allowAssignmentsFallback; cbn [andb].
    + destruct (fetchCitiesFromAssignments db userId) as [|a l] eqn:Ha;
        cbn [length Nat.ltb Nat.leb all ids].
      * split; [reflexivity|]. split; [rewrite Hnil; apply NoDup_nil_2|].
        split; [intros H; contradiction|]. intros _.
        split; [|discriminate]. intros _ c. rewrite <- Hassign, Hnil. reflexivity.
      * split; [reflexivity|]. split; [exact Hnd_assign|].
        split; [intros H; contradiction|]. intros _.
        split; [|discriminate]. intros _ c. apply Hassign.
    + cbn [all ids]. split; [reflexivity|]. split; [rewrite Hnil; apply NoDup_nil_2|].
      split; [intros H; contradiction|]. intros _.
      split; [discriminate|]. intros _. exact Hnil.
  - assert (Hyes : has_city_grant db userId).
    { destruct (classic_grant db userId) as [H|H]; [exact H|].
      apply Hempty in H. discriminate. }
    rewrite andb_false_r. cbn [all ids].
    split; [reflexivity|]. split; [apply normalizeCityIds_NoDup|].
    split; [intros _; exact Hgranted|]. intros H. contradiction.
Qed.

Lemma filter_user_kept (userId other : Z) (grants : list UserCityAccess)
    (ids : list Z) :
  List.filter (fun g => uca_user_id g =? other)
    (List.filter (fun g => negb (uca_user_id g =? userId)) grants
     ++ map (mkUserCityAccess userId) ids)%list
  = if other =? userId then map (mkUserCityAccess userId) ids
    else List.filter (fun g => uca_user_id g =? other) grants.
Proof.
  rewrite List.filter_app.
  assert (Hnew : List.filter (fun g => uca_user_id g =? other)
                   (map (mkUserCityAccess userId) ids)
                 = if other =? userId then map (mkUserCityAccess userId) ids
                   else []).
  { induction ids as [|i ids IH]; [destruct (other =? userId); reflexivity|].
    cbn [map List.filter uca_user_id]. rewrite IH.
    rewrite (Z.eqb_sym userId other). destruct (other =? userId); reflexivity. }
  rewrite Hnew. clear Hnew.
  induction grants as [|g grants IH].
  - cbn [List.filter app]. destruct (other =? userId); reflexivity.
  - cbn [List.filter].
    destruct (uca_user_id g =? userId) eqn:Hu; cbn [negb].
    + apply Z.eqb_eq in Hu. destruct (other =? userId) eqn:Ho.
      * exact IH.
      * rewrite IH. rewrite Hu, (Z.eqb_sym userId other), Ho. reflexivity.
    + cbn [List.filter]. destruct (other =? userId) eqn:Ho.
      * apply Z.eqb_eq in Ho. subst other. rewrite Hu. exact IH.
      * destruct (uca_user_id g =? other); cbn [app]; rewrite IH; reflexivity.
Qed.

Lemma syncUserCityAccess_returned (st st' : CityAccessState) (userId : Z)
    (cityIds : list (option Z)) :
  syncUserCityAccess st userId cityIds = (st', Returned tt) ->
  st' = invalidateCityAccessCache
          (mkCityAccessState
             (with_city_access (access_db st)
                (List.filter (fun g => negb (uca_user_id g =? userId))
                             (acc_user_city_access (access_db st))
                 ++ map (mkUserCityAccess userId) (normalizeCityIds cityIds))%list)
             (cityAccessCache st) (cityAccessVersion st)).
Proof.
  unfold syncUserCityAccess.
  destruct (length (normalizeCityIds cityIds) =? 0)%nat eqn:Hlen.
  - apply Nat.eqb_eq in Hlen.
    destruct (normalizeCityIds cityIds); [|discriminate].
    cbn [map]. rewrite app_nil_r. intros H. injection H as <-. reflexivity.
  - destruct (_ && _); [|discriminate]. intros H. injection H as <-. reflexivity.
Qed.

Lemma user_grant_ids_Permutation (db db' : AccessDb) (userId : Z) (ids : list Z) :
  NoDup ids ->
  (forall c, In (mkUserCityAccess userId c) (acc_user_city_access db) <-> c ∈ ids) ->
  normalizeCityIds
    (map (fun g => Some (uca_city_id g))
       (List.filter (fun g => uca_user_id g =? userId)
                    (acc_user_city_access db))) ≡ₚ ids.
Proof.
  intros Hnd Hin. apply NoDup_Permutation;
    [apply normalizeCityIds_NoDup|exact Hnd|].
  intros c. rewrite user_grant_ids_elem. apply Hin.
Qed.

(** X8.  After [syncUserCityAccess] has returned, the explicit city access of
    the user is made of the distinct finite ids that were passed, each once,
    whatever the user was granted before and in whatever order the table
    gives its rows back; the access of every other user is what it was; and
    the cache is empty under a new version. *)
Theorem syncUserCityAccess_then_fetchUserCityAccess
    (st st' : CityAccessState) (userId : Z) (cityIds : list (option Z))
    (rows : list UserCityAccess)
    (Hid : userId <> 0)
    (Hsync : syncUserCityAccess st userId cityIds = (st', Returned tt))
    (Hrows : rows ≡ₚ acc_user_city_access (access_db st')) :
  let stored :=
    mkCityAccessState (with_city_access (access_db st') rows)
      (cityAccessCache st') (cityAccessVersion st') in
  let fetched user fallback :=
    snd (fetchUserCityAccess stored (UserNumber user) fallback) in
  (all (fetched userId false) = false
   /\ ids (fetched userId false) ≡ₚ normalizeCityIds cityIds)
  /\ (normalizeCityIds cityIds <> [] ->
      all (fetched userId true) = false
      /\ ids (fetched userId true) ≡ₚ normalizeCityIds cityIds)
  /\ (forall other, other <> userId ->
      all (fetched other false)
      = all (snd (fetchUserCityAccess st (UserNumber other) false))
      /\ ids (fetched other false)
         ≡ₚ ids (snd (fetchUserCityAccess st (UserNumber other) false)))
  /\ cityAccessCache st' = ∅
  /\ cityAccessVersion st' = cityAccessVersion st + 1.
Proof.
  apply syncUserCityAccess_returned in Hsync. subst st'.
  cbn [access_db invalidateCityAccessCache with_city_access
       acc_user_city_access cityAccessCache cityAccessVersion] in *.
  set (given := normalizeCityIds cityIds).
  assert (Hmine : forall c, In (mkUserCityAccess userId c) rows <-> c ∈ given).
  { intros c. rewrite <- list_elem_of_In, Hrows, elem_of_app, !list_elem_of_In.
    rewrite filter_In, in_map_iff. cbn [uca_user_id]. rewrite Z.eqb_refl.
    split.
    - intros [[_ H]|(i & Hi & Hin)]; [discriminate|].
      injection Hi as ->. exact Hin.
    - intros Hc. right. exists c. split; [reflexivity|].
      exact Hc. }
  assert (Hown :
    normalizeCityIds
      (map (fun g => Some (uca_city_id g))
         (List.filter (fun g => uca_user_id g =? userId) rows)) ≡ₚ given).
  { apply (user_grant_ids_Permutation
             (with_city_access (access_db st) rows) (access_db st) userId given).
    - apply normalizeCityIds_NoDup.
    - exact Hmine. }
  split; [|split; [|split; [|split]]].
  - rewrite fetchUserCityAccess_computed; [|exact Hid|reflexivity|discriminate].
    cbn [andb access_db with_city_access acc_user_city_access UserRef_id
         all ids].
    split; [reflexivity|exact Hown].
  - intros Hne.
    rewrite fetchUserCityAccess_computed;
      [|exact Hid|reflexivity|intros _; apply lookup_empty].
    cbn [andb access_db with_city_access acc_user_city_access UserRef_id].
    destruct (length _ =? 0)%nat eqn:Hlen.
    + exfalso. apply Nat.eqb_eq in Hlen. apply Hne.
      apply Permutation_length in Hown. rewrite Hlen in Hown.
      symmetry in Hown. apply length_zero_iff_nil in Hown. exact Hown.
    + cbn [all ids]. split; [reflexivity|exact Hown].
  - intros other Hother.
    destruct (Z.eq_dec other 0) as [->|Ho0]; [split; reflexivity|].
    rewrite !fetchUserCityAccess_computed;
      [|exact Ho0|reflexivity|discriminate|exact Ho0|reflexivity|discriminate].
    cbn [andb access_db with_city_access acc_user_city_access UserRef_id
         all ids].
    split; [reflexivity|].
    apply (user_grant_ids_Permutation
             (with_city_access (access_db st) rows) (access_db st) other).
    + apply normalizeCityIds_NoDup.
    + intros c. rewrite user_grant_ids_elem.
      cbn [with_city_access acc_user_city_access].
      rewrite <- !list_elem_of_In, Hrows, elem_of_app, !list_elem_of_In.
      rewrite filter_In, in_map_iff. cbn [uca_user_id].
      replace (other =? userId) with false
        by (symmetry; apply Z.eqb_neq; exact Hother).
      split.
      * intros [[H _]|(i & Hi & _)]; [exact H|]. injection Hi as Hu _.
        exfalso. apply Hother. symmetry. exact Hu.
      * intros H. left. split; [exact H|reflexivity].
  - reflexivity.
  - reflexivity.
Qed.

Lemma syncUserCityAccess_then_fetchUserCityAccess_witness :
  exists st',
    syncUserCityAccess
      (mkCityAccessState
         (mkAccessDb [5; 6] [1; 2; 3] [] [] []
            [mkUserCityAccess 5 3; mkUserCityAccess 6 1])
         ∅ 0)
      5 [Some 2; None; Some 1; Some 2] = (st', Returned tt)
    /\ ids (snd (fetchUserCityAccess
                   (mkCityAccessState
                      (with_city_access (access_db st')
                         [mkUserCityAccess 5 1; mkUserCityAccess 6 1;
                          mkUserCityAccess 5 2])
                      (cityAccessCache st') (cityAccessVersion st'))
                   (UserNumber 5) false))
       ≡ₚ [2; 1].
Proof.
  eexists. split; [vm_compute; reflexivity|].
  refine (proj2 (proj1 (syncUserCityAccess_then_fetchUserCityAccess
                   (mkCityAccessState
                      (mkAccessDb [5; 6] [1; 2; 3] [] [] []
                         [mkUserCityAccess 5 3; mkUserCityAccess 6 1])
                      ∅ 0)
                   _ 5 [Some 2; None; Some 1; Some 2]
                   [mkUserCityAccess 5 1; mkUserCityAccess 6 1;
                    mkUserCityAccess 5 2] _ _ _))).
  - discriminate.
  - vm_compute. reflexivity.
  - cbn. etransitivity; [apply perm_swap|]. apply perm_skip.
    etransitivity; [apply perm_swap|]. reflexivity.
Defined.

(** X9.  A lookup of the city access changes neither the tables nor the version
    and keeps the cache coherent with the tables, and asking again gives the
    same access. *)
Theorem fetchUserCityAccess_keeps_cache_coherent
    (st : CityAccessState) (user : UserRef) (allowAssignmentsFallback : bool)
    (Hcoh : city_cache_coherent st) :
  let st' := fst (fetchUserCityAccess st user allowAssignmentsFallback) in
  access_db st' = access_db st
  /\ cityAccessVersion st' = cityAccessVersion st
  /\ city_cache_coherent st'
  /\ (forall again,
        snd (fetchUserCityAccess st' user again)
        = snd (fetchUserCityAccess st user again)).
Proof.
  intros st'.
  assert (Hfix : (UserRef_id user = 0 \/ UserRef_is_admin user = true)
                 -> forall s b, fetchUserCityAccess s user b
                   = (s, if UserRef_id user =? 0 then mkScope false []
                         else mkScope true [])).
  { intros Hc s b. unfold fetchUserCityAccess.
    destruct (UserRef_id user =? 0) eqn:Hz; [reflexivity|].
    destruct Hc as [Hc|Hc]; [apply Z.eqb_neq in Hz; contradiction|].
    rewrite Hc. reflexivity. }
  destruct (Z.eq_dec (UserRef_id user) 0) as [Hz|Hid].
  { unfold st'. rewrite (Hfix (or_introl Hz)). cbn [fst].
    repeat split; try assumption. }
  destruct (UserRef_is_admin user) eqn:Hna.
  { unfold st'. rewrite (Hfix (or_intror eq_refl)). cbn [fst].
    repeat split; try assumption. }
  assert (Hst' : access_db st' = access_db st
                 /\ cityAccessVersion st' = cityAccessVersion st
                 /\ city_cache_coherent st').
  { unfold st', fetchUserCityAccess.
    replace (UserRef_id user =? 0) with false
      by (symmetry; apply Z.eqb_neq; exact Hid).
    rewrite Hna. destruct allowAssignmentsFallback.
    - destruct (cityAccessCache st !! (UserRef_id user, cityAccessVersion st))
        as [cached|] eqn:Hc; cbn [fst].
      + repeat split; assumption.
      + cbn [access_db cityAccessVersion]. split; [reflexivity|].
        split; [reflexivity|].
        intros u cached. cbn [access_db cityAccessVersion cityAccessCache].
        destruct (Z.eq_dec u (UserRef_id user)) as [->|Hu].
        * rewrite lookup_insert_eq. intros H. injection H as <-.
          rewrite (fetchUserCityAccess_computed
                     (mkCityAccessState (access_db st) ∅ (cityAccessVersion st))
                     (UserNumber (UserRef_id user)) true Hid eq_refl)
            by (intros _; apply lookup_empty).
          reflexivity.
        * rewrite lookup_insert_ne by congruence. apply Hcoh.
    - cbn [fst]. repeat split; assumption. }
  destruct Hst' as (Hdb & Hver & Hcoh').
  split; [exact Hdb|]. split; [exact Hver|]. split; [exact Hcoh'|].
  intros again.
  rewrite (fetchUserCityAccess_coherent st' user again Hcoh' Hid Hna).
  rewrite (fetchUserCityAccess_coherent st user again Hcoh Hid Hna).
  rewrite Hdb, Hver. reflexivity.
Qed.

Lemma fetchUserCityAccess_keeps_cache_coherent_witness :
  city_cache_coherent
    (fst (fetchUserCityAccess
            (mkCityAccessState
               (mkAccessDb [5] [1; 2] [mkZoneRow 10 (Some 2)]
                  [mkWardRow 100 (Some 10)] [mkSupervisorWard 5 100] [])
               ∅ 0)
            (UserNumber 5) true)).
Proof.
  refine (proj1 (proj2 (proj2
    (fetchUserCityAccess_keeps_cache_coherent _ (UserNumber 5) true _)))).
  intros u cached H. cbn [cityAccessCache] in H.
  rewrite lookup_empty in H. discriminate.
Defined.

Lemma fetchUserCityAccess_grants_before_assignments_witness :
  ids (snd (fetchUserCityAccess
              (mkCityAccessState
                 (mkAccessDb [5] [1; 2] [mkZoneRow 10 (Some 2)]
                    [mkWardRow 100 (Some 10)] [mkSupervisorWard 5 100]
                    [mkUserCityAccess 5 1])
                 ∅ 0)
              (UserNumber 5) true)) = [1]
  /\ NoDup (ids (snd (fetchUserCityAccess
              (mkCityAccessState
                 (mkAccessDb [5] [1; 2] [mkZoneRow 10 (Some 2)]
                    [mkWardRow 100 (Some 10)] [mkSupervisorWard 5 100]
                    [mkUserCityAccess 5 1])
                 ∅ 0)
              (UserNumber 5) true))).
Proof.
  split; [vm_compute; reflexivity|].
  refine (proj1 (proj2
    (fetchUserCityAccess_grants_before_assignments _ (UserNumber 5) true _ _ _))).
  - intros u cached H. cbn [cityAccessCache] in H.
    rewrite lookup_empty in H. discriminate.
  - cbn. lia.
  - reflexivity.
Defined.

(** *** The attendance table under the punches *)

Lemma NoDup_map_eq {A B : Type} (f : A -> B) (l : list A) (x y : A) :
  NoDup (map f l) -> In x l -> In y l -> f x = f y -> x = y.
Proof.
  induction l as [|a l IH]; intros Hnd Hx Hy Hf; [destruct Hx|].
  cbn [map] in Hnd. apply NoDup_cons in Hnd. destruct Hnd as [Hna Hnd].
  rewrite list_elem_of_In in Hna.
  destruct Hx as [<-|Hx], Hy as [<-|Hy].
  - reflexivity.
  - exfalso. apply Hna. rewrite Hf. apply in_map, Hy.
  - exfalso. apply Hna. rewrite <- Hf. apply in_map, Hx.
  - apply IH; assumption.
Qed.

Lemma fetchAttendanceRecord_row (db : Db) (whereClause : AttendanceRow -> bool)
    (att : Attendance) :
  fetchAttendanceRecord db whereClause = Some att ->
  exists a, In a (tbl_attendance db) /\ whereClause a = true /\
    attendance_id att = a_attendance_id a /\
    punch_in_time att = a_punch_in_time a /\
    punch_out_time att = a_punch_out_time a.
Proof.
  unfold fetchAttendanceRecord. intros H.
  destruct (first_in_order _) as [j|] eqn:Hj; [|discriminate].
  cbn in H. injection H as <-.
  apply first_in_order_first in Hj. destruct Hj as [Hin _].
  apply filter_In in Hin. destruct Hin as [Hin Hw].
  exists (fst (fst j)). split; [apply joined_from_table, Hin|].
  split; [exact Hw|]. destruct j as [[a e] w]. repeat split.
Qed.

Lemma insert_attendance_keeps (db : Db) (emp date : Z) (ward : option Z) :
  let db' := fst (insert_attendance db emp date ward) in
  (attendance_keys_ok db -> attendance_keys_ok db')
  /\ (rows_punch_order_ok db -> rows_punch_order_ok db')
  /\ tbl_employee db' = tbl_employee db
  /\ tbl_designation db' = tbl_designation db
  /\ tbl_wards db' = tbl_wards db.
Proof.
  unfold insert_attendance.
  destruct (existsb _ _) eqn:Hex; cbn [fst].
  - split; [|split; [intros H; exact H|repeat split]].
    intros (Hid & Hkey & Hseq). split; [exact Hid|]. split; [exact Hkey|].
    intros a Ha. cbn [tbl_attendance attendance_seq] in *.
    specialize (Hseq a Ha). lia.
  - split; [|split; [|repeat split]].
    + intros (Hid & Hkey & Hseq). unfold attendance_keys_ok.
      cbn [tbl_attendance attendance_seq]. rewrite !List.map_app. cbn [map a_attendance_id a_emp_id a_date].
      split; [|split].
      * apply NoDup_app. split; [exact Hid|]. split; [|apply NoDup_singleton].
        intros x Hx Hx'. apply list_elem_of_In in Hx.
        apply list_elem_of_singleton in Hx'. subst x.
        apply in_map_iff in Hx. destruct Hx as (a & Ha & Hin).
        specialize (Hseq a Hin). lia.
      * apply NoDup_app. split; [exact Hkey|]. split; [|apply NoDup_singleton].
        intros x Hx Hx'. apply list_elem_of_In in Hx.
        apply list_elem_of_singleton in Hx'. subst x.
        apply in_map_iff in Hx. destruct Hx as (a & Ha & Hin).
        injection Ha as He Hd.
        assert (Ht : existsb (fun a => (a_emp_id a =? emp) && (a_date a =? date))
                             (tbl_attendance db) = true).
        { apply existsb_exists. exists a. split; [exact Hin|].
          rewrite He, Hd, !Z.eqb_refl. reflexivity. }
        rewrite Ht in Hex. discriminate.
      * intros a Ha. apply in_app_or in Ha. destruct Ha as [Ha|[<-|[]]].
        -- specialize (Hseq a Ha). lia.
        -- cbn [a_attendance_id]. lia.
    + intros Hord a Ha. cbn [tbl_attendance] in Ha.
      apply in_app_or in Ha. destruct Ha as [Ha|[<-|[]]].
      * apply Hord, Ha.
      * cbn [a_punch_out_time]. intros [x Hx]. discriminate.
Qed.

(** Where the record of [getOrCreateAttendanceRecord] comes from: a row of
    the table, with nothing written, or a new object without punch times
    after the INSERT was tried. *)
Lemma getOrCreateAttendanceRecord_source (db db1 : Db) (today emp : Z)
    (date : option Z) (punchType : option PunchType) (createIfMissing : bool)
    (att : Attendance) :
  getOrCreateAttendanceRecord db today emp date punchType createIfMissing
  = (db1, Returned (Some att)) ->
  (db1 = db /\
   exists a, In a (tbl_attendance db) /\
     attendance_id att = a_attendance_id a /\
     punch_in_time att = a_punch_in_time a /\
     punch_out_time att = a_punch_out_time a)
  \/ (punch_in_time att = None /\ punch_out_time att = None).
Proof.
  unfold getOrCreateAttendanceRecord.
  set (targetDate := match date with Some d => d | None => today end).
  destruct (fetchAttendanceRecord db _) as [attendance|] eqn:Hfetch.
  - destruct (is_OUT punchType && _).
    + destruct (fetchRecentOpenAttendance db emp (Some targetDate))
        as [carried|] eqn:Hcarried; intros H; injection H as <- <-; left;
        (split; [reflexivity|]).
      * unfold fetchRecentOpenAttendance in Hcarried.
        destruct (emp =? 0); [discriminate|].
        apply fetchAttendanceRecord_row in Hcarried.
        destruct Hcarried as (a & Ha & _ & H). exists a. split; assumption.
      * apply fetchAttendanceRecord_row in Hfetch.
        destruct Hfetch as (a & Ha & _ & H). exists a. split; assumption.
    + intros H; injection H as <- <-; left. split; [reflexivity|].
      apply fetchAttendanceRecord_row in Hfetch.
      destruct Hfetch as (a & Ha & _ & H). exists a. split; assumption.
  - destruct (is_OUT punchType && true) eqn:Hout.
    + destruct (fetchRecentOpenAttendance db emp (Some targetDate))
        as [carried|] eqn:Hcarried.
      * intros H; injection H as <- <-; left. split; [reflexivity|].
        unfold fetchRecentOpenAttendance in Hcarried.
        destruct (emp =? 0); [discriminate|].
        apply fetchAttendanceRecord_row in Hcarried.
        destruct Hcarried as (a & Ha & _ & H). exists a. split; assumption.
      * destruct (negb createIfMissing && is_OUT punchType); [discriminate|].
        destruct (emp =? 0); [discriminate|].
        destruct (insert_attendance _ _ _ _) as [db' inserted].
        destruct (match inserted with Some row => Some row | None => _ end);
          [|discriminate].
        intros H; injection H as <- <-. right. split; reflexivity.
    + destruct (negb createIfMissing && is_OUT punchType); [discriminate|].
      destruct (emp =? 0); [discriminate|].
      destruct (insert_attendance _ _ _ _) as [db' inserted].
      destruct (match inserted with Some row => Some row | None => _ end);
        [|discriminate].
      intros H; injection H as <- <-. right. split; reflexivity.
Qed.

(** What [getOrCreateAttendanceRecord] does to the tables: nothing, or the
    INSERT; and nothing for a punch OUT that may not create. *)
Lemma getOrCreateAttendanceRecord_db (db : Db) (today emp : Z)
    (date : option Z) (punchType : option PunchType) (createIfMissing : bool) :
  let db1 := fst (getOrCreateAttendanceRecord db today emp date punchType
                    createIfMissing) in
  (db1 = db \/ exists d w, db1 = fst (insert_attendance db emp d w))
  /\ (createIfMissing = false -> punchType = Some OUT -> db1 = db).
Proof.
  unfold getOrCreateAttendanceRecord.
  set (targetDate := match date with Some d => d | None => today end).
  destruct (fetchAttendanceRecord db _) as [attendance|].
  - destruct (if is_OUT punchType && _ then _ else None);
      cbn [fst]; split; auto.
  - destruct (if is_OUT punchType && true then _ else None);
      [cbn [fst]; split; auto|].
    destruct (negb createIfMissing && is_OUT punchType) eqn:Hc;
      [cbn [fst]; split; auto|].
    destruct (emp =? 0); [cbn [fst]; split; auto|].
    match goal with
    | |- context [insert_attendance db emp targetDate ?w] =>
        pose proof (eq_refl (insert_attendance db emp targetDate w)) as Hins;
        destruct (insert_attendance db emp targetDate w) as [db' inserted] eqn:E
    end.
    assert (Hdb' : db' = fst (insert_attendance db emp targetDate
                     match List.filter (fun e => e_emp_id e =? emp) (tbl_employee db) with
                     | [] => None
                     | e :: _ => e_ward_id e
                     end)) by (rewrite E; reflexivity).
    split.
    + right. eexists _, _.
      destruct (match inserted with Some row => Some row | None => _ end);
        cbn [fst]; exact Hdb'.
    + intros -> ->. discriminate.
Qed.

Lemma update_attendance_keeps (db : Db) (attendanceId : Z)
    (punchType : PunchType) (now : Z) :
  let db' := fst (update_attendance db attendanceId punchType now) in
  (attendance_keys_ok db -> attendance_keys_ok db')
  /\ tbl_employee db' = tbl_employee db
  /\ tbl_designation db' = tbl_designation db
  /\ tbl_wards db' = tbl_wards db
  /\ (rows_punch_order_ok db ->
      (punchType = OUT ->
       forall a, In a (tbl_attendance db) -> a_attendance_id a = attendanceId ->
                 is_Some (a_punch_in_time a)) ->
      rows_punch_order_ok db').
Proof.
  unfold update_attendance. cbn [fst].
  set (f := fun a => if a_attendance_id a =? attendanceId
                     then stamp punchType now a else a).
  assert (Hid : forall a, a_attendance_id (f a) = a_attendance_id a)
    by (intros a; unfold f; destruct (_ =? _), punchType; reflexivity).
  assert (Hkey : forall a, (a_emp_id (f a), a_date (f a)) = (a_emp_id a, a_date a))
    by (intros a; unfold f; destruct (_ =? _), punchType; reflexivity).
  split; [|split; [reflexivity|split; [reflexivity|split; [reflexivity|]]]].
  - intros (Hnd & Hnk & Hseq). unfold attendance_keys_ok.
    cbn [tbl_attendance attendance_seq]. rewrite !map_map.
    rewrite (map_ext _ _ Hid), (map_ext _ _ Hkey).
    split; [exact Hnd|]. split; [exact Hnk|].
    intros a' Ha'. apply in_map_iff in Ha'. destruct Ha' as (a & <- & Ha).
    rewrite Hid. apply Hseq, Ha.
  - intros Hord Hout a' Ha'. cbn [tbl_attendance] in Ha'.
    apply in_map_iff in Ha'. destruct Ha' as (a & <- & Ha).
    unfold f. destruct (a_attendance_id a =? attendanceId) eqn:Heq.
    + apply Z.eqb_eq in Heq. destruct punchType; cbn [stamp a_punch_out_time a_punch_in_time].
      * intros _. eexists; reflexivity.
      * intros _. apply (Hout eq_refl a Ha Heq).
    + apply Hord, Ha.
Qed.

Lemma validatePunchAttempt_accepts (att : Attendance) (punchType : PunchType) :
  validatePunchAttempt (Some att) punchType = None ->
  match punchType with
  | IN => punch_in_time att = None
  | OUT => is_Some (punch_in_time att) /\ punch_out_time att = None
  end.
Proof.
  unfold validatePunchAttempt.
  destruct punchType; cbn [PunchType_eqb andb].
  - case_bool_decide as Hin; [discriminate|]. intros _.
    apply eq_None_not_Some, Hin.
  - case_bool_decide as Hout; [discriminate|].
    case_bool_decide as Hin; cbn [negb]; [|discriminate]. intros _.
    split; [exact Hin|apply eq_None_not_Some, Hout].
Qed.

(** One face of a group frame leaves the tables alone, or runs
    [getOrCreateAttendanceRecord] and then, on a record that passed
    validation, at most the UPDATE of [processPunch]. *)
Lemma processFace_db (imageWidth imageHeight attendanceDate : Z)
    (punchType : PunchType) (st : LoopState) (index : Z) (f : FaceDetail) :
  let st' := processFace imageWidth imageHeight attendanceDate punchType st
               index f in
  loop_db st' = loop_db st
  \/ exists emp db1 r,
       getOrCreateAttendanceRecord (loop_db st) attendanceDate emp
         (Some attendanceDate) (Some punchType)
         (negb (PunchType_eqb punchType OUT)) = (db1, r)
       /\ (loop_db st' = db1
           \/ exists att now,
                r = Returned (Some att)
                /\ validatePunchAttempt (Some att) punchType = None
                /\ loop_db st'
                   = fst (update_attendance db1 (attendance_id att) punchType now)).
Proof.
  unfold processFace.
  destruct (computeCropRegion _ _ _ _); [|left; reflexivity].
  destruct (negb (extracted f)); [left; reflexivity|].
  destruct (searched f) as [msg| |[emp|]]; try (left; reflexivity).
  case_bool_decide; [left; reflexivity|].
  destruct (getOrCreateAttendanceRecord _ _ _ _ _ _) as [db1 got] eqn:Hget.
  right. exists emp, db1, got. split; [exact Hget|].
  destruct got as [msg|att]; [left; reflexivity|].
  destruct (validatePunchAttempt att punchType) as [v|] eqn:Hval;
    [left; reflexivity|].
  destruct att as [att|]; [|left; reflexivity].
  unfold processPunch.
  destruct (punch_failure f); [left; reflexivity|].
  right. exists att, (punch_clock f). split; [reflexivity|].
  split; [exact Hval|].
  destruct (update_attendance db1 (attendance_id att) punchType (punch_clock f))
    as [db2 rows] eqn:Hup.
  destruct rows; reflexivity.
Qed.

Lemma processFace_keeps (imageWidth imageHeight attendanceDate : Z)
    (punchType : PunchType) (st : LoopState) (index : Z) (f : FaceDetail) :
  let db := loop_db st in
  let db' := loop_db (processFace imageWidth imageHeight attendanceDate
                        punchType st index f) in
  attendance_keys_ok db -> rows_punch_order_ok db ->
  attendance_keys_ok db' /\ rows_punch_order_ok db'
  /\ tbl_employee db' = tbl_employee db
  /\ tbl_designation db' = tbl_designation db
  /\ tbl_wards db' = tbl_wards db.
Proof.
  intros db db' Hkeys Hord.
  destruct (processFace_db imageWidth imageHeight attendanceDate punchType
              st index f) as [Hsame|(emp & db1 & r & Hget & Hrest)].
  { unfold db'. rewrite Hsame.
    split; [exact Hkeys|]. split; [exact Hord|]. repeat split. }
  fold db in Hget.
  assert (H1 : attendance_keys_ok db1 /\ rows_punch_order_ok db1
               /\ tbl_employee db1 = tbl_employee db
               /\ tbl_designation db1 = tbl_designation db
               /\ tbl_wards db1 = tbl_wards db).
  { destruct (getOrCreateAttendanceRecord_db db attendanceDate emp
                (Some attendanceDate) (Some punchType)
                (negb (PunchType_eqb punchType OUT))) as [Hdb _].
    rewrite Hget in Hdb. cbn [fst] in Hdb.
    destruct Hdb as [->|(d & w & ->)];
      [split; [exact Hkeys|]; split; [exact Hord|]; repeat split|].
    destruct (insert_attendance_keeps db emp d w) as (Hk & Ho & He & Hd & Hw).
    split; [exact (Hk Hkeys)|]. split; [exact (Ho Hord)|].
    repeat split; assumption. }
  destruct H1 as (Hkeys1 & Hord1 & He1 & Hd1 & Hw1).
  destruct Hrest as [Hdb'|(att & now & -> & Hval & Hdb')]; fold db' in Hdb'.
  { rewrite Hdb'. split; [exact Hkeys1|]. split; [exact Hord1|].
    repeat split; assumption. }
  destruct (update_attendance_keeps db1 (attendance_id att) punchType now)
    as (Hk & He & Hd & Hw & Ho).
  rewrite Hdb'. split; [exact (Hk Hkeys1)|].
  split; [|rewrite He, Hd, Hw; repeat split; assumption].
  apply (Ho Hord1). intros -> a Ha Hid.
  apply validatePunchAttempt_accepts in Hval. destruct Hval as [Hin Hout].
  apply getOrCreateAttendanceRecord_source in Hget.
  destruct Hget as [(-> & a0 & Ha0 & Hid0 & Hin0 & Hout0)|[Hnone _]].
  - assert (a = a0).
    { apply (NoDup_map_eq a_attendance_id (tbl_attendance db));
        [apply Hkeys|exact Ha|exact Ha0|congruence]. }
    subst a0. rewrite <- Hin0. exact Hin.
  - rewrite Hnone in Hin. destruct Hin; discriminate.
Qed.

Lemma faceLoop_keeps (imageWidth imageHeight attendanceDate : Z)
    (punchType : PunchType) (faceDetails : list FaceDetail) :
  forall (index : Z) (st : LoopState),
  let db := loop_db st in
  let db' := loop_db (faceLoop imageWidth imageHeight attendanceDate punchType
                        faceDetails index st) in
  attendance_keys_ok db -> rows_punch_order_ok db ->
  attendance_keys_ok db' /\ rows_punch_order_ok db'
  /\ tbl_employee db' = tbl_employee db
  /\ tbl_designation db' = tbl_designation db
  /\ tbl_wards db' = tbl_wards db.
Proof.
  induction faceDetails as [|f rest IH]; intros index st db db' Hkeys Horder.
  - split; [exact Hkeys|]. split; [exact Horder|]. repeat split.
  - unfold db'. cbn [faceLoop].
    destruct (processFace_keeps imageWidth imageHeight attendanceDate punchType
                st index f Hkeys Horder) as (Hk & Ho & He & Hd & Hw).
    destruct (IH (index + 1) _ Hk Ho) as (Hk' & Ho' & He' & Hd' & Hw').
    split; [exact Hk'|]. split; [exact Ho'|].
    rewrite He', Hd', Hw'. repeat split; assumption.
Qed.

(** X11.  Group mode keeps the attendance table well formed: the attendance ids
    and the pairs of employee and date stay unique, no id passes the
    sequence, and wherever a row has a punch-out it has a punch-in. *)
Theorem groupAttendance_keeps_attendance_table
    (db : Db) (imageWidth imageHeight attendanceDate : Z)
    (punchType : PunchType) (faceDetails : list FaceDetail)
    (Hkeys : attendance_keys_ok db) (Horder : rows_punch_order_ok db) :
  let db' := fst (groupAttendance db imageWidth imageHeight attendanceDate
                    punchType faceDetails) in
  attendance_keys_ok db' /\ rows_punch_order_ok db'.
Proof.
  unfold groupAttendance. cbn [fst].
  destruct (faceLoop_keeps imageWidth imageHeight attendanceDate punchType
              faceDetails 0 (mkLoopState db ∅ []) Hkeys Horder)
    as (Hkeys' & Horder' & _).
  split; [exact Hkeys'|exact Horder'].
Qed.

Lemma groupAttendance_keeps_attendance_table_witness :
  rows_punch_order_ok
    (fst (groupAttendance group_db 1000 1000 19523 IN two_faces_one_employee)).
Proof.
  refine (proj2
    (groupAttendance_keeps_attendance_table group_db 1000 1000 19523 IN
       two_faces_one_employee _ _)).
  - split; [apply NoDup_nil_2|]. split; [apply NoDup_nil_2|].
    intros a [].
  - intros a [].
Defined.

Lemma closes_trans (a b c : AttendanceRow) : closes a b -> closes b c -> closes a c.
Proof.
  intros [->|(Hin & Hout & now & ->)] Hbc; [exact Hbc|].
  destruct Hbc as [->|(_ & Hout' & _)].
  - right. split; [exact Hin|]. split; [exact Hout|]. exists now. reflexivity.
  - discriminate Hout'.
Qed.

Lemma Forall2_closes_trans (l1 l2 l3 : list AttendanceRow) :
  Forall2 closes l1 l2 -> Forall2 closes l2 l3 -> Forall2 closes l1 l3.
Proof.
  intros H12. revert l3. induction H12 as [|a b l1 l2 Hab H12 IH]; intros l3 H23.
  - inversion H23. constructor.
  - inversion H23 as [|b' c l2' l3' Hbc H23']; subst.
    constructor; [exact (closes_trans a b c Hab Hbc)|apply IH, H23'].
Qed.

Lemma Forall2_closes_refl (l : list AttendanceRow) : Forall2 closes l l.
Proof. induction l; constructor; [left; reflexivity|assumption]. Qed.

Lemma Forall2_closes_ids (l l' : list AttendanceRow) :
  Forall2 closes l l' -> map a_attendance_id l' = map a_attendance_id l.
Proof.
  induction 1 as [|a a' l l' Ha _ IH]; [reflexivity|].
  cbn [map]. rewrite IH. f_equal.
  destruct Ha as [->|(_ & _ & now & ->)]; reflexivity.
Qed.

Lemma Forall2_map_In {A B : Type} (R : A -> B -> Prop) (f : A -> B) (l : list A) :
  (forall a, In a l -> R a (f a)) -> Forall2 R l (map f l).
Proof.
  induction l as [|a l IH]; intros H; cbn [map]; constructor.
  - apply H. left. reflexivity.
  - apply IH. intros b Hb. apply H. right. exact Hb.
Qed.

Lemma processFace_punch_out_closes (imageWidth imageHeight attendanceDate : Z)
    (st : LoopState) (index : Z) (f : FaceDetail) :
  let db := loop_db st in
  let db' := loop_db (processFace imageWidth imageHeight attendanceDate OUT
                        st index f) in
  NoDup (map a_attendance_id (tbl_attendance db)) ->
  Forall2 closes (tbl_attendance db) (tbl_attendance db')
  /\ attendance_seq db' = attendance_seq db.
Proof.
  intros db db' Hnd.
  destruct (processFace_db imageWidth imageHeight attendanceDate OUT st index f)
    as [Hsame|(emp & db1 & got & Hget & Hrest)]; fold db' in Hsame || fold db'.
  { rewrite Hsame. split; [apply Forall2_closes_refl|reflexivity]. }
  fold db in Hget.
  assert (Hdb1 : db1 = db).
  { destruct (getOrCreateAttendanceRecord_db db attendanceDate emp
                (Some attendanceDate) (Some OUT) (negb (PunchType_eqb OUT OUT)))
      as [_ Hout].
    rewrite Hget in Hout. apply Hout; reflexivity. }
  subst db1.
  destruct Hrest as [Hdb'|(att & now & -> & Hval & Hdb')]; fold db' in Hdb'.
  { rewrite Hdb'. split; [apply Forall2_closes_refl|reflexivity]. }
  rewrite Hdb'. unfold update_attendance.
  cbn [fst tbl_attendance attendance_seq]. split; [|reflexivity].
  apply validatePunchAttempt_accepts in Hval. destruct Hval as [Hin Hout].
  apply getOrCreateAttendanceRecord_source in Hget.
  destruct Hget as [(_ & a0 & Ha0 & Hid0 & Hin0 & Hout0)|[Hnone _]];
    [|rewrite Hnone in Hin; destruct Hin; discriminate].
  apply (Forall2_map_In closes). intros a Ha.
  destruct (a_attendance_id a =? attendance_id att) eqn:Heq; [|left; reflexivity].
  apply Z.eqb_eq in Heq.
  assert (a = a0).
  { apply (NoDup_map_eq a_attendance_id (tbl_attendance db));
      [exact Hnd|exact Ha|exact Ha0|congruence]. }
  subst a0. right. rewrite <- Hin0, <- Hout0.
  split; [exact Hin|]. split; [exact Hout|]. exists now. reflexivity.
Qed.

(** X12.  In group mode a punch OUT adds no attendance row and draws no id: the
    table after has the rows of the table before, in their order, each left
    as it was or closed, that is, a row that had a punch-in and no punch-out
    and now has a punch-out and nothing else changed. *)
Theorem groupAttendance_punch_out_only_closes
    (db : Db) (imageWidth imageHeight attendanceDate : Z)
    (faceDetails : list FaceDetail)
    (Hids : NoDup (map a_attendance_id (tbl_attendance db))) :
  let db' := fst (groupAttendance db imageWidth imageHeight attendanceDate OUT
                    faceDetails) in
  Forall2 closes (tbl_attendance db) (tbl_attendance db')
  /\ attendance_seq db' = attendance_seq db.
Proof.
  unfold groupAttendance. cbn [fst].
  change db with (loop_db (mkLoopState db ∅ [])) in Hids.
  change (tbl_attendance db) with (tbl_attendance (loop_db (mkLoopState db ∅ []))).
  change (attendance_seq db) with (attendance_seq (loop_db (mkLoopState db ∅ []))).
  generalize dependent (mkLoopState db ∅ []). generalize 0.
  induction faceDetails as [|f rest IH]; intros index st Hids.
  - split; [apply Forall2_closes_refl|reflexivity].
  - cbn [faceLoop].
    destruct (processFace_punch_out_closes imageWidth imageHeight attendanceDate
                st index f Hids) as [Hstep Hseq].
    assert (Hids' : NoDup (map a_attendance_id
              (tbl_attendance (loop_db (processFace imageWidth imageHeight
                 attendanceDate OUT st index f)))))
      by (rewrite (Forall2_closes_ids _ _ Hstep); exact Hids).
    destruct (IH (index + 1) _ Hids') as [Hrest Hseq'].
    split; [exact (Forall2_closes_trans _ _ _ Hstep Hrest)|].
    rewrite Hseq', Hseq. reflexivity.
Qed.

Lemma groupAttendance_punch_out_only_closes_witness :
  Forall2 closes (tbl_attendance carry_forward_db)
    (tbl_attendance
       (fst (groupAttendance carry_forward_db 1000 1000 19523 OUT
               [mkFaceDetail (Some (mkBoundingBox (1 # 5) (3 # 10) (1 # 10) (1 # 10)))
                  true (Matched (Some 3)) None 5000])))
  /\ tbl_attendance
       (fst (groupAttendance carry_forward_db 1000 1000 19523 OUT
               [mkFaceDetail (Some (mkBoundingBox (1 # 5) (3 # 10) (1 # 10) (1 # 10)))
                  true (Matched (Some 3)) None 5000]))
     = [mkAttendanceRow 11 3 19522 (Some 1) (Some 1000) (Some 5000)].
Proof.
  split; [|vm_compute; reflexivity].
  refine (proj1 (groupAttendance_punch_out_only_closes carry_forward_db 1000 1000
                   19523 _ _)).
  cbn. apply NoDup_singleton.
Defined.

(** *** The manual punch *)

Lemma putAttendance_db (db : Db) (now : Z) (id : option Z)
    (punch_type : string) (location_given : bool) (failure : option string) :
  let db' := fst (putAttendance db now id punch_type location_given failure) in
  db' = db
  \/ exists attendanceId row rest,
       id = Some attendanceId
       /\ List.filter (fun a => a_attendance_id a =? attendanceId)
                      (tbl_attendance db) = row :: rest
       /\ (punch_type = PunchType_name OUT ->
           is_Some (a_punch_in_time row) /\ a_punch_out_time row = None)
       /\ punch_type <> ""
       /\ db' = fst (update_attendance db attendanceId
                       (stamped_columns punch_type) now).
Proof.
  unfold putAttendance.
  destruct id as [attendanceId|]; [|left; reflexivity].
  destruct (String.eqb punch_type "") eqn:Hempty; [left; reflexivity|].
  cbn [orb]. destruct (negb location_given); [left; reflexivity|].
  destruct (List.filter _ _) as [|row rest] eqn:Hrows; [left; reflexivity|].
  destruct (String.eqb punch_type (PunchType_name IN) && _);
    [left; reflexivity|].
  destruct (String.eqb punch_type (PunchType_name OUT)) eqn:Hout; cbn [andb].
  - case_bool_decide as Hpo; [left; reflexivity|].
    case_bool_decide as Hpi; cbn [negb]; [|left; reflexivity].
    unfold processPunch. destruct failure; [left; reflexivity|].
    right. exists attendanceId, row, rest. split; [reflexivity|].
    split; [exact Hrows|].
    split; [intros _; split; [exact Hpi|apply eq_None_not_Some, Hpo]|].
    split; [intros ->; discriminate|].
    destruct (update_attendance db attendanceId (stamped_columns punch_type) now)
      as [db2 rows]. destruct rows; reflexivity.
  - unfold processPunch. destruct failure; [left; reflexivity|].
    right. exists attendanceId, row, rest. split; [reflexivity|].
    split; [exact Hrows|].
    split; [intros ->; discriminate|].
    split; [intros ->; discriminate|].
    destruct (update_attendance db attendanceId (stamped_columns punch_type) now)
      as [db2 rows]. destruct rows; reflexivity.
Qed.

(** X13.  For the punch types [IN] and [OUT], [PUT /] decides as
    [validatePunchAttempt] does on the row with the id: it answers with the
    status and error of the validation when that rejects, writing nothing,
    and runs [processPunch] when it accepts. *)
Theorem putAttendance_validates_as_validatePunchAttempt
    (db : Db) (now attendanceId : Z) (punchType : PunchType)
    (failure : option string) (row : AttendanceRow) (rest : list AttendanceRow)
    (Hrow : List.filter (fun a => a_attendance_id a =? attendanceId)
                        (tbl_attendance db) = row :: rest) :
  putAttendance db now (Some attendanceId) (PunchType_name punchType) true failure
  = match validatePunchAttempt (Some (attendance_of_row row)) punchType with
    | Some validation => (db, PutError (status validation) (error validation))
    | None =>
        match processPunch db now attendanceId punchType failure with
        | (db', Threw message) => (db', PutError 500 message)
        | (db', Returned updated) => (db', PutUpdated updated)
        end
    end.
Proof.
  unfold putAttendance, validatePunchAttempt. rewrite Hrow.
  cbn [attendance_of_row punch_in_time punch_out_time].
  destruct punchType; cbn [PunchType_name PunchType_eqb andb orb negb String.eqb
                           Ascii.eqb Bool.eqb stamped_columns status error].
  - case_bool_decide; reflexivity.
  - case_bool_decide; [reflexivity|]. case_bool_decide; reflexivity.
Qed.

Lemma putAttendance_validates_as_validatePunchAttempt_witness :
  putAttendance carry_forward_db 2000 (Some 11) "IN" true None
  = (carry_forward_db, PutError 400 "Already punched in today").
Proof.
  exact (putAttendance_validates_as_validatePunchAttempt carry_forward_db 2000 11
           IN None (mkAttendanceRow 11 3 19522 (Some 1) (Some 1000) None) []
           eq_refl).
Defined.

(** X14.  [PUT /] with punch type [IN] or [OUT] keeps the attendance table well
    formed: keys unique, and no row with a punch-out and no punch-in. *)
Theorem putAttendance_keeps_attendance_table
    (db : Db) (now : Z) (id : option Z) (punchType : PunchType)
    (location_given : bool) (failure : option string)
    (Hkeys : attendance_keys_ok db) (Horder : rows_punch_order_ok db) :
  let db' := fst (putAttendance db now id (PunchType_name punchType)
                    location_given failure) in
  attendance_keys_ok db' /\ rows_punch_order_ok db'.
Proof.
  intros db'.
  destruct (putAttendance_db db now id (PunchType_name punchType) location_given
              failure) as [Hsame|(attendanceId & row & rest & -> & Hrows & Hout & _ & Hdb')];
    fold db' in Hsame || fold db' in Hdb'.
  { rewrite Hsame. split; assumption. }
  destruct (update_attendance_keeps db attendanceId
              (stamped_columns (PunchType_name punchType)) now)
    as (Hk & _ & _ & _ & Ho).
  rewrite Hdb'. split; [exact (Hk Hkeys)|].
  apply (Ho Horder). intros Hst a Ha Hid.
  assert (HpT : punchType = OUT) by (destruct punchType; [discriminate Hst|reflexivity]).
  subst punchType. destruct (Hout eq_refl) as [Hin _].
  assert (Hr : In row (List.filter (fun a => a_attendance_id a =? attendanceId)
                                   (tbl_attendance db)))
    by (rewrite Hrows; left; reflexivity).
  apply filter_In in Hr. destruct Hr as [Hr Hrid]. apply Z.eqb_eq in Hrid.
  assert (a = row).
  { apply (NoDup_map_eq a_attendance_id (tbl_attendance db));
      [apply Hkeys|exact Ha|exact Hr|congruence]. }
  subst a. exact Hin.
Qed.

Lemma putAttendance_keeps_attendance_table_witness :
  rows_punch_order_ok
    (fst (putAttendance carry_forward_db 2000 (Some 11) "OUT" true None)).
Proof.
  refine (proj2 (putAttendance_keeps_attendance_table carry_forward_db 2000
                   (Some 11) OUT true None _ _)).
  - split; [cbn; apply NoDup_singleton|]. split; [cbn; apply NoDup_singleton|].
    intros a [<-|[]]. cbn. lia.
  - intros a [<-|[]] _. cbn. eexists; reflexivity.
Defined.

(** X15.  [PUT /] runs none of its checks on a punch type that is neither [IN]
    nor [OUT]: a text such as [out] or [in] is stamped as a punch-out on the
    row with the id, whatever the row holds, so a row never punched in ends
    with a punch-out and no punch-in. *)
Theorem putAttendance_other_type_punches_out
    (db : Db) (now attendanceId : Z) (punch_type : string) (a : AttendanceRow)
    (Hgiven : punch_type <> "")
    (Hin : punch_type <> PunchType_name IN)
    (Hout : punch_type <> PunchType_name OUT)
    (Ha : In a (tbl_attendance db))
    (Hid : a_attendance_id a = attendanceId) :
  let result := putAttendance db now (Some attendanceId) punch_type true None in
  (exists updated, snd result = PutUpdated updated
                   /\ a_punch_out_time updated = Some now)
  /\ In (stamp OUT now a) (tbl_attendance (fst result))
  /\ (a_punch_in_time a = None -> ~ rows_punch_order_ok (fst result)).
Proof.
  intros result.
  assert (Hres : result
                 = match processPunch db now attendanceId OUT None with
                   | (db', Threw message) => (db', PutError 500 message)
                   | (db', Returned updated) => (db', PutUpdated updated)
                   end).
  { unfold result, putAttendance.
    apply String.eqb_neq in Hgiven, Hin, Hout.
    rewrite Hgiven. cbn [orb negb].
    destruct (List.filter _ _) as [|row rest] eqn:Hrows.
    - exfalso.
      assert (H : In a (List.filter (fun r => a_attendance_id r =? attendanceId)
                                    (tbl_attendance db)))
        by (apply filter_In; split; [exact Ha|apply Z.eqb_eq, Hid]).
      rewrite Hrows in H. destruct H.
    - rewrite Hin, Hout. cbn [andb]. unfold stamped_columns. rewrite Hin.
      reflexivity. }
  assert (Hstamped : In (stamp OUT now a)
            (tbl_attendance (fst (update_attendance db attendanceId OUT now)))).
  { unfold update_attendance. cbn [fst tbl_attendance].
    apply in_map_iff. exists a. split; [|exact Ha].
    rewrite Hid, Z.eqb_refl. reflexivity. }
  destruct (processPunch_stamps db now a Ha) as (db' & updated & Hpunch & _ & Hup).
  rewrite Hid in Hpunch.
  assert (Hdb' : db' = fst (update_attendance db attendanceId OUT now)).
  { unfold processPunch in Hpunch.
    destruct (update_attendance db attendanceId OUT now) as [db2 rows].
    destruct rows; [discriminate|]. injection Hpunch as <- _. reflexivity. }
  rewrite Hres, Hpunch. cbn [fst snd].
  split; [exists updated; split; [reflexivity|exact Hup]|].
  rewrite Hdb'. split; [exact Hstamped|].
  intros Hnone Hord. specialize (Hord _ Hstamped).
  cbn [stamp a_punch_out_time a_punch_in_time] in Hord. rewrite Hnone in Hord.
  destruct Hord as [x Hx]; [eexists; reflexivity|discriminate].
Qed.

Lemma putAttendance_other_type_punches_out_witness :
  ~ rows_punch_order_ok
      (fst (putAttendance
              (mkDb [mkAttendanceRow 11 3 19522 (Some 1) None None]
                    [mkEmployeeRow 3 (Some 1) (Some 1)] [1] [1] 11)
              2000 (Some 11) "out" true None)).
Proof.
  refine (proj2 (proj2
    (putAttendance_other_type_punches_out
       (mkDb [mkAttendanceRow 11 3 19522 (Some 1) None None]
             [mkEmployeeRow 3 (Some 1) (Some 1)] [1] [1] 11)
       2000 11 "out" (mkAttendanceRow 11 3 19522 (Some 1) None None)
       _ _ _ _ _)) _).
  - discriminate.
  - discriminate.
  - discriminate.
  - left. reflexivity.
  - reflexivity.
  - reflexivity.
Defined.

(** *** Asking for the record twice *)

Lemma joined_snoc (db db' : Db) (row : AttendanceRow) :
  tbl_attendance db' = (tbl_attendance db ++ [row])%list ->
  tbl_employee db' = tbl_employee db ->
  tbl_designation db' = tbl_designation db ->
  tbl_wards db' = tbl_wards db ->
  exists extra,
    joined db' = (joined db ++ extra)%list
    /\ forall j, In j extra -> fst (fst j) = row.
Proof.
  intros Ha He Hd Hw. unfold joined. rewrite Ha, He, Hd, Hw.
  rewrite flat_map_app. eexists. split; [reflexivity|].
  intros j Hj. cbn [flat_map] in Hj. rewrite app_nil_r in Hj.
  apply in_flat_map in Hj. destruct Hj as (e & _ & Hj).
  apply in_flat_map in Hj. destruct Hj as (d & _ & Hj).
  apply in_map_iff in Hj. destruct Hj as (w & <- & _). reflexivity.
Qed.

Lemma filter_all_false {A : Type} (f : A -> bool) (l : list A) :
  (forall x, In x l -> f x = false) -> List.filter f l = [].
Proof.
  induction l as [|a l IH]; intros H; [reflexivity|].
  cbn [List.filter]. rewrite (H a (or_introl eq_refl)).
  apply IH. intros x Hx. apply H. right. exact Hx.
Qed.

Lemma fetchAttendanceRecord_None (db : Db) (whereClause : AttendanceRow -> bool) :
  fetchAttendanceRecord db whereClause = None <->
  List.filter (fun j => whereClause (fst (fst j))) (joined db) = [].
Proof.
  unfold fetchAttendanceRecord. split.
  - destruct (first_in_order _) eqn:H; [discriminate|].
    intros _. apply first_in_order_nil, H.
  - intros ->. reflexivity.
Qed.

Lemma fetchAttendanceRecord_snoc (db db' : Db) (row : AttendanceRow)
    (whereClause : AttendanceRow -> bool) :
  tbl_attendance db' = (tbl_attendance db ++ [row])%list ->
  tbl_employee db' = tbl_employee db ->
  tbl_designation db' = tbl_designation db ->
  tbl_wards db' = tbl_wards db ->
  fetchAttendanceRecord db whereClause = None ->
  (whereClause row = false -> fetchAttendanceRecord db' whereClause = None)
  /\ (forall att, fetchAttendanceRecord db' whereClause = Some att ->
        attendance_id att = a_attendance_id row
        /\ punch_in_time att = a_punch_in_time row).
Proof.
  intros Ha He Hd Hw Hnone.
  destruct (joined_snoc db db' row Ha He Hd Hw) as (extra & Hj & Hextra).
  apply fetchAttendanceRecord_None in Hnone.
  assert (Hf : List.filter (fun j => whereClause (fst (fst j))) (joined db')
               = List.filter (fun j => whereClause (fst (fst j))) extra)
    by (rewrite Hj, List.filter_app, Hnone; reflexivity).
  split.
  - intros Hrow. apply fetchAttendanceRecord_None. rewrite Hf.
    apply filter_all_false. intros j Hin. rewrite (Hextra j Hin). exact Hrow.
  - intros att Hatt. unfold fetchAttendanceRecord in Hatt. rewrite Hf in Hatt.
    destruct (first_in_order _) as [j|] eqn:Hfirst; [|discriminate].
    cbn in Hatt. injection Hatt as <-.
    apply first_in_order_first in Hfirst. destruct Hfirst as [Hin _].
    apply filter_In in Hin. destruct Hin as [Hin _].
    specialize (Hextra j Hin). destruct j as [[a e] w]. cbn in Hextra. subst a.
    split; reflexivity.
Qed.

Lemma existsb_false_filter {A : Type} (f : A -> bool) (l : list A) :
  existsb f l = false -> List.filter f l = [].
Proof.
  intros H. apply filter_all_false. intros x Hx.
  destruct (f x) eqn:Hfx; [|reflexivity].
  assert (Ht : existsb f l = true) by (apply existsb_exists; exists x; auto).
  rewrite Ht in H. discriminate.
Qed.

Lemma existsb_filter_head {A : Type} (f : A -> bool) (l : list A) :
  existsb f l = true -> exists x, head (List.filter f l) = Some x.
Proof.
  intros H. apply existsb_exists in H. destruct H as (x & Hx & Hfx).
  assert (Hin : In x (List.filter f l)) by (apply filter_In; auto).
  destruct (List.filter f l) as [|y ys]; [destruct Hin|].
  exists y. reflexivity.
Qed.

(** X16.  Asking again for a record that [getOrCreateAttendanceRecord] has
    returned gives the record of the same attendance id, and the second
    call adds no row: the function creates at most once. *)
Theorem getOrCreateAttendanceRecord_creates_once
    (db db1 : Db) (today emp : Z) (date : option Z)
    (punchType : option PunchType) (createIfMissing : bool) (att : Attendance)
    (Hfirst : getOrCreateAttendanceRecord db today emp date punchType
                createIfMissing = (db1, Returned (Some att))) :
  exists db2 att2,
    getOrCreateAttendanceRecord db1 today emp date punchType createIfMissing
    = (db2, Returned (Some att2))
    /\ attendance_id att2 = attendance_id att
    /\ tbl_attendance db2 = tbl_attendance db1.
Proof.
  pose proof Hfirst as Hcall.
  unfold getOrCreateAttendanceRecord in Hfirst.
  set (targetDate := match date with Some d => d | None => today end) in *.
  set (whereClause := fun a => (a_emp_id a =? emp) && (a_date a =? targetDate)) in *.
  destruct (fetchAttendanceRecord db whereClause) as [attendance|] eqn:Hfetch.
  { assert (db1 = db).
    { destruct (if is_OUT punchType && _ then _ else None);
        injection Hfirst as <- _; reflexivity. }
    subst db1. exists db, att. rewrite Hcall. repeat split. }
  destruct (if is_OUT punchType && true
            then fetchRecentOpenAttendance db emp (Some targetDate) else None)
    as [carried|] eqn:Hcarried.
  { injection Hfirst as <- <-. exists db, carried. rewrite Hcall. repeat split. }
  destruct (negb createIfMissing && is_OUT punchType) eqn:Hcreate; [discriminate|].
  destruct (emp =? 0) eqn:Hemp; [discriminate|].
  set (ward := match List.filter (fun e => e_emp_id e =? emp) (tbl_employee db) with
               | e :: _ => e_ward_id e
               | [] => None
               end) in *.
  assert (Hopen : is_OUT punchType = true ->
                  fetchAttendanceRecord db (open_in_window emp targetDate) = None).
  { intros Hout. rewrite Hout in Hcarried. cbn [andb] in Hcarried.
    unfold fetchRecentOpenAttendance in Hcarried. rewrite Hemp in Hcarried.
    exact Hcarried. }
  unfold insert_attendance in Hfirst. fold whereClause in Hfirst.
  destruct (existsb whereClause (tbl_attendance db)) eqn:Hex.
  - (* the INSERT met a row of the employee and date *)
    cbn [tbl_attendance] in Hfirst.
    destruct (existsb_filter_head _ _ Hex) as (base & Hbase).
    rewrite Hbase in Hfirst. injection Hfirst as <- <-.
    unfold getOrCreateAttendanceRecord. fold targetDate. fold whereClause.
    change (fetchAttendanceRecord _ whereClause)
      with (fetchAttendanceRecord db whereClause).
    rewrite Hfetch.
    change (fetchRecentOpenAttendance _ emp (Some targetDate))
      with (fetchRecentOpenAttendance db emp (Some targetDate)).
    rewrite Hcarried, Hcreate, Hemp.
    unfold insert_attendance. fold whereClause.
    cbn [tbl_attendance tbl_employee]. rewrite Hex. cbn [tbl_attendance].
    rewrite Hbase. eexists _, _. split; [reflexivity|]. split; reflexivity.
  - (* the INSERT made the row *)
    injection Hfirst as <- <-.
    set (row := mkAttendanceRow (attendance_seq db + 1) emp targetDate ward None None).
    set (db1 := {| tbl_attendance := (tbl_attendance db ++ [row])%list;
                   tbl_employee := tbl_employee db;
                   tbl_designation := tbl_designation db;
                   tbl_wards := tbl_wards db;
                   attendance_seq := attendance_seq db + 1 |}).
    assert (Hwrow : whereClause row = true)
      by (unfold whereClause, row; cbn; rewrite !Z.eqb_refl; reflexivity).
    destruct (fetchAttendanceRecord_snoc db db1 row whereClause
                eq_refl eq_refl eq_refl eq_refl Hfetch) as [_ Hsome].
    assert (Hcarried1 : forall b : bool,
              (if is_OUT punchType && b
               then fetchRecentOpenAttendance db1 emp (Some targetDate)
               else None) = None).
    { intros b. destruct (is_OUT punchType) eqn:Hout; [|reflexivity].
      destruct b; [|reflexivity]. cbn [andb].
      unfold fetchRecentOpenAttendance. rewrite Hemp.
      destruct (fetchAttendanceRecord_snoc db db1 row (open_in_window emp targetDate)
                  eq_refl eq_refl eq_refl eq_refl (Hopen eq_refl)) as [Hn _].
      apply Hn. unfold open_in_window, row. cbn.
      rewrite andb_false_r. reflexivity. }
    unfold getOrCreateAttendanceRecord. fold targetDate. fold whereClause.
    destruct (fetchAttendanceRecord db1 whereClause) as [attendance|] eqn:Hfetch1.
    + destruct (Hsome attendance eq_refl) as [Hid _].
      rewrite Hcarried1. exists db1, attendance.
      split; [reflexivity|]. split; [exact Hid|reflexivity].
    + rewrite Hcarried1, Hcreate, Hemp.
      unfold insert_attendance. fold whereClause.
      assert (Hex1 : existsb whereClause (tbl_attendance db1) = true).
      { apply existsb_exists. exists row. split; [|exact Hwrow].
        cbn [db1 tbl_attendance]. apply in_or_app. right. left. reflexivity. }
      rewrite Hex1. cbn [tbl_attendance].
      assert (Hhead : head (List.filter whereClause (tbl_attendance db1)) = Some row).
      { cbn [db1 tbl_attendance]. rewrite List.filter_app.
        rewrite (existsb_false_filter _ _ Hex). cbn [List.filter app].
        rewrite Hwrow. reflexivity. }
      rewrite Hhead. eexists _, _. split; [reflexivity|]. split; reflexivity.
Qed.

Lemma getOrCreateAttendanceRecord_creates_once_witness :
  exists db1 att db2 att2,
    getOrCreateAttendanceRecord group_db 19523 100 (Some 19523) (Some IN) true
    = (db1, Returned (Some att))
    /\ getOrCreateAttendanceRecord db1 19523 100 (Some 19523) (Some IN) true
       = (db2, Returned (Some att2))
    /\ attendance_id att2 = attendance_id att
    /\ tbl_attendance db2 = tbl_attendance db1.
Proof.
  eexists _, _.
  assert (H : getOrCreateAttendanceRecord group_db 19523 100 (Some 19523)
                (Some IN) true
              = (mkDb [mkAttendanceRow 1 100 19523 (Some 1) None None]
                      [mkEmployeeRow 100 (Some 1) (Some 1)] [1] [1] 1,
                 Returned (Some (mkAttendance 1 (Some 19523) None None 100 (Some 1)))))
    by (vm_compute; reflexivity).
  destruct (getOrCreateAttendanceRecord_creates_once _ _ _ _ _ _ _ _ H)
    as (db2 & att2 & H2 & Hid & Htbl).
  exists db2, att2. split; [exact H|]. split; [exact H2|]. split; assumption.
Defined.

(** *** What of a query reaches the text of a report filter *)

Lemma trimStart_no_leading_space (s : string) (c : ascii) (r : string) :
  trimStart s = String c r -> is_space c = false.
Proof.
  induction s as [|d s IH]; [discriminate|]. cbn [trimStart].
  destruct (is_space d) eqn:Hd; [exact IH|].
  intros H. injection H as <- _. exact Hd.
Qed.

Lemma trimEnd_idempotent (s : string) : trimEnd (trimEnd s) = trimEnd s.
Proof.
  induction s as [|c r IH]; [reflexivity|]. cbn [trimEnd].
  destruct (trimEnd r) as [|d u] eqn:Hu.
  - destruct (is_space c) eqn:Hc; [reflexivity|].
    cbn [trimEnd]. rewrite Hc. reflexivity.
  - cbn [trimEnd]. cbn [trimEnd] in IH. 
    destruct (trimEnd u) as [|e v] eqn:Hv.
    + destruct (is_space d); [discriminate IH|]. rewrite IH. reflexivity.
    + rewrite IH. reflexivity.
Qed.

Lemma trim_idempotent (s : string) : trim (trim s) = trim s.
Proof.
  unfold trim.
  assert (Hstart : trimStart (trimEnd (trimStart s)) = trimEnd (trimStart s)).
  { destruct (trimStart s) as [|c r] eqn:Hs; [reflexivity|].
    pose proof (trimStart_no_leading_space s c r Hs) as Hc.
    cbn [trimEnd]. destruct (trimEnd r); rewrite ?Hc; cbn [trimStart];
      rewrite Hc; reflexivity. }
  rewrite Hstart. apply trimEnd_idempotent.
Qed.

Lemma or_else_given (a a' b b' : option string) :
  String.eqb (or_empty a) "" = String.eqb (or_empty a') "" ->
  String.eqb (trim (or_empty a)) "" = String.eqb (trim (or_empty a')) "" ->
  String.eqb (or_empty b) "" = String.eqb (or_empty b') "" ->
  String.eqb (trim (or_empty b)) "" = String.eqb (trim (or_empty b')) "" ->
  String.eqb (or_empty (or_else a b)) "" = String.eqb (or_empty (or_else a' b')) ""
  /\ String.eqb (trim (or_empty (or_else a b))) ""
     = String.eqb (trim (or_empty (or_else a' b'))) "".
Proof.
  intros Ha Hta Hb Htb. unfold or_else.
  destruct a as [s|], a' as [s'|]; cbn [or_empty] in Ha, Hta |- *.
  - destruct (String.eqb s "") eqn:Hs; rewrite <- Ha.
    + split; assumption.
    + cbn [or_empty]. rewrite Hs. split; [exact Ha|exact Hta].
  - destruct (String.eqb s "") eqn:Hs; [split; assumption|].
    cbn in Ha. discriminate.
  - destruct (String.eqb s' "") eqn:Hs; [split; assumption|].
    cbn in Ha. discriminate.
  - split; assumption.
Qed.

Lemma addTextFilter_shape {Num : Type} (st st' : @FilterState Num)
    (raw raw' : option string) (builder : string -> string)
    (metaKey : option string) (wildcard : bool) :
  filters st = filters st' /\ length (params st) = length (params st') ->
  String.eqb (trim (or_empty raw)) "" = String.eqb (trim (or_empty raw')) "" ->
  filters (addTextFilter st raw builder metaKey wildcard)
  = filters (addTextFilter st' raw' builder metaKey wildcard)
  /\ length (params (addTextFilter st raw builder metaKey wildcard))
     = length (params (addTextFilter st' raw' builder metaKey wildcard)).
Proof.
  intros [Hf Hp] Hraw. unfold addTextFilter. rewrite <- Hraw.
  destruct (String.eqb (trim (or_empty raw)) ""); [split; assumption|].
  unfold placeholder_for. cbn [filters params].
  rewrite !length_app, Hf, Hp. split; reflexivity.
Qed.

Lemma addNumericFilter_shape {Num : Type} (parseFinite : string -> option Num)
    (st st' : @FilterState Num) (raw raw' : option string)
    (builder : string -> string) (metaKey : option string) :
  filters st = filters st' /\ length (params st) = length (params st') ->
  (is_Some (parseIntegerParam parseFinite raw)
   <-> is_Some (parseIntegerParam parseFinite raw')) ->
  filters (addNumericFilter parseFinite st raw builder metaKey)
  = filters (addNumericFilter parseFinite st' raw' builder metaKey)
  /\ length (params (addNumericFilter parseFinite st raw builder metaKey))
     = length (params (addNumericFilter parseFinite st' raw' builder metaKey)).
Proof.
  intros [Hf Hp] Hraw. unfold addNumericFilter.
  destruct (parseIntegerParam parseFinite raw) as [v|],
           (parseIntegerParam parseFinite raw') as [v'|].
  - unfold placeholder_for. cbn [filters params].
    rewrite !length_app, Hf, Hp. split; reflexivity.
  - exfalso. destruct Hraw as [H _]. destruct H; [eexists; reflexivity|discriminate].
  - exfalso. destruct Hraw as [_ H]. destruct H; [eexists; reflexivity|discriminate].
  - split; assumption.
Qed.

Lemma addPatternFilter_shape {Num : Type} (st st' : @FilterState Num)
    (raw raw' : option string) (builder : string -> string) (metaKey : string) :
  filters st = filters st' /\ length (params st) = length (params st') ->
  String.eqb (trim (or_empty raw)) "" = String.eqb (trim (or_empty raw')) "" ->
  filters (addPatternFilter st raw builder metaKey)
  = filters (addPatternFilter st' raw' builder metaKey)
  /\ length (params (addPatternFilter st raw builder metaKey))
     = length (params (addPatternFilter st' raw' builder metaKey)).
Proof.
  intros [Hf Hp] Hraw. unfold addPatternFilter. rewrite <- Hraw.
  destruct (String.eqb (trim (or_empty raw)) ""); [split; assumption|].
  unfold placeholder_for. cbn [filters params].
  rewrite !length_app, Hf, Hp. split; reflexivity.
Qed.

Lemma addFlagFilter_shape {Num : Type} (st st' : @FilterState Num)
    (raw raw' : option string) (whenTrue whenFalse metaKey : string) :
  filters st = filters st' /\ length (params st) = length (params st') ->
  parseBooleanFlag raw = parseBooleanFlag raw' ->
  filters (addFlagFilter st raw whenTrue whenFalse metaKey)
  = filters (addFlagFilter st' raw' whenTrue whenFalse metaKey)
  /\ length (params (addFlagFilter st raw whenTrue whenFalse metaKey))
     = length (params (addFlagFilter st' raw' whenTrue whenFalse metaKey)).
Proof.
  intros [Hf Hp] Hraw. unfold addFlagFilter. rewrite <- Hraw.
  destruct (parseBooleanFlag raw); [|split; assumption].
  cbn [filters params]. rewrite Hf, Hp. split; reflexivity.
Qed.

Lemma addCityScope_shape {Num : Type} (st st' : @FilterState Num)
    (cityScope : option Scope) :
  filters st = filters st' /\ length (params st) = length (params st') ->
  filters (addCityScope st cityScope) = filters (addCityScope st' cityScope)
  /\ length (params (addCityScope st cityScope))
     = length (params (addCityScope st' cityScope)).
Proof.
  intros [Hf Hp]. unfold addCityScope.
  destruct cityScope as [scope|]; [|split; assumption].
  destruct (all scope); [split; assumption|].
  destruct (ids scope); cbn [filters params].
  - rewrite Hf, Hp. split; reflexivity.
  - unfold placeholder_for. rewrite !length_app, Hf, Hp. split; reflexivity.
Qed.

Ltac same_shape_step Hsame :=
  first
    [ apply addFlagFilter_shape; [|apply Hsame]
    | apply addPatternFilter_shape;
      [|apply or_else_given; solve [apply Hsame | reflexivity]]
    | apply addTextFilter_shape; [|apply Hsame]
    | apply addNumericFilter_shape; [|apply Hsame] ].

(** X19.  The text of the WHERE clause, and the number of bound parameters, of
    both filter builders depend on which filters a query asks for and not
    on the values it gives: two queries that ask for the same filters get
    the same clause, and the values only sit in the parameters. *)
Theorem report_filters_text_ignores_values {Num : Type}
    (parseFinite : string -> option Num) (query query' : gmap string string)
    (locationExpression : string) (cityScope : option Scope)
    (Hsame : same_filters_given parseFinite query query') :
  (whereClause (buildAttendanceFilters parseFinite query locationExpression
                  cityScope)
   = whereClause (buildAttendanceFilters parseFinite query' locationExpression
                    cityScope)
   /\ length (result_params (buildAttendanceFilters parseFinite query
                               locationExpression cityScope))
      = length (result_params (buildAttendanceFilters parseFinite query'
                                 locationExpression cityScope)))
  /\ (whereClause (buildSupervisorSummaryFilters parseFinite query cityScope)
      = whereClause (buildSupervisorSummaryFilters parseFinite query' cityScope)
      /\ length (result_params (buildSupervisorSummaryFilters parseFinite query
                                  cityScope))
         = length (result_params (buildSupervisorSummaryFilters parseFinite query'
                                    cityScope))).
Proof.
  assert (Hfinish : forall st st' : @FilterState Num,
            filters st = filters st' /\ length (params st) = length (params st') ->
            whereClause (finish st) = whereClause (finish st')
            /\ length (result_params (finish st))
               = length (result_params (finish st'))).
  { intros st st' [Hf Hp]. unfold finish. cbn [whereClause result_params].
    rewrite Hf. split; [reflexivity|exact Hp]. }
  assert (Hchain : forall k1 k2 k3 k4 : string,
    String.eqb
      (trim (or_empty (or_else (query !! k1) (or_else (query !! k2)
         (or_else (query !! k3) (or_else (query !! k4) (Some ""))))))) ""
    = String.eqb
        (trim (or_empty (or_else (query' !! k1) (or_else (query' !! k2)
           (or_else (query' !! k3) (or_else (query' !! k4) (Some ""))))))) "").
  { intros k1 k2 k3 k4.
    repeat (apply or_else_given; try solve [apply Hsame | reflexivity]). }
  assert (Hdate :
    String.eqb (trim (or_empty (or_else (query !! "date") (Some "")))) ""
    = String.eqb (trim (or_empty (or_else (query' !! "date") (Some "")))) "")
    by (apply or_else_given; solve [apply Hsame | reflexivity]).
  split; apply Hfinish, addCityScope_shape.
  - unfold attendanceQueryFilters. cbv zeta.
    repeat same_shape_step Hsame.
    pose proof (Hchain "start_date" "date_from" "from_date" "from") as Hstart.
    pose proof (Hchain "end_date" "date_to" "to_date" "to") as Hend.
    set (date := trim (or_empty (or_else (query !! "date") (Some "")))) in *.
    set (date' := trim (or_empty (or_else (query' !! "date") (Some "")))) in *.
    set (startDate := trim (or_empty (or_else (query !! "start_date") _))) in *.
    set (startDate' := trim (or_empty (or_else (query' !! "start_date") _))) in *.
    set (endDate := trim (or_empty (or_else (query !! "end_date") _))) in *.
    set (endDate' := trim (or_empty (or_else (query' !! "end_date") _))) in *.
    assert (Htrim : forall v v' : string,
              String.eqb v "" = String.eqb v' "" ->
              (exists x, v = trim x) -> (exists x', v' = trim x') ->
              String.eqb (trim (or_empty (Some v))) ""
              = String.eqb (trim (or_empty (Some v'))) "").
    { intros v v' H [x ->] [x' ->]. cbn [or_empty].
      rewrite !trim_idempotent. exact H. }
    rewrite <- Hdate, <- Hstart, <- Hend.
    destruct (String.eqb date "") eqn:Ed; cbn [negb].
    + destruct (String.eqb startDate "") eqn:Es, (String.eqb endDate "") eqn:Ee;
        cbn [negb];
        repeat (apply addTextFilter_shape;
                [|apply Htrim; [congruence|eexists; reflexivity..]]);
        split; reflexivity.
    + apply addTextFilter_shape; [split; reflexivity|].
      apply Htrim; [congruence|eexists; reflexivity..].
  - unfold supervisorSummaryQueryFilters. cbv zeta.
    repeat same_shape_step Hsame. split; reflexivity.
Qed.

Lemma report_filters_text_ignores_values_witness :
  whereClause (buildAttendanceFilters example_parseFinite_7_8
                 (<["city_id" := "7"]> ∅) (getLocationExpression "both")
                 (Some example_scope))
  = whereClause (buildAttendanceFilters example_parseFinite_7_8
                   (<["city_id" := "8"]> ∅) (getLocationExpression "both")
                   (Some example_scope)).
Proof.
  refine (proj1 (proj1 (report_filters_text_ignores_values
                          example_parseFinite_7_8 _ _ _ _ _))).
  intros name. destruct (decide (name = "city_id")) as [->|Hne].
  - rewrite !lookup_insert_eq. vm_compute.
    repeat split; intros _; eexists; reflexivity.
  - rewrite !lookup_insert_ne by congruence. rewrite !lookup_empty.
    repeat split; intros H; exact H.
Defined.

(** *** The crop of a face and the face *)

Lemma Math_round_nonneg (q : Q) : (0 <= q)%Q -> 0 <= Math_round q.
Proof.
  intros Hq. unfold Math_round.
  change 0 with (Qfloor 0). apply Qfloor_resp_le.
  apply (Qle_trans _ q); [exact Hq|].
  rewrite <- (Qplus_0_r q) at 1. apply Qplus_le_compat; [apply Qle_refl|].
  discriminate.
Qed.

(** X20.  With a padding that is not negative, the crop of a face covers the
    face: the box of the face in pixels, as far as it lies in the image, is
    inside the crop region.  A crop is refused, for an image of positive
    size, only when the padded box begins at or beyond the right or the
    bottom edge. *)
Theorem computeCropRegion_covers_face (round : Q -> Z) (box : BoundingBox)
    (imageWidth imageHeight : Z) (paddingRatio : Q)
    (Hround : forall q, (0 <= q)%Q -> 0 <= round q)
    (Hpad : (0 <= paddingRatio)%Q)
    (Hw : 0 < imageWidth) (Hh : 0 < imageHeight) :
  let faceLeft := round (Left box * inject_Z imageWidth)%Q in
  let faceTop := round (Top box * inject_Z imageHeight)%Q in
  let faceWidth := Z.max (round (Width box * inject_Z imageWidth)%Q) 1 in
  let faceHeight := Z.max (round (Height box * inject_Z imageHeight)%Q) 1 in
  match computeCropRegionWith round (Some box) imageWidth imageHeight
          paddingRatio with
  | Some r =>
      Crop.left r <= Z.max faceLeft 0
      /\ Z.min (faceLeft + faceWidth) imageWidth <= Crop.left r + Crop.width r
      /\ Crop.top r <= Z.max faceTop 0
      /\ Z.min (faceTop + faceHeight) imageHeight <= Crop.top r + Crop.height r
  | None =>
      imageWidth <= faceLeft - round (inject_Z faceWidth * paddingRatio)%Q
      \/ imageHeight <= faceTop - round (inject_Z faceHeight * paddingRatio)%Q
  end.
Proof.
  intros faceLeft faceTop faceWidth faceHeight.
  unfold computeCropRegionWith.
  fold faceLeft faceTop faceWidth faceHeight.
  assert (Hpads : forall base : Z, 1 <= base ->
            0 <= round (inject_Z base * paddingRatio)%Q).
  { intros base Hbase. apply Hround. apply Qmult_le_0_compat; [|exact Hpad].
    change 0%Q with (inject_Z 0). rewrite <- Zle_Qle. lia. }
  pose proof (Hpads faceWidth ltac:(unfold faceWidth; lia)) as HpadX.
  pose proof (Hpads faceHeight ltac:(unfold faceHeight; lia)) as HpadY.
  set (padX := round (inject_Z faceWidth * paddingRatio)%Q) in *.
  set (padY := round (inject_Z faceHeight * paddingRatio)%Q) in *.
  assert (HfW : 1 <= faceWidth) by (unfold faceWidth; lia).
  assert (HfH : 1 <= faceHeight) by (unfold faceHeight; lia).
  destruct (Z.leb_spec imageWidth 0); [lia|].
  destruct (Z.leb_spec imageHeight 0); [lia|]. cbn [orb].
  destruct (Z.leb_spec (Z.min (imageWidth - Z.max (faceLeft - padX) 0)
                              (faceWidth + padX * 2)) 0); cbn [orb].
  { left. lia. }
  destruct (Z.leb_spec (Z.min (imageHeight - Z.max (faceTop - padY) 0)
                              (faceHeight + padY * 2)) 0).
  { right. lia. }
  cbn [Crop.left Crop.top Crop.width Crop.height]. lia.
Qed.

Lemma computeCropRegion_covers_face_witness :
  match computeCropRegion (Some (mkBoundingBox (1 # 5) (3 # 10) (1 # 10) (1 # 10)))
          1000 1000 defaultPaddingRatio with
  | Some r => Crop.left r <= 100 /\ 300 <= Crop.left r + Crop.width r
  | None => False
  end.
Proof.
  pose proof (computeCropRegion_covers_face Math_round
                (mkBoundingBox (1 # 5) (3 # 10) (1 # 10) (1 # 10)) 1000 1000
                defaultPaddingRatio Math_round_nonneg ltac:(discriminate)
                ltac:(lia) ltac:(lia)) as H.
  change (computeCropRegionWith Math_round) with computeCropRegion in H.
  destruct (computeCropRegion _ _ _ _) as [r|] eqn:E.
  - destruct H as (Hl & Hr & _). split; [exact Hl|exact Hr].
  - vm_compute in E. discriminate E.
Defined.

(** *** The employee of a matched face *)

Lemma link_face_first (faceId : string) (empId : Z)
    (employees : list FaceEmployee) :
  List.filter (has_face_id faceId) employees = [] ->
  head (List.filter (has_face_id faceId) (map (link_face faceId empId) employees))
  = link_face faceId empId
    <$> head (List.filter (fun e => fe_emp_id e =? empId) employees).
Proof.
  induction employees as [|e rest IH]; [reflexivity|].
  cbn [List.filter map]. destruct (has_face_id faceId e) eqn:Hface; [discriminate|].
  intros Hrest. unfold link_face at 1 2. rewrite Hface. cbn [negb].
  destruct (fe_emp_id e =? empId) eqn:He; cbn [andb].
  - unfold has_face_id at 1. cbn [fe_face_id]. rewrite String.eqb_refl.
    cbn [head]. cbn. unfold link_face. rewrite He, Hface. reflexivity.
  - rewrite Hface. apply IH, Hrest.
Qed.

Lemma link_face_keeps (faceId : string) (empId : Z) (e : FaceEmployee) :
  employee_record (link_face faceId empId e) = employee_record e.
Proof. unfold link_face. destruct (_ && _); reflexivity. Qed.

Lemma tryResolveByEmpId_first (employees : list FaceEmployee) (empId : option Z)
    (r : Z * string) :
  tryResolveByEmpId employees empId = Some r ->
  exists row,
    head (List.filter (fun e => fe_emp_id e =? fst r) employees) = Some row
    /\ employee_record row = r.
Proof.
  destruct empId as [empId|]; [|discriminate]. unfold tryResolveByEmpId.
  destruct (List.filter (fun e => fe_emp_id e =? empId) employees)
    as [|row rows] eqn:Hrows; [discriminate|].
  cbn [map head]. intros H. injection H as <-.
  assert (Hin : In row (List.filter (fun e => fe_emp_id e =? empId) employees))
    by (rewrite Hrows; left; reflexivity).
  apply filter_In in Hin. destruct Hin as [_ Hid]. apply Z.eqb_eq in Hid.
  exists row. cbn [employee_record fst]. rewrite Hid, Hrows. split; reflexivity.
Qed.

(** X21.  Once a face id has resolved to an employee, the face id alone resolves
    to that employee: a second lookup with the face id returns the same
    record whatever the other identifiers are, and writes nothing.  A
    lookup changes no employee id and no name. *)
Theorem resolveEmployeeFromFaceIdentifiers_learns_face
    (employees employees' : list FaceEmployee) (faceId : string)
    (matchedExternalId requestedEmpId : option Z) (r : Z * string)
    (Hface : faceId <> "")
    (Hfirst : resolveEmployeeFromFaceIdentifiers employees (Some faceId)
                matchedExternalId requestedEmpId = (employees', Some r)) :
  (forall otherExternalId otherRequestedId,
     resolveEmployeeFromFaceIdentifiers employees' (Some faceId)
       otherExternalId otherRequestedId = (employees', Some r))
  /\ map employee_record employees' = map employee_record employees.
Proof.
  unfold resolveEmployeeFromFaceIdentifiers in *.
  apply String.eqb_neq in Hface. rewrite Hface in *.
  destruct (head (List.filter (has_face_id faceId) employees)) as [row|] eqn:Hrow.
  - injection Hfirst as <- <-. split; [|reflexivity].
    intros ext req. rewrite Hrow. reflexivity.
  - assert (Hnone : List.filter (has_face_id faceId) employees = [])
      by (destruct (List.filter _ _); [reflexivity|discriminate]).
    destruct (match tryResolveByEmpId employees matchedExternalId with
              | Some r => Some r
              | None => tryResolveByEmpId employees requestedEmpId
              end) as [found|] eqn:Hfound; [|discriminate].
    injection Hfirst as <- <-.
    assert (Hrowr : exists row,
              head (List.filter (fun e => fe_emp_id e =? fst found) employees)
              = Some row /\ employee_record row = found).
    { destruct (tryResolveByEmpId employees matchedExternalId) as [r1|] eqn:H1.
      - injection Hfound as <-. exact (tryResolveByEmpId_first _ _ _ H1).
      - exact (tryResolveByEmpId_first _ _ _ Hfound). }
    destruct Hrowr as (row & Hhead & Hrec).
    split.
    + intros ext req. rewrite (link_face_first faceId (fst found) employees Hnone).
      rewrite Hhead. cbn. rewrite link_face_keeps, Hrec. reflexivity.
    + rewrite map_map. apply map_ext. intros e. apply link_face_keeps.
Qed.

Lemma resolveEmployeeFromFaceIdentifiers_learns_face_witness :
  resolveEmployeeFromFaceIdentifiers
    [mkFaceEmployee 3 "Asha" (Some "face-3");
     mkFaceEmployee 4 "Ravi" (Some "face-4")]
    (Some "face-4") None None
  = ([mkFaceEmployee 3 "Asha" (Some "face-3");
      mkFaceEmployee 4 "Ravi" (Some "face-4")],
     Some (4, "Ravi")).
Proof.
  refine (proj1 (resolveEmployeeFromFaceIdentifiers_learns_face
                   [mkFaceEmployee 3 "Asha" (Some "face-3");
                    mkFaceEmployee 4 "Ravi" None]
                   _ "face-4" (Some 4) None (4, "Ravi") _ _) None None).
  - discriminate.
  - vm_compute. reflexivity.
Defined.

(** *** The attendance date of a request *)

Lemma is_digit_not_space (c : ascii) : is_digit c = true -> is_space c = false.
Proof.
  unfold is_digit, is_space. cbv zeta.
  rewrite andb_true_iff, !Nat.leb_le. intros [H1 H2].
  apply orb_false_iff. split.
  - apply andb_false_iff. right. apply Nat.leb_gt. lia.
  - apply Nat.eqb_neq. lia.
Qed.

Lemma digits_app (n : nat) (a b : string) :
  digits n a = Some EmptyString -> digits n (a +:+ b) = Some b.
Proof.
  revert a. induction n as [|n IH]; intros a H.
  - cbn in H. injection H as ->. reflexivity.
  - destruct a as [|c a]; [discriminate|]. cbn [digits] in H.
    change (String c a +:+ b) with (String c (a +:+ b)). cbn [digits].
    destruct (is_digit c); [apply IH, H|discriminate].
Qed.

Lemma pretty_year_digits (y : Z) :
  1000 <= y <= 9999 -> digits 4 (pretty y) = Some EmptyString.
Proof.
  intros Hy.
  assert (Hall : forallb (fun y => match digits 4 (pretty y) with
                                   | Some EmptyString => true
                                   | _ => false
                                   end) (seqZ 1000 9000) = true)
    by (vm_compute; reflexivity).
  rewrite forallb_forall in Hall.
  specialize (Hall y). 
  destruct (digits 4 (pretty y)) as [[|c r]|].
  - reflexivity.
  - exfalso. assert (false = true); [|discriminate]. apply Hall.
    apply list_elem_of_In, elem_of_seqZ. lia.
  - exfalso. assert (false = true); [|discriminate]. apply Hall.
    apply list_elem_of_In, elem_of_seqZ. lia.
Qed.

Lemma pad2_digits (n : Z) : 1 <= n <= 31 -> digits 2 (pad2 n) = Some EmptyString.
Proof.
  intros Hn.
  assert (Hall : forallb (fun n => match digits 2 (pad2 n) with
                                   | Some EmptyString => true
                                   | _ => false
                                   end) (seqZ 1 31) = true)
    by (vm_compute; reflexivity).
  rewrite forallb_forall in Hall.
  specialize (Hall n).
  destruct (digits 2 (pad2 n)) as [[|c r]|].
  - reflexivity.
  - exfalso. assert (false = true); [|discriminate]. apply Hall.
    apply list_elem_of_In, elem_of_seqZ. lia.
  - exfalso. assert (false = true); [|discriminate]. apply Hall.
    apply list_elem_of_In, elem_of_seqZ. lia.
Qed.

Lemma dash_app (s : string) : dash ("-" +:+ s) = Some s.
Proof. reflexivity. Qed.

Lemma render_date_iso (y m d : Z) :
  1000 <= y <= 9999 -> 1 <= m <= 12 -> 1 <= d <= 31 ->
  ISO_DATE_PATTERN (render_date (y, m, d)) = true.
Proof.
  intros Hy Hm Hd. unfold ISO_DATE_PATTERN, render_date.
  rewrite (digits_app 4 _ _ (pretty_year_digits y Hy)).
  cbn [then_match]. rewrite dash_app. cbn [then_match].
  rewrite (digits_app 2 _ _ (pad2_digits m ltac:(lia))).
  cbn [then_match]. rewrite dash_app. cbn [then_match].
  rewrite (pad2_digits d Hd). reflexivity.
Qed.

Lemma civil_day_of_month (days y m d : Z) :
  civil_from_days days = (y, m, d) -> 1 <= d <= 31.
Proof.
  unfold civil_from_days. cbv zeta. intros H. injection H as _ _ <-.
  Z.div_mod_to_equations. lia.
Qed.

Lemma civil_year_range (days y m d : Z) :
  -1 <= days < days_from_civil 10000 1 1 ->
  civil_from_days days = (y, m, d) -> 1000 <= y <= 9999.
Proof.
  intros Hdays Hc.
  destruct (days_from_civil_from_days _ _ _ _ Hc) as [Hback Hm].
  pose proof (civil_day_of_month _ _ _ _ Hc) as Hd.
  change (days_from_civil 10000 1 1) with 2932897 in Hdays.
  rewrite <- Hback in Hdays. unfold days_from_civil in Hdays.
  cbv zeta in Hdays.
  destruct (Z.leb_spec m 2), (Z.ltb_spec 2 m); try lia;
    Z.div_mod_to_equations; lia.
Qed.

(** [formatDate] renders the civil date of the local day or of the day
    before. *)
Lemma formatDate_day (tzOffset : Z -> Z) (env : JsNumber) (clock now : Z) :
  0 <= now + tzOffset now ->
  let today := local_day tzOffset now in
  formatDate tzOffset env clock (Some now) None
  = render_date (civil_from_days (today - 1))
  \/ formatDate tzOffset env clock (Some now) None
     = render_date (civil_from_days today).
Proof.
  intros Hepoch today.
  assert (Htoday : 0 <= today).
  { unfold today, local_day. apply Z.div_pos; [exact Hepoch|unfold msPerDay; lia]. }
  unfold formatDate, getAttendanceDateParts. fold today.
  destruct (civil_from_days today) as [[y m] d] eqn:Hc.
  cbn [year month day hour].
  destruct (rollover_applies _ _); [left|right; reflexivity].
  pose proof (utc_day_before today y m d Htoday Hc) as Hstep.
  cbv zeta in Hstep. rewrite Hstep. reflexivity.
Qed.

Lemma digits_S (n : nat) (s rest : string) :
  digits (S n) s = Some rest ->
  exists c s', s = String c s' /\ is_digit c = true /\ digits n s' = Some rest.
Proof.
  destruct s as [|c s']; [discriminate|]. cbn [digits].
  destruct (is_digit c) eqn:Hc; [|discriminate].
  intros H. exists c, s'. auto.
Qed.

Lemma dash_Some (s rest : string) : dash s = Some rest -> s = String "-" rest.
Proof.
  destruct s as [|c s']; [discriminate|]. cbn [dash].
  destruct (Ascii.eqb c "-") eqn:Hc; [|discriminate].
  apply Ascii.eqb_eq in Hc. intros H. injection H as <-. rewrite Hc. reflexivity.
Qed.

Lemma then_match_Some (m : option string) (f : string -> option string)
    (rest : string) :
  then_match m f = Some rest -> exists x, m = Some x /\ f x = Some rest.
Proof. destruct m as [x|]; [|discriminate]. intros H. exists x. auto. Qed.

Lemma ISO_DATE_PATTERN_trim (s : string) :
  ISO_DATE_PATTERN s = true -> trim s = s /\ s <> "".
Proof.
  unfold ISO_DATE_PATTERN. intros H.
  destruct (then_match _ (digits 2)) as [[|c r]|] eqn:H5; try discriminate H.
  clear H.
  apply then_match_Some in H5. destruct H5 as (r4 & H4 & H5).
  apply then_match_Some in H4. destruct H4 as (r3 & H3 & H4).
  apply then_match_Some in H3. destruct H3 as (r2 & H2 & H3).
  apply then_match_Some in H2. destruct H2 as (r1 & H1 & H2).
  apply digits_S in H1. destruct H1 as (c1 & s1 & -> & Hc1 & H1).
  apply digits_S in H1. destruct H1 as (c2 & s2 & -> & Hc2 & H1).
  apply digits_S in H1. destruct H1 as (c3 & s3 & -> & Hc3 & H1).
  apply digits_S in H1. destruct H1 as (c4 & s4 & -> & Hc4 & H1).
  cbn [digits] in H1. injection H1 as ->.
  apply dash_Some in H2. subst r1.
  apply digits_S in H3. destruct H3 as (c6 & s6 & -> & Hc6 & H3).
  apply digits_S in H3. destruct H3 as (c7 & s7 & -> & Hc7 & H3).
  cbn [digits] in H3. injection H3 as ->.
  apply dash_Some in H4. subst r3.
  apply digits_S in H5. destruct H5 as (c9 & s9 & -> & Hc9 & H5).
  apply digits_S in H5. destruct H5 as (c10 & s10 & -> & Hc10 & H5).
  cbn [digits] in H5. injection H5 as ->.
  split; [|discriminate].
  apply is_digit_not_space in Hc1, Hc10.
  unfold trim. cbn [trimStart]. rewrite Hc1. cbn [trimEnd]. rewrite Hc10.
  reflexivity.
Qed.

(** X22.  From 1970 to the end of the year 9999, [formatDate] gives a date in
    the form of [ISO_DATE_PATTERN], and [normalizeDateInput] hands such a
    text back as it is: a date that [formatDate] made goes through
    [resolveAttendanceDate] unchanged. *)
Theorem formatDate_is_iso_date (tzOffset : Z -> Z) (env : JsNumber)
    (clock now : Z) (Date_parse : string -> option Z)
    (toNumber : string -> JsNumber)
    (Hnow : 0 <= now + tzOffset now < days_from_civil 10000 1 1 * msPerDay) :
  let formatted := formatDate tzOffset env clock (Some now) None in
  ISO_DATE_PATTERN formatted = true
  /\ normalizeDateInput tzOffset env clock Date_parse toNumber
       (InputText formatted) = Some formatted.
Proof.
  intros formatted.
  assert (Hiso : ISO_DATE_PATTERN formatted = true).
  { set (today := local_day tzOffset now).
    assert (Htoday : 0 <= today < days_from_civil 10000 1 1).
    { unfold today, local_day. split.
      - apply Z.div_pos; [lia|unfold msPerDay; lia].
      - apply Z.div_lt_upper_bound; [unfold msPerDay; lia|].
        rewrite Z.mul_comm. lia. }
    assert (Hrender : forall D, -1 <= D < days_from_civil 10000 1 1 ->
              ISO_DATE_PATTERN (render_date (civil_from_days D)) = true).
    { intros D HD. destruct (civil_from_days D) as [[y m] d] eqn:Hc.
      apply render_date_iso.
      - exact (civil_year_range D y m d HD Hc).
      - exact (proj2 (days_from_civil_from_days D y m d Hc)).
      - exact (civil_day_of_month D y m d Hc). }
    unfold formatted.
    destruct (formatDate_day tzOffset env clock now (proj1 Hnow)) as [-> | ->];
      apply Hrender; fold today; lia. }
  split; [exact Hiso|].
  destruct (ISO_DATE_PATTERN_trim formatted Hiso) as [Htrim Hne].
  unfold normalizeDateInput. rewrite Htrim, Hiso.
  apply String.eqb_neq in Hne. rewrite Hne. reflexivity.
Qed.

Lemma formatDate_is_iso_date_witness :
  ISO_DATE_PATTERN
    (formatDate tz_Asia_Kolkata (Finite 4) 0 (Some 1686780900000) None) = true.
Proof.
  refine (proj1 (formatDate_is_iso_date tz_Asia_Kolkata (Finite 4) 0
                   1686780900000 (fun _ => None) (fun _ => NaN) _)).
  vm_compute. split; [discriminate|reflexivity].
Defined.

Lemma first_date_in_skips (tzOffset : Z -> Z) (env : JsNumber) (clock : Z)
    (Date_parse : string -> option Z) (toNumber : string -> JsNumber)
    (before after : list (option (gmap string DateInput))) (keys : list string) :
  (forall source, In (Some source) before ->
     forall key, In key keys -> source !! key = None) ->
  first_date_in tzOffset env clock Date_parse toNumber (before ++ after) keys
  = first_date_in tzOffset env clock Date_parse toNumber after keys.
Proof.
  induction before as [|[source|] before IH]; intros Hnone.
  - reflexivity.
  - cbn [app first_date_in].
    assert (Hsrc : first_date_of tzOffset env clock Date_parse toNumber source keys
                   = None).
    { assert (Hk : forall key, In key keys -> source !! key = None)
        by (apply Hnone; left; reflexivity).
      clear -Hk. induction keys as [|key keys IHk]; [reflexivity|].
      cbn [first_date_of]. rewrite (Hk key (or_introl eq_refl)). cbn.
      apply IHk. intros k Hin. apply Hk. right. exact Hin. }
    rewrite Hsrc. apply IH. intros s Hs. apply Hnone. right. exact Hs.
  - cbn [app first_date_in]. apply IH. intros s Hs. apply Hnone. right. exact Hs.
Qed.

(** X23.  [resolveAttendanceDate] takes the date keys before any timestamp: when
    the first source that has a date key at all holds a text in the form of
    [ISO_DATE_PATTERN] under [date], the result is that text, trimmed,
    whatever timestamps the sources carry and whatever comes after. *)
Theorem resolveAttendanceDate_date_before_timestamps
    (tzOffset : Z -> Z) (env : JsNumber) (clock : Z)
    (Date_parse : string -> option Z) (toNumber : string -> JsNumber)
    (before after : list (option (gmap string DateInput)))
    (source : gmap string DateInput) (text : string)
    (Hbefore : forall earlier, In (Some earlier) before ->
                 forall key, In key DATE_INPUT_KEYS -> earlier !! key = None)
    (Hdate : source !! "date" = Some (InputText text))
    (Hiso : ISO_DATE_PATTERN (trim text) = true) :
  resolveAttendanceDate tzOffset env clock Date_parse toNumber
    (before ++ Some source :: after)
  = trim text.
Proof.
  unfold resolveAttendanceDate.
  rewrite (first_date_in_skips tzOffset env clock Date_parse toNumber before
             (Some source :: after) DATE_INPUT_KEYS Hbefore).
  destruct (ISO_DATE_PATTERN_trim _ Hiso) as [_ Hne].
  apply String.eqb_neq in Hne.
  assert (Hnorm : normalizeDateInput tzOffset env clock Date_parse toNumber
                    (InputText text) = Some (trim text))
    by (unfold normalizeDateInput; rewrite Hne, Hiso; reflexivity).
  cbn [first_date_in DATE_INPUT_KEYS first_date_of]. rewrite Hdate.
  cbn [default from_option id]. rewrite Hnorm, Hne. reflexivity.
Qed.

Lemma resolveAttendanceDate_date_before_timestamps_witness :
  resolveAttendanceDate tz_Asia_Kolkata (Finite 4) 0 (fun _ => None)
    (fun _ => NaN)
    [Some (<["timestamp" := InputNumber (Finite 0)]> ∅);
     Some (<["date" := InputText " 2023-06-14 "]> ∅)]
  = "2023-06-14".
Proof.
  refine (resolveAttendanceDate_date_before_timestamps tz_Asia_Kolkata (Finite 4)
            0 (fun _ => None) (fun _ => NaN)
            [Some (<["timestamp" := InputNumber (Finite 0)]> ∅)] []
            (<["date" := InputText " 2023-06-14 "]> ∅) " 2023-06-14 " _ _ _).
  - intros earlier [H|[]] key Hkey. injection H as <-.
    apply lookup_insert_None. split; [apply lookup_empty|].
    cbn in Hkey. intuition (subst; discriminate).
  - apply lookup_insert_eq.
  - vm_compute. reflexivity.
Defined.

(** *** Path segments of the attendance image key *)

Lemma is_slug_char_not_hyphen (c : ascii) :
  is_slug_char c = true -> Ascii.eqb c hyphen = false.
Proof.
  intros H. destruct (Ascii.eqb c hyphen) eqn:E; [|reflexivity].
  apply Ascii.eqb_eq in E. subst c. discriminate H.
Qed.

Lemma replace_runs_chars (in_run : bool) (s : string) :
  all_chars (fun c => is_slug_char c || Ascii.eqb c hyphen)
    (replace_runs in_run s) = true
  /\ single_hyphens (replace_runs in_run s) = true
  /\ (in_run = true ->
      forall c, first_char (replace_runs in_run s) = Some c ->
                Ascii.eqb c hyphen = false).
Proof.
  revert in_run. induction s as [|c r IH]; intros in_run.
  - cbn. repeat split. intros _ c H. discriminate.
  - cbn [replace_runs]. destruct (is_slug_char c) eqn:Hc.
    + destruct (IH false) as (Hall & Hsingle & _).
      cbn [all_chars single_hyphens first_char].
      rewrite Hc, Hall, Hsingle, (is_slug_char_not_hyphen c Hc).
      repeat split. intros _ c' H. injection H as <-.
      apply is_slug_char_not_hyphen, Hc.
    + destruct (IH true) as (Hall & Hsingle & Hfirst).
      destruct in_run.
      * split; [exact Hall|]. split; [exact Hsingle|]. intros _. apply Hfirst.
        reflexivity.
      * cbn [all_chars single_hyphens first_char].
        rewrite Hall, Hsingle.
        split; [reflexivity|]. split; [|intros H; discriminate].
        destruct (first_char (replace_runs true r)) as [c'|] eqn:Hf;
          [|reflexivity].
        rewrite (Hfirst eq_refl c' eq_refl). reflexivity.
Qed.

Lemma all_chars_last (test : ascii -> bool) (s : string) (l : ascii) :
  all_chars test s = true -> last_char s = Some l -> test l = true.
Proof.
  induction s as [|a r IH]; [discriminate|].
  cbn [all_chars]. rewrite andb_true_iff. intros [Ha Hr].
  destruct r as [|b r']; cbn [last_char].
  - intros H. injection H as <-. exact Ha.
  - apply IH, Hr.
Qed.

Lemma drop_trailing_hyphen_spec (s : string) :
  all_chars (fun c => is_slug_char c || Ascii.eqb c hyphen) s = true ->
  single_hyphens s = true ->
  all_chars (fun c => is_slug_char c || Ascii.eqb c hyphen)
    (drop_trailing_hyphen s) = true
  /\ single_hyphens (drop_trailing_hyphen s) = true
  /\ (drop_trailing_hyphen s = EmptyString
      \/ first_char (drop_trailing_hyphen s) = first_char s)
  /\ (drop_trailing_hyphen s = EmptyString ->
      s = EmptyString \/ s = String hyphen EmptyString)
  /\ (forall l, last_char (drop_trailing_hyphen s) = Some l ->
                Ascii.eqb l hyphen = false).
Proof.
  induction s as [|a r IH]; intros Hall Hsingle.
  - cbn. repeat split; auto. intros l H. discriminate.
  - cbn [all_chars] in Hall. apply andb_true_iff in Hall.
    destruct Hall as [Ha Hall]. cbn beta in Ha.
    cbn [single_hyphens] in Hsingle. apply andb_true_iff in Hsingle.
    destruct Hsingle as [Hpair Hsingle].
    destruct r as [|b r'].
    + cbn [drop_trailing_hyphen]. destruct (Ascii.eqb a hyphen) eqn:Hh.
      * apply Ascii.eqb_eq in Hh. subst a. cbn. repeat split; auto.
        intros l H. discriminate.
      * cbn [all_chars single_hyphens first_char last_char].
        rewrite Hh, Ha. split; [reflexivity|]. split; [reflexivity|].
        split; [right; reflexivity|]. split; [intros H; discriminate|].
        intros l H. injection H as <-. exact Hh.
    + destruct (IH Hall Hsingle) as (Rall & Rsingle & Rfirst & Rempty & Rlast).
      change (drop_trailing_hyphen (String a (String b r')))
        with (String a (drop_trailing_hyphen (String b r'))).
      cbn [all_chars single_hyphens first_char].
      rewrite Ha, Rall, Rsingle. cbn [andb].
      split; [reflexivity|]. split; [|split; [right; reflexivity|split]].
      * rewrite andb_true_r. destruct Rfirst as [-> | ->]; cbn [first_char].
        -- rewrite andb_false_r. reflexivity.
        -- cbn [first_char] in Hpair. exact Hpair.
      * intros H. discriminate.
      * intros l Hl.
        destruct (drop_trailing_hyphen (String b r')) as [|f t] eqn:Hd.
        -- cbn [last_char] in Hl. injection Hl as <-.
           destruct (Rempty eq_refl) as [H|H]; [discriminate|].
           injection H as -> ->. cbn [first_char] in Hpair.
           change (Ascii.eqb hyphen hyphen) with true in Hpair.
           rewrite andb_true_r in Hpair. apply negb_true_iff in Hpair.
           exact Hpair.
        -- apply Rlast. exact Hl.
Qed.

Lemma is_slug_char_plain (c : ascii) :
  is_slug_char c = true -> is_space c = false /\ lower_char c = c.
Proof.
  unfold is_slug_char, is_space, lower_char. cbv zeta.
  generalize (nat_of_ascii c) as n. intros n.
  rewrite orb_true_iff, !andb_true_iff, !Nat.leb_le. intros H.
  assert (Hspace : ((9 <=? n)%nat && (n <=? 13)%nat) = false)
    by (apply andb_false_iff; right; apply Nat.leb_gt; lia).
  assert (H32 : (n =? 32)%nat = false) by (apply Nat.eqb_neq; lia).
  assert (Hupper : ((65 <=? n)%nat && (n <=? 90)%nat) = false)
    by (apply andb_false_iff; destruct H;
        [right|left]; apply Nat.leb_gt; lia).
  rewrite Hspace, H32, Hupper. split; reflexivity.
Qed.

Lemma slug_text_lower (s : string) :
  all_chars (fun c => is_slug_char c || Ascii.eqb c hyphen) s = true ->
  toLowerCase s = s.
Proof.
  unfold toLowerCase. induction s as [|c r IH]; [reflexivity|].
  cbn [all_chars string_map]. rewrite andb_true_iff. intros [Hc Hr].
  rewrite (IH Hr). f_equal.
  apply orb_true_iff in Hc. destruct Hc as [Hc|Hc].
  - apply is_slug_char_plain, Hc.
  - apply Ascii.eqb_eq in Hc. subst c. reflexivity.
Qed.

Lemma trimEnd_last (s : string) (l : ascii) :
  last_char s = Some l -> is_space l = false -> trimEnd s = s.
Proof.
  induction s as [|a r IH]; [discriminate|].
  destruct r as [|b r'].
  - cbn [last_char trimEnd]. intros H Hl. injection H as <-. rewrite Hl.
    reflexivity.
  - intros H Hl. change (last_char (String a (String b r')))
      with (last_char (String b r')) in H.
    specialize (IH H Hl).
    change (trimEnd (String a (String b r')))
      with (match trimEnd (String b r') with
            | EmptyString => if is_space a then EmptyString
                             else String a EmptyString
            | r'' => String a r''
            end).
    rewrite IH. reflexivity.
Qed.

Lemma drop_trailing_hyphen_last (s : string) (l : ascii) :
  last_char s = Some l -> Ascii.eqb l hyphen = false ->
  drop_trailing_hyphen s = s.
Proof.
  induction s as [|a r IH]; [discriminate|].
  destruct r as [|b r'].
  - cbn [last_char drop_trailing_hyphen]. intros H Hl. injection H as <-.
    rewrite Hl. reflexivity.
  - intros H Hl. change (last_char (String a (String b r')))
      with (last_char (String b r')) in H.
    change (drop_trailing_hyphen (String a (String b r')))
      with (String a (drop_trailing_hyphen (String b r'))).
    rewrite (IH H Hl). reflexivity.
Qed.

Lemma replace_runs_slug (in_run : bool) (s : string) :
  all_chars (fun c => is_slug_char c || Ascii.eqb c hyphen) s = true ->
  single_hyphens s = true ->
  (in_run = true -> forall c, first_char s = Some c -> Ascii.eqb c hyphen = false) ->
  replace_runs in_run s = s.
Proof.
  revert in_run. induction s as [|c r IH]; intros in_run Hall Hsingle Hfirst;
    [reflexivity|].
  cbn [all_chars] in Hall. apply andb_true_iff in Hall.
  destruct Hall as [Hc Hall]. cbn beta in Hc.
  cbn [single_hyphens] in Hsingle. apply andb_true_iff in Hsingle.
  destruct Hsingle as [Hpair Hsingle].
  cbn [replace_runs]. destruct (is_slug_char c) eqn:Hs.
  - rewrite (IH false Hall Hsingle); [reflexivity|]. intros H. discriminate.
  - cbn [orb] in Hc. destruct in_run.
    + rewrite (Hfirst eq_refl c eq_refl) in Hc. discriminate.
    + rewrite Hc in Hpair. cbn [andb] in Hpair.
      apply Ascii.eqb_eq in Hc. subst c.
      rewrite (IH true Hall Hsingle); [reflexivity|].
      intros _ c' Hc'. rewrite Hc' in Hpair.
      apply negb_true_iff in Hpair. exact Hpair.
Qed.

Lemma slugify_slug (s fallback : string) :
  is_slug s -> slugify (Some s) fallback = s.
Proof.
  intros (Hall & Hsingle & (f & Hf & Hfs) & (l & Hl & Hls)).
  assert (Hne : s <> "") by (destruct s; [discriminate|discriminate]).
  assert (Htrim : trim s = s).
  { unfold trim. destruct s as [|c r]; [contradiction|].
    cbn [first_char] in Hf. injection Hf as ->.
    cbn [trimStart]. rewrite (proj1 (is_slug_char_plain f Hfs)).
    apply (trimEnd_last _ l Hl). apply is_slug_char_plain, Hls. }
  unfold slugify. cbv zeta. rewrite Htrim, (slug_text_lower s Hall).
  apply String.eqb_neq in Hne. rewrite Hne.
  rewrite (replace_runs_slug false s Hall Hsingle) by (intros H; discriminate).
  assert (Hlead : drop_leading_hyphen s = s).
  { destruct s as [|c r]; [reflexivity|]. cbn [first_char] in Hf.
    injection Hf as ->. cbn [drop_leading_hyphen].
    rewrite (is_slug_char_not_hyphen f Hfs). reflexivity. }
  rewrite Hlead.
  rewrite (drop_trailing_hyphen_last s l Hl (is_slug_char_not_hyphen l Hls)).
  rewrite Hne. reflexivity.
Qed.

(** X24.  What [slugify] returns is the fallback or a slug: lower-case letters
    and digits in groups joined by single hyphens, with no hyphen at either
    end, and so no slash, dot or space; and the slug of a slug is the slug
    itself. *)
Theorem slugify_fallback_or_slug (value : option string) (fallback : string) :
  slugify value fallback = fallback
  \/ (is_slug (slugify value fallback)
      /\ forall other, slugify (Some (slugify value fallback)) other
                       = slugify value fallback).
Proof.
  assert (Hslug : slugify value fallback = fallback
                  \/ is_slug (slugify value fallback)); 
    [|destruct Hslug as [H|H]; [left; exact H|right; split; [exact H|]];
      intros other; apply slugify_slug, H].
  unfold slugify. destruct value as [value|]; [|left; reflexivity].
  cbv zeta. destruct (String.eqb (toLowerCase (trim value)) "");
    [left; reflexivity|].
  set (runs := replace_runs false (toLowerCase (trim value))).
  destruct (replace_runs_chars false (toLowerCase (trim value)))
    as (Hall & Hsingle & _). fold runs in Hall, Hsingle.
  assert (Hlead : all_chars (fun c => is_slug_char c || Ascii.eqb c hyphen)
                    (drop_leading_hyphen runs) = true
                  /\ single_hyphens (drop_leading_hyphen runs) = true
                  /\ forall c, first_char (drop_leading_hyphen runs) = Some c ->
                               Ascii.eqb c hyphen = false).
  { destruct runs as [|a r]; [cbn; repeat split; intros c H; discriminate|].
    cbn [drop_leading_hyphen].
    cbn [all_chars] in Hall. apply andb_true_iff in Hall.
    destruct Hall as [Ha Hall]. cbn beta in Ha.
    cbn [single_hyphens] in Hsingle. apply andb_true_iff in Hsingle.
    destruct Hsingle as [Hpair Hsingle].
    destruct (Ascii.eqb a hyphen) eqn:Hh.
    - split; [exact Hall|]. split; [exact Hsingle|]. intros c Hc.
      rewrite Hc in Hpair. cbn [andb] in Hpair.
      apply negb_true_iff in Hpair. exact Hpair.
    - cbn [all_chars single_hyphens first_char]. rewrite Hh, Ha, Hall, Hsingle.
      split; [reflexivity|]. split; [reflexivity|].
      intros c H. injection H as <-. exact Hh. }
  destruct Hlead as (Lall & Lsingle & Lfirst).
  destruct (drop_trailing_hyphen_spec _ Lall Lsingle)
    as (Rall & Rsingle & Rfirst & _ & Rlast).
  set (slug := drop_trailing_hyphen (drop_leading_hyphen runs)) in *.
  destruct (String.eqb slug "") eqn:Hempty; [left; reflexivity|].
  right. apply String.eqb_neq in Hempty.
  destruct Rfirst as [H|Rfirst]; [contradiction|].
  assert (Hok : forall c, (is_slug_char c || Ascii.eqb c hyphen) = true ->
                          Ascii.eqb c hyphen = false -> is_slug_char c = true).
  { intros c H1 H2. rewrite H2, orb_false_r in H1. exact H1. }
  split; [exact Rall|]. split; [exact Rsingle|]. split.
  - destruct slug as [|c t] eqn:Hs; [contradiction|].
    exists c. split; [reflexivity|]. apply Hok.
    + cbn [all_chars] in Rall. apply andb_true_iff in Rall. apply Rall.
    + apply Lfirst. rewrite <- Rfirst. reflexivity.
  - destruct (last_char slug) as [l|] eqn:Hl.
    + exists l. split; [reflexivity|]. apply Hok.
      * exact (all_chars_last _ slug l Rall Hl).
      * apply Rlast. reflexivity.
    + exfalso. clear -Hl Hempty. induction slug as [|a r IH]; [contradiction|].
      destruct r; [discriminate|]. apply IH; [exact Hl|discriminate].
Qed.

Example slugify_examples :
  slugify (Some "  Ward 12 / Zone-B  ") "unknown" = "ward-12-zone-b"
  /\ slugify (Some "../../etc") "unknown" = "etc"
  /\ slugify (Some " -- ") "unknown" = "unknown"
  /\ slugify None "punch" = "punch".
Proof. repeat split; vm_compute; reflexivity. Qed.

(** *** A refused INSERT of city grants *)

(** X10.  [syncUserCityAccess] is not atomic on the pool: when the INSERT is
    refused (the user or one of the cities is unknown), the DELETE before it
    stands, so the user is left without any explicit grant, the grants of
    the other users are as they were, and the cache is not invalidated. *)
Theorem syncUserCityAccess_refused_insert_keeps_delete
    (st st' : CityAccessState) (userId : Z) (cityIds : list (option Z))
    (message : string)
    (Hsync : syncUserCityAccess st userId cityIds = (st', Threw message)) :
  (forall c, ~ In (mkUserCityAccess userId c)
                  (acc_user_city_access (access_db st')))
  /\ (forall other c, other <> userId ->
        In (mkUserCityAccess other c) (acc_user_city_access (access_db st'))
        <-> In (mkUserCityAccess other c) (acc_user_city_access (access_db st)))
  /\ cityAccessCache st' = cityAccessCache st
  /\ cityAccessVersion st' = cityAccessVersion st
  /\ (userId ∉ acc_users (access_db st)
      \/ exists id, id ∈ normalizeCityIds cityIds
                    /\ id ∉ acc_cities (access_db st)).
Proof.
  unfold syncUserCityAccess in Hsync.
  destruct (length (normalizeCityIds cityIds) =? 0)%nat; [discriminate|].
  destruct (bool_decide (userId ∈ acc_users (access_db st))
            && forallb (fun id => bool_decide (id ∈ acc_cities (access_db st)))
                 (normalizeCityIds cityIds)) eqn:Hfk; [discriminate|].
  injection Hsync as <- _.
  cbn [access_db with_city_access acc_user_city_access cityAccessCache
       cityAccessVersion].
  split; [|split; [|split; [reflexivity|split; [reflexivity|]]]].
  - intros c Hin. apply filter_In in Hin. destruct Hin as [_ Hne].
    cbn [uca_user_id] in Hne. rewrite Z.eqb_refl in Hne. discriminate.
  - intros other c Hother. rewrite filter_In. cbn [uca_user_id].
    replace (other =? userId) with false
      by (symmetry; apply Z.eqb_neq; exact Hother).
    cbn [negb]. tauto.
  - apply andb_false_iff in Hfk. destruct Hfk as [Hu|Hc].
    + left. apply bool_decide_eq_false in Hu. exact Hu.
    + right.
      assert (Hex : exists id, In id (normalizeCityIds cityIds)
                /\ bool_decide (id ∈ acc_cities (access_db st)) = false).
      { clear -Hc. induction (normalizeCityIds cityIds) as [|id ids IH];
          [discriminate|].
        cbn [forallb] in Hc. apply andb_false_iff in Hc.
        destruct Hc as [Hc|Hc].
        - exists id. split; [left; reflexivity|exact Hc].
        - destruct (IH Hc) as (x & Hx & Hb). exists x. split; [right|]; assumption. }
      destruct Hex as (id & Hin & Hb). exists id.
      split; [apply list_elem_of_In, Hin|apply bool_decide_eq_false in Hb; exact Hb].
Qed.

Lemma syncUserCityAccess_refused_insert_keeps_delete_witness :
  exists st',
    fst (syncUserCityAccess
           (mkCityAccessState
              (mkAccessDb [5; 6] [1; 2; 3] [] [] []
                 [mkUserCityAccess 5 3; mkUserCityAccess 6 1])
              (<[(5, 0) := mkScope false [3]]> ∅) 0)
           5 [Some 9]) = st'
    /\ acc_user_city_access (access_db st') = [mkUserCityAccess 6 1]
    /\ cityAccessCache st' = <[(5, 0) := mkScope false [3]]> ∅.
Proof.
  eexists. split; [reflexivity|]. split; [vm_compute; reflexivity|].
  refine (proj1 (proj2 (proj2
    (syncUserCityAccess_refused_insert_keeps_delete
       (mkCityAccessState
          (mkAccessDb [5; 6] [1; 2; 3] [] [] []
             [mkUserCityAccess 5 3; mkUserCityAccess 6 1])
          (<[(5, 0) := mkScope false [3]]> ∅) 0)
       _ 5 [Some 9] "violates foreign key constraint" _)))).
  vm_compute. reflexivity.
Defined.

(** *** Punching in twice *)

Lemma joined_intro (db : Db) (a : AttendanceRow) (e : EmployeeRow) (d w : Z) :
  In a (tbl_attendance db) ->
  In e (tbl_employee db) -> a_emp_id a = e_emp_id e ->
  e_designation_id e = Some d -> In d (tbl_designation db) ->
  e_ward_id e = Some w -> In w (tbl_wards db) ->
  In (a, e, w) (joined db).
Proof.
  intros Ha He Hae Hd Hd' Hw Hw'. unfold joined.
  apply in_flat_map. exists a. split; [exact Ha|].
  apply in_flat_map. exists e. split.
  { apply filter_In. split; [exact He|]. apply Z.eqb_eq, Hae. }
  apply in_flat_map. exists d. split.
  { apply filter_In. split; [exact Hd'|]. rewrite Hd. apply Z.eqb_refl. }
  apply in_map_iff. exists w. split; [reflexivity|].
  apply filter_In. split; [exact Hw'|]. rewrite Hw. apply Z.eqb_refl.
Qed.

(** The record a punch IN gets is that of a row of the employee and the
    target date. *)
Lemma getOrCreateAttendanceRecord_punch_in_row (db db1 : Db) (today emp : Z)
    (date : option Z) (att : Attendance) :
  getOrCreateAttendanceRecord db today emp date (Some IN) true
  = (db1, Returned (Some att)) ->
  exists a, In a (tbl_attendance db1)
            /\ a_emp_id a = emp
            /\ a_date a = match date with Some d => d | None => today end
            /\ a_attendance_id a = attendance_id att.
Proof.
  unfold getOrCreateAttendanceRecord.
  set (targetDate := match date with Some d => d | None => today end).
  set (whereClause := fun a => (a_emp_id a =? emp) && (a_date a =? targetDate)).
  assert (Hwhere : forall a, whereClause a = true ->
                     a_emp_id a = emp /\ a_date a = targetDate).
  { intros a H. unfold whereClause in H. apply andb_true_iff in H.
    rewrite !Z.eqb_eq in H. exact H. }
  cbn [is_OUT andb negb].
  destruct (fetchAttendanceRecord db whereClause) as [attendance|] eqn:Hfetch.
  - intros H. injection H as <- <-.
    apply fetchAttendanceRecord_row in Hfetch.
    destruct Hfetch as (a & Ha & Hw & Hid & _).
    destruct (Hwhere a Hw) as [He Hd]. exists a. auto.
  - destruct (emp =? 0); [discriminate|].
    unfold insert_attendance. fold whereClause.
    destruct (existsb whereClause (tbl_attendance db)) eqn:Hex.
    + cbn [tbl_attendance].
      destruct (List.filter whereClause (tbl_attendance db)) as [|base rest] eqn:Hf;
        [discriminate|].
      cbn [head]. intros H. injection H as <- <-. cbn [tbl_attendance attendance_id].
      assert (Hin : In base (List.filter whereClause (tbl_attendance db)))
        by (rewrite Hf; left; reflexivity).
      apply filter_In in Hin. destruct Hin as [Hin Hw].
      destruct (Hwhere base Hw) as [He Hd]. exists base. auto.
    + intros H. injection H as <- <-. cbn [tbl_attendance attendance_id].
      eexists. split; [apply in_or_app; right; left; reflexivity|].
      cbn [a_emp_id a_date a_attendance_id]. auto.
Qed.

(** X17.  After a punch IN has gone through for an employee who has a designation
    and a ward, a second punch IN of the employee for the same date gets the
    same row, now with its punch-in, and is rejected with 400
    "Already punched in today"; the second attempt writes nothing. *)
Theorem punch_in_twice_rejected
    (db db1 db2 : Db) (today emp now : Z) (date : option Z)
    (att : Attendance) (updated : AttendanceRow)
    (Hkeys : attendance_keys_ok db)
    (Hemployee : exists e d w,
       In e (tbl_employee db) /\ e_emp_id e = emp
       /\ e_designation_id e = Some d /\ In d (tbl_designation db)
       /\ e_ward_id e = Some w /\ In w (tbl_wards db))
    (Hget : getOrCreateAttendanceRecord db today emp date (Some IN) true
            = (db1, Returned (Some att)))
    (Hvalid : validatePunchAttempt (Some att) IN = None)
    (Hpunch : processPunch db1 now (attendance_id att) IN None
              = (db2, Returned updated)) :
  exists again,
    getOrCreateAttendanceRecord db2 today emp date (Some IN) true
    = (db2, Returned (Some again))
    /\ attendance_id again = attendance_id att
    /\ punch_in_time again = Some now
    /\ validatePunchAttempt (Some again) IN
       = Some {| status := 400; error := "Already punched in today" |}.
Proof.
  set (targetDate := match date with Some d => d | None => today end).
  destruct (getOrCreateAttendanceRecord_punch_in_row _ _ _ _ _ _ Hget)
    as (a & Ha & Haemp & Hadate & Haid). fold targetDate in Hadate.
  (* the tables after the first resolution *)
  assert (H1 : attendance_keys_ok db1
               /\ tbl_employee db1 = tbl_employee db
               /\ tbl_designation db1 = tbl_designation db
               /\ tbl_wards db1 = tbl_wards db).
  { destruct (getOrCreateAttendanceRecord_db db today emp date (Some IN) true)
      as [Hdb _]. rewrite Hget in Hdb. cbn [fst] in Hdb.
    destruct Hdb as [->|(d & w & ->)]; [split; [exact Hkeys|repeat split]|].
    destruct (insert_attendance_keeps db emp d w) as (Hk & _ & He & Hd & Hw).
    split; [exact (Hk Hkeys)|]. repeat split; assumption. }
  destruct H1 as (Hkeys1 & He1 & Hd1 & Hw1).
  (* the tables after the punch *)
  assert (Hdb2 : db2 = fst (update_attendance db1 (attendance_id att) IN now)).
  { unfold processPunch in Hpunch.
    destruct (update_attendance db1 (attendance_id att) IN now) as [db' rows].
    destruct rows; [discriminate|]. injection Hpunch as <- _. reflexivity. }
  destruct (update_attendance_keeps db1 (attendance_id att) IN now)
    as (Hk2 & He2 & Hd2 & Hw2 & _).
  rewrite <- Hdb2 in Hk2, He2, Hd2, Hw2. specialize (Hk2 Hkeys1).
  set (a' := stamp IN now a).
  assert (Ha' : In a' (tbl_attendance db2)).
  { rewrite Hdb2. unfold update_attendance. cbn [fst tbl_attendance].
    apply in_map_iff. exists a. split; [|exact Ha].
    rewrite Haid, Z.eqb_refl. reflexivity. }
  set (whereClause := fun r => (a_emp_id r =? emp) && (a_date r =? targetDate)).
  assert (Hwa' : whereClause a' = true).
  { unfold whereClause, a'. cbn [stamp a_emp_id a_date].
    rewrite Haemp, Hadate, !Z.eqb_refl. reflexivity. }
  (* the second resolution finds the row *)
  destruct Hemployee as (e & d & w & Hein & Heid & Hed & Hdin & Hew & Hwin).
  assert (Hjoined : In (a', e, w) (joined db2)).
  { apply (joined_intro db2 a' e d w); try assumption.
    - rewrite He2, He1. exact Hein.
    - unfold a'. cbn [stamp a_emp_id]. congruence.
    - rewrite Hd2, Hd1. exact Hdin.
    - rewrite Hw2, Hw1. exact Hwin. }
  destruct (fetchAttendanceRecord db2 whereClause) as [again|] eqn:Hfetch.
  2:{ exfalso. apply fetchAttendanceRecord_None in Hfetch.
      assert (Hin : In (a', e, w)
                (List.filter (fun j => whereClause (fst (fst j))) (joined db2)))
        by (apply filter_In; split; [exact Hjoined|exact Hwa']).
      rewrite Hfetch in Hin. destruct Hin. }
  pose proof Hfetch as Hrow. apply fetchAttendanceRecord_row in Hrow.
  destruct Hrow as (b & Hb & Hwb & Hbid & Hbin & _).
  assert (b = a').
  { apply (NoDup_map_eq (fun r => (a_emp_id r, a_date r)) (tbl_attendance db2));
      [apply Hk2|exact Hb|exact Ha'|].
    unfold whereClause in Hwb, Hwa'. apply andb_true_iff in Hwb, Hwa'.
    rewrite !Z.eqb_eq in Hwb, Hwa'. destruct Hwb as [-> ->], Hwa' as [-> ->].
    reflexivity. }
  subst b.
  assert (Hin : punch_in_time again = Some now)
    by (rewrite Hbin; reflexivity).
  exists again.
  split.
  { unfold getOrCreateAttendanceRecord. fold targetDate. fold whereClause.
    rewrite Hfetch. reflexivity. }
  split; [rewrite Hbid; unfold a'; cbn [stamp a_attendance_id]; exact Haid|].
  split; [exact Hin|].
  unfold validatePunchAttempt. cbn [PunchType_eqb andb]. rewrite Hin.
  case_bool_decide as Hs; [reflexivity|].
  exfalso. apply Hs. eexists; reflexivity.
Qed.

Lemma punch_in_twice_rejected_witness :
  exists db2 again,
    getOrCreateAttendanceRecord db2 19523 100 (Some 19523) (Some IN) true
    = (db2, Returned (Some again))
    /\ tbl_attendance db2 = [mkAttendanceRow 1 100 19523 (Some 1) (Some 5000) None]
    /\ validatePunchAttempt (Some again) IN
       = Some {| status := 400; error := "Already punched in today" |}.
Proof.
  destruct (punch_in_twice_rejected group_db
              (mkDb [mkAttendanceRow 1 100 19523 (Some 1) None None]
                    [mkEmployeeRow 100 (Some 1) (Some 1)] [1] [1] 1)
              (mkDb [mkAttendanceRow 1 100 19523 (Some 1) (Some 5000) None]
                    [mkEmployeeRow 100 (Some 1) (Some 1)] [1] [1] 1)
              19523 100 5000 (Some 19523)
              (mkAttendance 1 (Some 19523) None None 100 (Some 1))
              (mkAttendanceRow 1 100 19523 (Some 1) (Some 5000) None))
    as (again & Hget & _ & _ & Hval).
  - split; [apply NoDup_nil_2|]. split; [apply NoDup_nil_2|]. intros a [].
  - exists (mkEmployeeRow 100 (Some 1) (Some 1)), 1, 1. cbn.
    repeat split; auto.
  - vm_compute. reflexivity.
  - reflexivity.
  - vm_compute. reflexivity.
  - eexists _, again. split; [exact Hget|]. split; [reflexivity|exact Hval].
Defined.

Lemma joined_employee (db : Db) (j : AttendanceRow * EmployeeRow * Z) :
  In j (joined db) ->
  In (snd (fst j)) (tbl_employee db)
  /\ a_emp_id (fst (fst j)) = e_emp_id (snd (fst j))
  /\ exists d, e_designation_id (snd (fst j)) = Some d.
Proof.
  unfold joined. intros H.
  apply in_flat_map in H. destruct H as (a & Ha & H).
  apply in_flat_map in H. destruct H as (e & He & H).
  apply in_flat_map in H. destruct H as (d & Hd & H).
  apply in_map_iff in H. destruct H as (w & <- & Hw). cbn [fst snd].
  apply filter_In in He. destruct He as [He Hae]. apply Z.eqb_eq in Hae.
  apply filter_In in Hd. destruct Hd as [_ Hd].
  split; [exact He|]. split; [exact Hae|].
  destruct (e_designation_id e) as [d'|]; [exists d'; reflexivity|discriminate].
Qed.

(** X18.  The guard against a second punch IN rests on the join with the
    employee's designation and ward: for an employee without a designation
    the stored row is not found by the resolver's first query, the INSERT
    meets the row, and the record handed on carries the id of the stored
    row and no punch times, whatever the row holds; validation accepts a
    punch IN on it. *)
Theorem getOrCreateAttendanceRecord_unjoined_row_without_punches
    (db : Db) (today emp : Z) (date : option Z) (a : AttendanceRow)
    (Hemp : emp <> 0)
    (Hkey : NoDup (map (fun r => (a_emp_id r, a_date r)) (tbl_attendance db)))
    (Hnone : forall e, In e (tbl_employee db) -> e_emp_id e = emp ->
                       e_designation_id e = None)
    (Ha : In a (tbl_attendance db))
    (Haemp : a_emp_id a = emp)
    (Hadate : a_date a = match date with Some d => d | None => today end) :
  exists db' att,
    getOrCreateAttendanceRecord db today emp date (Some IN) true
    = (db', Returned (Some att))
    /\ tbl_attendance db' = tbl_attendance db
    /\ attendance_id att = a_attendance_id a
    /\ punch_in_time att = None /\ punch_out_time att = None
    /\ validatePunchAttempt (Some att) IN = None.
Proof.
  unfold getOrCreateAttendanceRecord.
  set (targetDate := match date with Some d => d | None => today end) in *.
  set (whereClause := fun r => (a_emp_id r =? emp) && (a_date r =? targetDate)).
  assert (Hwa : whereClause a = true)
    by (unfold whereClause; rewrite Haemp, Hadate, !Z.eqb_refl; reflexivity).
  assert (Hfetch : fetchAttendanceRecord db whereClause = None).
  { apply fetchAttendanceRecord_None. apply filter_all_false.
    intros j Hj. destruct (whereClause (fst (fst j))) eqn:Hw; [|reflexivity].
    exfalso. destruct (joined_employee db j Hj) as (He & Hae & d & Hd).
    unfold whereClause in Hw. apply andb_true_iff in Hw.
    destruct Hw as [Hw _]. apply Z.eqb_eq in Hw.
    rewrite (Hnone _ He) in Hd by congruence. discriminate. }
  rewrite Hfetch. cbn [is_OUT andb negb].
  replace (emp =? 0) with false by (symmetry; apply Z.eqb_neq; exact Hemp).
  unfold insert_attendance. fold whereClause.
  assert (Hex : existsb whereClause (tbl_attendance db) = true)
    by (apply existsb_exists; exists a; split; assumption).
  rewrite Hex. cbn [tbl_attendance].
  destruct (existsb_filter_head _ _ Hex) as (base & Hbase).
  rewrite Hbase.
  assert (base = a).
  { assert (Hin : In base (List.filter whereClause (tbl_attendance db))).
    { destruct (List.filter whereClause (tbl_attendance db)); [discriminate|].
      injection Hbase as ->. left. reflexivity. }
    apply filter_In in Hin. destruct Hin as [Hin Hwb].
    apply (NoDup_map_eq (fun r => (a_emp_id r, a_date r)) (tbl_attendance db));
      [exact Hkey|exact Hin|exact Ha|].
    unfold whereClause in Hwb, Hwa. apply andb_true_iff in Hwb, Hwa.
    rewrite !Z.eqb_eq in Hwb, Hwa. destruct Hwb as [-> ->], Hwa as [-> ->].
    reflexivity. }
  subst base. eexists _, _. split; [reflexivity|].
  cbn [tbl_attendance attendance_id punch_in_time punch_out_time].
  repeat split.
Qed.

Lemma getOrCreateAttendanceRecord_unjoined_row_without_punches_witness :
  exists db' att,
    getOrCreateAttendanceRecord
      (mkDb [mkAttendanceRow 11 3 19522 (Some 1) (Some 1000) None]
            [mkEmployeeRow 3 None (Some 1)] [1] [1] 11)
      19522 3 (Some 19522) (Some IN) true
    = (db', Returned (Some att))
    /\ punch_in_time att = None
    /\ validatePunchAttempt (Some att) IN = None.
Proof.
  destruct (getOrCreateAttendanceRecord_unjoined_row_without_punches
              (mkDb [mkAttendanceRow 11 3 19522 (Some 1) (Some 1000) None]
                    [mkEmployeeRow 3 None (Some 1)] [1] [1] 11)
              19522 3 (Some 19522)
              (mkAttendanceRow 11 3 19522 (Some 1) (Some 1000) None))
    as (db' & att & Hget & _ & _ & Hin & _ & Hval).
  - lia.
  - cbn. apply NoDup_singleton.
  - intros e [<-|[]] _. reflexivity.
  - left. reflexivity.
  - reflexivity.
  - reflexivity.
  - exists db', att. split; [exact Hget|]. split; assumption.
Defined.

(** *** The admin role, as written and lower-cased *)

(** X25.  The city scope reads the role without regard to case and [authorize]
    reads it as written: a user whose role lower-cases to admin without
    being the text admin (Admin, say) gets the city scope [all] from
    [attachCityScope], and is still refused by [authorize] with 403 for a
    permission that no role or grant gives. *)
Theorem authorize_reads_admin_role_as_written (m a : string) (st : RbacState)
    (req : Request) (user : User)
    (Huser : req_user req = Some user) (Hid : user_id user <> 0)
    (Hscope : is_admin user = true)
    (Hexact : role_is_exactly_admin user = false)
    (Hcoh : cache_coherent st)
    (Hnone : ~ holds_permission (rbac_db st) (user_id user) (permission_key m a)) :
  req_cityScope (snd (fst (attachCityScope st req))) = Some (mkScope true [])
  /\ snd (authorize m a st req) = Respond 403 "Forbidden: missing permission".
Proof.
  split.
  - rewrite attachCityScope_request. cbn [req_cityScope]. rewrite Huser.
    unfold buildCityScopeForUser.
    replace (user_id user =? 0) with false
      by (symmetry; apply Z.eqb_neq; exact Hid).
    rewrite Hscope. reflexivity.
  - rewrite (authorize_not_admin m a st req user Huser Hid Hexact Hcoh).
    cbv zeta. case_bool_decide as Hin; [|reflexivity].
    exfalso. apply Hnone. apply permissionSet_elem. exact Hin.
Qed.

Lemma authorize_reads_admin_role_as_written_witness :
  snd (authorize "ward" "view" (mkRbacState
         (mkRbacDb [mkPermission 1 "city" "view"] [] [] [] []) ∅ 0)
         (mkRequest (Some (mkUser 9 (Some "Admin"))) None ∅))
  = Respond 403 "Forbidden: missing permission".
Proof.
  refine (proj2 (authorize_reads_admin_role_as_written "ward" "view"
                   (mkRbacState
                      (mkRbacDb [mkPermission 1 "city" "view"] [] [] [] []) ∅ 0)
                   (mkRequest (Some (mkUser 9 (Some "Admin"))) None ∅)
                   (mkUser 9 (Some "Admin")) eq_refl _ eq_refl eq_refl _ _)).
  - cbn. lia.
  - intros u cached H. cbn [permissionCache] in H. rewrite lookup_empty in H.
    discriminate.
  - intros (row & Hrow & _). vm_compute in Hrow. exact Hrow.
Defined.
